(** * MADO orchestration core: a shallow embedding and its properties

    The development follows the TypeScript sources of the orchestration
    engine: the agent registry and its matching algorithm
    ([src/agents/agent-registry.ts]), the agent lifecycle of [BaseAgent],
    the worktree manager ([WorktreeManager] in [src/git/repository.ts]) and
    the conflict parser ([AutomaticConflictResolver.parseConflictFile]).

    Conventions of the embedding:
    - JavaScript numbers are exact where the results of the code are:
      integers where it only counts or subtracts timestamps ([Z]),
      rationals where it divides or scales ([Q]).  Where the outcome
      depends on how the doubles round, as in the comparison of two
      confidences, the numbers are IEEE 754 doubles ([Binary64]).
    - JavaScript strings are [string]s; every character is one code unit.
    - A [Map] is an association list in insertion order.
    - [try]/[catch]/[throw] are an exception monad over an explicit state;
      a thrown exception keeps the state reached so far.
    - [await] is sequencing: the code is single-threaded and the functions
      modelled here are followed without interleaving.
    - Logging is left out: the logger calls are taken to return and they
      touch none of the state modelled here. *)

From Stdlib Require Import String Ascii List ZArith QArith Qminmax Lia Bool.
From Stdlib Require Import DecimalString.
From Stdlib Require Import Lqa Sorted SpecFloat.
Import ListNotations.

Set Implicit Arguments.

(* ===================================================================== *)
(** * Part I: the model *)
(* ===================================================================== *)

(** ** JavaScript strings *)

Module JsString.

Local Open Scope string_scope.

(** [String.prototype.toLowerCase] on the Latin-1 range: A-Z and the
    accented capitals U+00C0..U+00DE (except the multiplication sign). *)
Definition lowerChar (c : ascii) : ascii :=
  let n := nat_of_ascii c in
  if ((65 <=? n) && (n <=? 90))%nat then ascii_of_nat (n + 32)
  else if ((192 <=? n) && (n <=? 222) && negb (n =? 215))%nat
       then ascii_of_nat (n + 32)
  else c.

Fixpoint toLowerCase (s : string) : string :=
  match s with
  | EmptyString => EmptyString
  | String c s' => String (lowerChar c) (toLowerCase s')
  end.

(** [s.startsWith(p)] *)
Definition startsWith (s p : string) : bool := String.prefix p s.

(** [s.includes(sub)]: [sub] occurs somewhere in [s]. *)
Fixpoint includes (s sub : string) : bool :=
  if String.prefix sub s then true
  else match s with
       | EmptyString => false
       | String _ s' => includes s' sub
       end.

(** White space recognised by [trim] in the Latin-1 range. *)
Definition isWhiteSpace (c : ascii) : bool :=
  let n := nat_of_ascii c in
  ((9 <=? n) && (n <=? 13) || (n =? 32) || (n =? 160))%nat.

Fixpoint trimStart (s : string) : string :=
  match s with
  | EmptyString => EmptyString
  | String c s' => if isWhiteSpace c then trimStart s' else s
  end.

Fixpoint trimEnd (s : string) : string :=
  match s with
  | EmptyString => EmptyString
  | String c s' =>
      match trimEnd s' with
      | EmptyString => if isWhiteSpace c then EmptyString
                       else String c EmptyString
      | r => String c r
      end
  end.

Definition trim (s : string) : string := trimEnd (trimStart s).

(** [!s]: the empty string is the only falsy string. *)
Definition falsy (s : string) : bool :=
  match s with EmptyString => true | _ => false end.

Definition LF : ascii := ascii_of_nat 10.

(** [s.split('\n')]: never empty, [''.split('\n')] is [['']]. *)
Fixpoint splitLines (s : string) : list string :=
  match s with
  | EmptyString => [EmptyString]
  | String c s' =>
      if Ascii.eqb c LF then EmptyString :: splitLines s'
      else match splitLines s' with
           | [] => [String c EmptyString]
           | l :: ls => String c l :: ls
           end
  end.

(** Template-literal rendering of an integer, for integers below 10^21
    in magnitude (from there on the program prints an exponent). *)
Definition ofZ (z : Z) : string := NilZero.string_of_int (Z.to_int z).

End JsString.

(** ** JavaScript [Map<string, V>] in insertion order *)

Module JsMap.
Section WithValue.
Variable V : Type.

Definition t := list (string * V).

Definition empty : t := [].

Fixpoint get (m : t) (k : string) : option V :=
  match m with
  | [] => None
  | (k', v) :: m' => if String.eqb k' k then Some v else get m' k
  end.

Definition has (m : t) (k : string) : bool :=
  match get m k with Some _ => true | None => false end.

(** [set] keeps the position of an existing key and appends a new one. *)
Fixpoint set (m : t) (k : string) (v : V) : t :=
  match m with
  | [] => [(k, v)]
  | (k', v') :: m' =>
      if String.eqb k' k then (k, v) :: m' else (k', v') :: set m' k v
  end.

Fixpoint delete (m : t) (k : string) : t :=
  match m with
  | [] => []
  | (k', v') :: m' =>
      if String.eqb k' k then delete m' k else (k', v') :: delete m' k
  end.

Definition size (m : t) : Z := Z.of_nat (List.length m).

Definition keys (m : t) : list string := List.map fst m.
Definition values (m : t) : list V := List.map snd m.
Definition entries (m : t) : list (string * V) := m.

(** Representation invariant of a real [Map]: keys are distinct. *)
Definition wf (m : t) : Prop := NoDup (keys m).
End WithValue.
End JsMap.

(** ** Exceptions and effects *)

Module Js.

(** A thrown value: an [Error] with its message, or anything else, kept
    as the text [String(value)] gives. *)
Inductive Thrown : Type :=
| ErrorObject (message : string)
| OtherValue (text : string).

(** [error instanceof Error ? error.message : String(error)] *)
Definition errorText (e : Thrown) : string :=
  match e with
  | ErrorObject message => message
  | OtherValue text => text
  end.

Inductive Completion (A : Type) : Type :=
| Normal (a : A)
| Throws (e : Thrown).
Arguments Throws {A} e.

(** An effectful computation over a state [S]. *)
Definition Eff (S A : Type) : Type := S -> Completion A * S.

Definition ret {S A} (a : A) : Eff S A := fun s => (Normal a, s).

Definition bind {S A B} (c : Eff S A) (k : A -> Eff S B) : Eff S B :=
  fun s => match c s with
           | (Normal a, s') => k a s'
           | (Throws e, s') => (Throws e, s')
           end.

Definition throw {S A} (e : Thrown) : Eff S A := fun s => (Throws e, s).

Definition tryCatch {S A} (c : Eff S A) (h : Thrown -> Eff S A) : Eff S A :=
  fun s => match c s with
           | (Normal a, s') => (Normal a, s')
           | (Throws e, s') => h e s'
           end.

Definition gets {S A} (f : S -> A) : Eff S A := fun s => (Normal (f s), s).
Definition modify {S} (f : S -> S) : Eff S unit := fun s => (Normal tt, f s).

Definition when {S} (b : bool) (c : Eff S unit) : Eff S unit :=
  if b then c else ret tt.

(** [for (const x of xs) body(x)] *)
Fixpoint forOf {S A} (xs : list A) (body : A -> Eff S unit) : Eff S unit :=
  match xs with
  | [] => ret tt
  | x :: xs' => bind (body x) (fun _ => forOf xs' body)
  end.

End Js.

Declare Scope js_scope.
Delimit Scope js_scope with js.
Notation "x <- c ;; k" := (Js.bind c (fun x => k))
  (at level 100, c at next level, right associativity) : js_scope.
Notation "c ;;; k" := (Js.bind c (fun _ => k))
  (at level 100, right associativity) : js_scope.

(** ** Shared data types ([agent.types.ts], [task.types.ts]) *)

Module Types.

Local Open Scope string_scope.

Inductive AgentRole : Type :=
| ORCHESTRATOR | FRONTEND | BACKEND | DEVOPS | QA | FULL_STACK.

(** The string value of each enum member. *)
Definition roleValue (r : AgentRole) : string :=
  match r with
  | ORCHESTRATOR => "orchestrator"
  | FRONTEND => "frontend"
  | BACKEND => "backend"
  | DEVOPS => "devops"
  | QA => "qa"
  | FULL_STACK => "full_stack"
  end.

(** [Object.values(AgentRole)] *)
Definition roleValues : list string :=
  List.map roleValue [ORCHESTRATOR; FRONTEND; BACKEND; DEVOPS; QA; FULL_STACK].

Inductive AgentStatus : Type :=
| INACTIVE | ACTIVE | BUSY | ERROR | STARTING | STOPPING.

Definition statusEqb (a b : AgentStatus) : bool :=
  match a, b with
  | INACTIVE, INACTIVE | ACTIVE, ACTIVE | BUSY, BUSY
  | ERROR, ERROR | STARTING, STARTING | STOPPING, STOPPING => true
  | _, _ => false
  end.

Record AgentCapability : Type := {
  capName : string;
  capLevel : Z;
  capDescription : string
}.

Record AgentMetrics : Type := {
  tasksCompleted : Z;
  averageTaskDuration : Q;
  successRate : Q;
  codeQualityScore : Q;
  collaborationScore : Q;
  lastActivityTime : Z
}.

Inductive TaskType : Type :=
| FEATURE | BUG_FIX | REFACTOR | TEST | DOCUMENTATION | DEPLOYMENT
| CODE_REVIEW | INTEGRATION | OPTIMIZATION.

Definition taskTypeValue (t : TaskType) : string :=
  match t with
  | FEATURE => "feature"
  | BUG_FIX => "bug_fix"
  | REFACTOR => "refactor"
  | TEST => "test"
  | DOCUMENTATION => "documentation"
  | DEPLOYMENT => "deployment"
  | CODE_REVIEW => "code_review"
  | INTEGRATION => "integration"
  | OPTIMIZATION => "optimization"
  end.

Inductive RequirementType : Type := Functional | Technical | Quality.

Definition isTechnical (k : RequirementType) : bool :=
  match k with Technical => true | _ => false end.

Record TaskRequirement : Type := {
  reqId : string;
  reqDescription : string;
  reqType : RequirementType;
  reqSatisfied : bool
}.

Record Task : Type := {
  taskId : string;
  taskType : TaskType;
  taskTitle : string;
  taskDescription : string;
  taskRequirements : list TaskRequirement;
  taskDependencies : list string;
  estimatedDuration : Z;
  taskFiles : list string
}.

Record TaskResult : Type := {
  resTaskId : string;
  resSuccess : bool;
  resOutput : option string;
  resError : option string;
  resDuration : Z;
  resChangedFiles : list string;
  resCompletedAt : Z
}.

Record TaskAssignment : Type := {
  asgTaskId : string;
  asgAgentId : string;
  asgAssignedAt : Z;
  asgEstimatedCompletion : Q;
  asgConfidence : Q
}.

(** The agent as the registry sees it ([IAgent]).  [agentMetrics] is
    [None] for an object without a [metrics] property, the case the
    registry's [!agent.metrics] test provides for. *)
Record IAgent : Type := {
  agentId : string;
  agentName : string;
  agentRole : AgentRole;
  agentCapabilities : list AgentCapability;
  agentStatus : AgentStatus;
  agentWorkingDirectory : string;
  agentLastActivity : Z;
  agentMetrics : option AgentMetrics
}.

(** [AgentConfig] as it reaches [validateAgentConfig]: [cfgRole] is the
    raw string, checked there against the enum values. *)
Record AgentConfig : Type := {
  cfgId : string;
  cfgName : string;
  cfgRole : string;
  cfgWorkingDirectory : string;
  cfgCapabilities : list AgentCapability;
  cfgMaxConcurrentTasks : Z;
  cfgHealthCheckInterval : Z
}.

End Types.

(** ** The agent registry ([src/agents/agent-registry.ts]) *)

Module AgentRegistry.
Import Types JsString.
Local Open Scope string_scope.
Local Open Scope js_scope.

Inductive LoadBalancing : Type := RoundRobin | CapabilityBased | LoadBased.

(** [maxAgents] is a count; it is taken to be an integer. *)
Record AgentRegistryConfig : Type := {
  maxAgents : Z;
  healthCheckInterval : Z;
  autoRestart : bool;
  loadBalancing : LoadBalancing
}.

Record AgentMatchResult : Type := {
  matchAgent : IAgent;
  confidence : Q;
  reasoning : list string
}.

(** The private fields of the class. *)
Record Registry : Type := {
  agents : JsMap.t IAgent;
  agentConfigs : JsMap.t AgentConfig;
  config : AgentRegistryConfig;
  assignmentHistory : list TaskAssignment
}.

Definition withAgents (r : Registry) (a : JsMap.t IAgent)
    (c : JsMap.t AgentConfig) : Registry :=
  {| agents := a; agentConfigs := c; config := config r;
     assignmentHistory := assignmentHistory r |}.

Definition M := Js.Eff Registry.

Definition stringIn (s : string) (l : list string) : bool :=
  List.existsb (String.eqb s) l.

(** [!s || s.trim() === ''] *)
Definition missing (s : string) : bool :=
  falsy s || String.eqb (trim s) "".

Definition validateAgentConfig (cfg : AgentConfig) : M unit :=
  if missing (cfgId cfg) then
    Js.throw (Js.ErrorObject "Agent ID is required")
  else if missing (cfgName cfg) then
    Js.throw (Js.ErrorObject "Agent name is required")
  else if negb (stringIn (cfgRole cfg) roleValues) then
    Js.throw (Js.ErrorObject ("Invalid agent role: " ++ cfgRole cfg))
  else if missing (cfgWorkingDirectory cfg) then
    Js.throw (Js.ErrorObject "Working directory is required")
  else if (cfgMaxConcurrentTasks cfg <? 1)%Z then
    Js.throw (Js.ErrorObject "Max concurrent tasks must be at least 1")
  else Js.ret tt.

Definition capacityMessage (max : Z) : string :=
  "Maximum number of agents (" ++ ofZ max ++ ") reached".

Definition duplicateMessage (id : string) : string :=
  "Agent with ID " ++ id ++ " is already registered".

(** *** The registry's own events

    The registry is an [EventEmitter]: [this.emit(name, agent)] calls the
    listeners of [name] at once, and what a listener throws passes through
    [emit] to the caller.  [Listeners] says what they do with an event:
    [None] when all of them return, [Some e] when one throws [e].  They
    are taken not to call back into the registry. *)
Inductive RegistryEvent : Type :=
| AgentRegistered (agent : IAgent)
| AgentUnregistered (agent : IAgent).

Definition Listeners : Type := RegistryEvent -> option Js.Thrown.

Definition emitOwn (heard : Listeners) (event : RegistryEvent) : M unit :=
  fun r => match heard event with
           | None => (Js.Normal tt, r)
           | Some e => (Js.Throws e, r)
           end.

(** [registerAgent]: the [catch] logs and rethrows, so the body's
    exception is the call's.  Event forwarding, logging and the bus
    notification do not touch the registry's fields; the registry's own
    ['agent:registered'] event comes last, after both maps are written. *)
Definition registerAgent (heard : Listeners) (agent : IAgent) (cfg : AgentConfig)
    : M unit :=
  Js.tryCatch
    (size <- Js.gets (fun r => JsMap.size (agents r)) ;;
     max <- Js.gets (fun r => maxAgents (config r)) ;;
     if (size >=? max)%Z then
       Js.throw (Js.ErrorObject (capacityMessage max))
     else
       present <- Js.gets (fun r => JsMap.has (agents r) (agentId agent)) ;;
       if present then
         Js.throw (Js.ErrorObject (duplicateMessage (agentId agent)))
       else
         validateAgentConfig cfg ;;;
         Js.modify (fun r =>
           withAgents r (JsMap.set (agents r) (agentId agent) agent)
                        (JsMap.set (agentConfigs r) (agentId agent) cfg)) ;;;
         emitOwn heard (AgentRegistered agent))
    (fun error => Js.throw error).

(** What awaiting [agent.stop()] comes to: [None] when it resolves,
    [Some e] when it rejects with [e], and the agent as the call leaves
    it.  The map holds the very object that [stop] works on, so the entry
    under the agent's key changes with it. *)
Definition Stop : Type := IAgent -> option Js.Thrown * IAgent.

Definition callStop (stop : Stop) (id : string) (agent : IAgent) : M IAgent :=
  fun r =>
    let stopped := snd (stop agent) in
    let r' := withAgents r (JsMap.set (agents r) id stopped) (agentConfigs r) in
    match fst (stop agent) with
    | None => (Js.Normal stopped, r')
    | Some e => (Js.Throws e, r')
    end.

(** [unregisterAgent]; the ['agent:unregistered'] event comes after the
    two deletions. *)
Definition unregisterAgent (heard : Listeners) (stop : Stop) (id : string)
    : M unit :=
  Js.tryCatch
    (found <- Js.gets (fun r => JsMap.get (agents r) id) ;;
     match found with
     | None => Js.throw (Js.ErrorObject ("Agent " ++ id ++ " not found"))
     | Some agent =>
         stopped <-
           (if negb (statusEqb (agentStatus agent) INACTIVE)
            then callStop stop id agent
            else Js.ret agent) ;;
         Js.modify (fun r =>
           withAgents r (JsMap.delete (agents r) id)
                        (JsMap.delete (agentConfigs r) id)) ;;;
         emitOwn heard (AgentUnregistered stopped)
     end)
    (fun error => Js.throw error).

Definition getAllAgents (r : Registry) : list IAgent :=
  JsMap.values (agents r).

(** *** Matching *)

Definition technicalRequirements (task : Task) : list TaskRequirement :=
  List.filter (fun req => isTechnical (reqType req)) (taskRequirements task).

Definition canAgentHandleTask (agent : IAgent) (task : Task) : bool :=
  let requiredCapabilities :=
    List.map reqDescription (technicalRequirements task) in
  List.forallb (fun capability =>
    List.existsb (fun agentCap =>
      includes (toLowerCase (capName agentCap)) (toLowerCase capability))
      (agentCapabilities agent))
    requiredCapabilities.

(** The role-task compatibility matrix. *)
Definition compatibility (role : AgentRole) : list string :=
  match role with
  | FRONTEND => ["frontend"; "ui"; "component"; "styling"]
  | BACKEND => ["backend"; "api"; "database"; "server"]
  | DEVOPS => ["deployment"; "infrastructure"; "ci/cd"; "monitoring"]
  | QA => ["testing"; "quality"; "validation"; "bug"]
  | FULL_STACK => ["frontend"; "backend"; "ui"; "api"]
  | ORCHESTRATOR => ["coordination"; "management"; "planning"]
  end.

Definition getRoleTaskBonus (role : AgentRole) (type : string) : Q :=
  let roleKeywords := compatibility role in
  let taskTypeLower := toLowerCase type in
  if List.existsb (fun keyword => includes taskTypeLower keyword) roleKeywords
  then 3 # 10 else 0.

Definition matchingCapabilities (agent : IAgent) (task : Task)
    : list AgentCapability :=
  List.filter (fun capability =>
    List.existsb (fun req =>
      includes (toLowerCase (reqDescription req))
               (toLowerCase (capName capability)))
      (taskRequirements task))
    (agentCapabilities agent).

Definition ofNat (n : nat) : Q := inject_Z (Z.of_nat n).

Definition calculateCapabilityScore (agent : IAgent) (task : Task) : Q :=
  let requiredCapabilities := List.length (technicalRequirements task) in
  if (requiredCapabilities =? 0)%nat then 2 # 10
  else
    Qmin (3 # 10)
         (ofNat (List.length (matchingCapabilities agent task))
            / ofNat requiredCapabilities * (3 # 10)).

Definition calculateLoadScore (agent : IAgent) : Q :=
  match agentStatus agent with
  | ACTIVE => 2 # 10
  | BUSY => 1 # 10
  | _ => 0
  end.

Definition calculatePerformanceScore (agent : IAgent) : Q :=
  match agentMetrics agent with
  | None => 1 # 10
  | Some metrics =>
      let successRate := successRate metrics in
      let qualityScore := codeQualityScore metrics / 100 in
      Qmin (2 # 10) ((successRate + qualityScore) / 2 * (2 # 10))
  end.

Definition positive (q : Q) : bool := negb (Qle_bool q 0).

Definition pushIf (b : bool) (line : string) (l : list string) : list string :=
  if b then l ++ [line] else l.

Definition calculateAgentTaskMatch (agent : IAgent) (task : Task)
    : AgentMatchResult :=
  let roleBonus :=
    getRoleTaskBonus (agentRole agent) (taskTypeValue (taskType task)) in
  let capabilityScore := calculateCapabilityScore agent task in
  let loadScore := calculateLoadScore agent in
  let performanceScore := calculatePerformanceScore agent in
  let total := 0 + roleBonus + capabilityScore + loadScore + performanceScore in
  let reasoning :=
    pushIf (positive performanceScore) "Agent has good performance history"
      (pushIf (positive loadScore) "Agent has low current load"
        (pushIf (positive capabilityScore) "Agent has relevant capabilities"
          (pushIf (positive roleBonus)
             ("Role " ++ roleValue (agentRole agent) ++ " matches task type "
                ++ taskTypeValue (taskType task)) []))) in
  {| matchAgent := agent; confidence := Qmin 1 total; reasoning := reasoning |}.

(** [matchResult.confidence > bestMatch.confidence] *)
Definition greater (a b : Q) : bool := negb (Qle_bool a b).

Definition availableAgents (r : Registry) (task : Task) : list IAgent :=
  List.filter (fun agent =>
    statusEqb (agentStatus agent) ACTIVE && canAgentHandleTask agent task)
    (getAllAgents r).

(** One turn of the selection loop. *)
Definition consider (task : Task) (bestMatch : option AgentMatchResult)
    (agent : IAgent) : option AgentMatchResult :=
  let matchResult := calculateAgentTaskMatch agent task in
  match bestMatch with
  | None => Some matchResult
  | Some best =>
      if greater (confidence matchResult) (confidence best)
      then Some matchResult else Some best
  end.

Definition findBestAgentForTask (r : Registry) (task : Task)
    : option AgentMatchResult :=
  let available := availableAgents r task in
  if (List.length available =? 0)%nat then None
  else List.fold_left (consider task) available None.

(** *** The capability signal as the specification words it

    "m is the number of technical requirements whose description
    case-insensitively substring-matches some capability name", the
    match being the one that defines the candidate set. *)
Definition requirementMatched (agent : IAgent) (req : TaskRequirement) : bool :=
  List.existsb (fun agentCap =>
    includes (toLowerCase (capName agentCap))
             (toLowerCase (reqDescription req)))
    (agentCapabilities agent).

(** The same count with the containment read the other way round. *)
Definition requirementMentions (agent : IAgent) (req : TaskRequirement) : bool :=
  List.existsb (fun agentCap =>
    includes (toLowerCase (reqDescription req))
             (toLowerCase (capName agentCap)))
    (agentCapabilities agent).

Definition specCoverage (matched : IAgent -> TaskRequirement -> bool)
    (agent : IAgent) (task : Task) : Q :=
  let n := List.length (technicalRequirements task) in
  let m := List.length (List.filter (matched agent) (technicalRequirements task)) in
  if (n =? 0)%nat then 2 # 10
  else Qmin (3 # 10) (ofNat m / ofNat n * (3 # 10)).

(** *** Counting, in the words of the amended claim

    None of this goes through the code: [Counts P l k] says that exactly
    [k] of the members of [l], each taken as often as it is listed,
    satisfy [P]. *)
Inductive Counts {A : Type} (P : A -> Prop) : list A -> nat -> Prop :=
| CountsNil : Counts P [] 0
| CountsYes (x : A) (l : list A) (k : nat) :
    P x -> Counts P l k -> Counts P (x :: l) (S k)
| CountsNo (x : A) (l : list A) (k : nat) :
    ~ P x -> Counts P l k -> Counts P (x :: l) k.

(** [sub] occurs somewhere in [s]. *)
Definition occursIn (sub s : string) : Prop :=
  exists before rest, s = before ++ sub ++ rest.

(** The name of the capability occurs, regardless of case, in the
    description of some requirement of the task. *)
Definition mentionedBy (task : Task) (capability : AgentCapability) : Prop :=
  exists req,
    In req (taskRequirements task) /\
    occursIn (toLowerCase (capName capability))
             (toLowerCase (reqDescription req)).

Definition technical (req : TaskRequirement) : Prop :=
  reqType req = Technical.

(** [min(0.3, (m/n) * 0.3)], or the flat 0.2 without technical
    requirements. *)
Definition amendedSignal (m n : nat) : Q :=
  match n with
  | O => 2 # 10
  | S _ =>
      Qmin (3 # 10)
           ((inject_Z (Z.of_nat m) / inject_Z (Z.of_nat n)) * (3 # 10))
  end.

(** The confidence an agent gets for a task. *)
Definition score (task : Task) (agent : IAgent) : Q :=
  confidence (calculateAgentTaskMatch agent task).

(** [cleanup]: every agent's [stop] failure is caught in [stopAllAgents],
    then the maps and the history are emptied. *)
Definition cleanup : M unit :=
  Js.tryCatch
    (Js.modify (fun r =>
       {| agents := JsMap.empty IAgent; agentConfigs := JsMap.empty AgentConfig;
          config := config r; assignmentHistory := [] |}))
    (fun error => Js.throw error).

(** *** Histories of the registry

    The constructor leaves both maps and the history empty; registrations,
    removals and clean-ups, failed or not, lead from one state to the
    next. *)
Definition create (cfg : AgentRegistryConfig) : Registry :=
  {| agents := JsMap.empty IAgent; agentConfigs := JsMap.empty AgentConfig;
     config := cfg; assignmentHistory := [] |}.

Inductive Call : Type :=
| Register (heard : Listeners) (agent : IAgent) (cfg : AgentConfig)
| Unregister (heard : Listeners) (stop : Stop) (id : string)
| Cleanup.

Definition perform (c : Call) : M unit :=
  match c with
  | Register heard agent cfg => registerAgent heard agent cfg
  | Unregister heard stop id => unregisterAgent heard stop id
  | Cleanup => cleanup
  end.

Definition after (calls : list Call) (r : Registry) : Registry :=
  List.fold_left (fun r c => snd (perform c r)) calls r.

End AgentRegistry.


(** ** The agent lifecycle ([BaseAgent]) *)

Module BaseAgent.
Import Types JsString.
Local Open Scope string_scope.
Local Open Scope js_scope.

(** What the agent announces on the event bus.  [PerformTaskCalled] is a
    ghost event: it marks the call of the subclass's [performTask] and has
    no counterpart on the real bus. *)
Inductive Event : Type :=
| AgentStatusChanged (previousStatus currentStatus : AgentStatus)
| TaskStarted (task : string)
| TaskCompleted (task : string) (result : TaskResult)
| TaskFailed (task : string) (error : option string)
| PerformTaskCalled (task : string).

(** The fields of the object that the lifecycle reads and writes. *)
Record Agent : Type := {
  id : string;
  name : string;
  role : AgentRole;
  capabilities : list AgentCapability;
  status : AgentStatus;
  workingDirectory : string;
  lastActivity : Z;
  metrics : AgentMetrics;
  currentTask : option Task;
  maxConcurrentTasks : Z
}.

(** The agent, the clock [Date.now()] reads, and the events emitted. *)
Record World : Type := {
  self : Agent;
  clock : Z;
  bus : list Event
}.

Definition M := Js.Eff World.

(** The abstract methods a concrete agent supplies.  [performTask] is an
    awaited body: it may take time, change the agent, return or throw. *)
Record Subclass : Type := {
  canHandleTask : Agent -> Task -> bool;
  performTask : Task -> Js.Eff (Agent * Z) TaskResult
}.

(** The constructor, at time [now]. *)
Definition construct (cfg : AgentConfig) (r : AgentRole) (now : Z) : Agent :=
  {| id := cfgId cfg;
     name := cfgName cfg;
     role := r;
     capabilities := cfgCapabilities cfg;
     status := INACTIVE;
     workingDirectory := cfgWorkingDirectory cfg;
     lastActivity := now;
     metrics := {| tasksCompleted := 0; averageTaskDuration := 0;
                   successRate := 0; codeQualityScore := 85;
                   collaborationScore := 0; lastActivityTime := now |};
     currentTask := None;
     maxConcurrentTasks :=
       if (cfgMaxConcurrentTasks cfg =? 0)%Z then 1 else cfgMaxConcurrentTasks cfg |}.

Definition onSelf (f : Agent -> Agent) : M unit :=
  Js.modify (fun w => {| self := f (self w); clock := clock w; bus := bus w |}).

Definition now : M Z := Js.gets clock.

(** [eventBus.emit] catches whatever its listeners throw. *)
Definition emit (e : Event) : M unit :=
  Js.modify (fun w => {| self := self w; clock := clock w; bus := bus w ++ [e] |}).

Definition withMetrics (a : Agent) (m : AgentMetrics) : Agent :=
  {| id := id a; name := name a; role := role a;
     capabilities := capabilities a; status := status a;
     workingDirectory := workingDirectory a; lastActivity := lastActivity a;
     metrics := m; currentTask := currentTask a;
     maxConcurrentTasks := maxConcurrentTasks a |}.

Definition touch (t : Z) (a : Agent) : Agent :=
  {| id := id a; name := name a; role := role a;
     capabilities := capabilities a; status := status a;
     workingDirectory := workingDirectory a; lastActivity := t;
     metrics := {| tasksCompleted := tasksCompleted (metrics a);
                   averageTaskDuration := averageTaskDuration (metrics a);
                   successRate := successRate (metrics a);
                   codeQualityScore := codeQualityScore (metrics a);
                   collaborationScore := collaborationScore (metrics a);
                   lastActivityTime := t |};
     currentTask := currentTask a;
     maxConcurrentTasks := maxConcurrentTasks a |}.

Definition updateLastActivity : M unit :=
  t <- now ;; onSelf (touch t).

Definition withStatus (s : AgentStatus) (a : Agent) : Agent :=
  {| id := id a; name := name a; role := role a;
     capabilities := capabilities a; status := s;
     workingDirectory := workingDirectory a; lastActivity := lastActivity a;
     metrics := metrics a; currentTask := currentTask a;
     maxConcurrentTasks := maxConcurrentTasks a |}.

Definition withCurrentTask (t : option Task) (a : Agent) : Agent :=
  {| id := id a; name := name a; role := role a;
     capabilities := capabilities a; status := status a;
     workingDirectory := workingDirectory a; lastActivity := lastActivity a;
     metrics := metrics a; currentTask := t;
     maxConcurrentTasks := maxConcurrentTasks a |}.

Definition updateStatus (s : AgentStatus) : M unit :=
  previousStatus <- Js.gets (fun w => status (self w)) ;;
  onSelf (withStatus s) ;;;
  updateLastActivity ;;;
  Js.when (negb (statusEqb previousStatus s))
          (emit (AgentStatusChanged previousStatus s)).

(** [updateMetrics].  [totalTasks] is at least 1 whenever [tasksCompleted]
    is not negative, so the division is by a positive number. *)
Definition updatedMetrics (m : AgentMetrics) (result : TaskResult) : AgentMetrics :=
  let completed :=
    if resSuccess result then (tasksCompleted m + 1)%Z else tasksCompleted m in
  let currentAvg := averageTaskDuration m in
  let totalTasks := (completed + (if resSuccess result then 0 else 1))%Z in
  let successfulTasks := completed in
  {| tasksCompleted := completed;
     averageTaskDuration :=
       (currentAvg * inject_Z (totalTasks - 1) + inject_Z (resDuration result))
         / inject_Z totalTasks;
     successRate :=
       if (totalTasks >? 0)%Z
       then inject_Z successfulTasks / inject_Z totalTasks else 0;
     codeQualityScore := codeQualityScore m;
     collaborationScore := collaborationScore m;
     lastActivityTime := lastActivityTime m |}.

Definition updateMetrics (result : TaskResult) : M unit :=
  onSelf (fun a => withMetrics a (updatedMetrics (metrics a) result)) ;;;
  updateLastActivity.

(** The awaited call of the subclass's body. *)
Definition callPerformTask (sub : Subclass) (task : Task) : M TaskResult :=
  fun w =>
    match performTask sub task (self w, clock w) with
    | (outcome, (a, t)) =>
        (outcome,
         {| self := a; clock := t;
            bus := bus w ++ [PerformTaskCalled (taskId task)] |})
    end.

Definition unsupportedMessage (agent : string) (task : Task) : string :=
  "Agent " ++ agent ++ " cannot handle task of type "
    ++ taskTypeValue (taskType task).

Definition timed (result : TaskResult) (duration completedAt : Z) : TaskResult :=
  {| resTaskId := resTaskId result; resSuccess := resSuccess result;
     resOutput := resOutput result; resError := resError result;
     resDuration := duration; resChangedFiles := resChangedFiles result;
     resCompletedAt := completedAt |}.

(** The [errorResult] the [catch] block builds. *)
Definition errorResultOf (task : Task) (error : Js.Thrown)
    (duration completedAt : Z) : TaskResult :=
  {| resTaskId := taskId task; resSuccess := false;
     resOutput := None; resError := Some (Js.errorText error);
     resDuration := duration; resChangedFiles := [];
     resCompletedAt := completedAt |}.

Definition executeTask (sub : Subclass) (task : Task) : M TaskResult :=
  startTime <- now ;;
  Js.tryCatch
    (updateStatus BUSY ;;;
     onSelf (withCurrentTask (Some task)) ;;;
     emit (TaskStarted (taskId task)) ;;;
     supported <- Js.gets (fun w => canHandleTask sub (self w) task) ;;
     if negb supported then
       me <- Js.gets (fun w => id (self w)) ;;
       Js.throw (Js.ErrorObject (unsupportedMessage me task))
     else
       result <- callPerformTask sub task ;;
       finished <- now ;;
       let duration := (finished - startTime)%Z in
       let result := timed result duration finished in
       updateMetrics result ;;;
       onSelf (withCurrentTask None) ;;;
       updateStatus ACTIVE ;;;
       emit (TaskCompleted (taskId task) result) ;;;
       Js.ret result)
    (fun error =>
       finished <- now ;;
       let duration := (finished - startTime)%Z in
       let errorResult := errorResultOf task error duration finished in
       updateMetrics errorResult ;;;
       onSelf (withCurrentTask None) ;;;
       updateStatus ACTIVE ;;;
       emit (TaskFailed (taskId task) (resError errorResult)) ;;;
       Js.ret errorResult).

(** *** Landmarks of one [executeTask] call

    [entered] is the agent as the guard and the body find it: Busy, with
    the task as its current one.  [settled] is the agent the call leaves
    behind when the body ended at time [t] in state [a] with [result]. *)
Definition entered (task : Task) (w : World) : Agent :=
  withCurrentTask (Some task) (touch (clock w) (withStatus BUSY (self w))).

Definition settled (a : Agent) (t : Z) (result : TaskResult) : Agent :=
  touch t (withStatus ACTIVE (withCurrentTask None
    (touch t (withMetrics a (updatedMetrics (metrics a) result))))).

(** What the guarded body of the [try] block yields: the subclass's body
    when the guard lets the task through, the guard's error otherwise. *)
Definition guardedBody (sub : Subclass) (task : Task) (w : World)
    : Js.Completion TaskResult * (Agent * Z) :=
  if canHandleTask sub (entered task w) task
  then performTask sub task (entered task w, clock w)
  else (Js.Throws (Js.ErrorObject (unsupportedMessage (id (self w)) task)),
        (entered task w, clock w)).

(** The result [executeTask] makes of an outcome that ended at [t]. *)
Definition resultOf (task : Task) (outcome : Js.Completion TaskResult)
    (started t : Z) : TaskResult :=
  match outcome with
  | Js.Normal r => timed r (t - started) t
  | Js.Throws e => errorResultOf task e (t - started) t
  end.

(** The events of one call, in order. *)
Definition eventsOf (sub : Subclass) (task : Task) (w : World)
    (outcome : Js.Completion TaskResult) (a : Agent) (result : TaskResult)
    : list Event :=
  (if statusEqb (status (self w)) BUSY then []
   else [AgentStatusChanged (status (self w)) BUSY])
  ++ [TaskStarted (taskId task)]
  ++ (if canHandleTask sub (entered task w) task
      then [PerformTaskCalled (taskId task)] else [])
  ++ (if statusEqb (status a) ACTIVE then []
      else [AgentStatusChanged (status a) ACTIVE])
  ++ [match outcome with
      | Js.Normal _ => TaskCompleted (taskId task) result
      | Js.Throws _ => TaskFailed (taskId task) (resError result)
      end].

(** A sequence of [executeTask] calls, one after the other. *)
Fixpoint executeAll (sub : Subclass) (tasks : list Task) : M (list TaskResult) :=
  match tasks with
  | [] => Js.ret []
  | task :: rest =>
      result <- executeTask sub task ;;
      results <- executeAll sub rest ;;
      Js.ret (result :: results)
  end.

(** *** The rolling metrics as the specification words them *)

Definition countSuccesses (results : list TaskResult) : nat :=
  List.length (List.filter resSuccess results).

(** "the number of tasks that completed successfully divided by the total
    number of tasks attempted (successes plus failures)" *)
Definition specSuccessRate (results : list TaskResult) : Q :=
  inject_Z (Z.of_nat (countSuccesses results))
    / inject_Z (Z.of_nat (List.length results)).

(** "the incremental weighted mean of the durations of all attempted
    tasks": each new duration enters with weight 1 against the [n] before. *)
Fixpoint incrementalMean (avg : Q) (n : Z) (durations : list Z) : Q :=
  match durations with
  | [] => avg
  | d :: rest =>
      incrementalMean ((avg * inject_Z n + inject_Z d) / inject_Z (n + 1))
                      (n + 1) rest
  end.

Definition specAverageDuration (results : list TaskResult) : Q :=
  incrementalMean 0 0 (List.map resDuration results).

(** *** [DevelopmentAgent.canHandleTask] ([src/agents/dev-agent.ts]) *)

Definition supportedTaskTypes : list TaskType :=
  [FEATURE; BUG_FIX; REFACTOR; CODE_REVIEW; DOCUMENTATION].

Definition taskTypeEqb (a b : TaskType) : bool :=
  String.eqb (taskTypeValue a) (taskTypeValue b).

Definition devCanHandleTask (a : Agent) (task : Task) : bool :=
  if negb (List.existsb (taskTypeEqb (taskType task)) supportedTaskTypes)
  then false
  else
    let requiredCapabilities :=
      List.map (fun req => toLowerCase (reqDescription req))
        (List.filter (fun req => isTechnical (reqType req))
                     (taskRequirements task)) in
    List.forallb (fun capability =>
      List.existsb (fun agentCap =>
        includes (toLowerCase (capName agentCap)) capability
        && (capLevel agentCap >=? 5)%Z)
        (capabilities a))
      requiredCapabilities.

End BaseAgent.


(** ** The worktree manager ([WorktreeManager], [src/git/repository.ts]) *)

Module WorktreeManager.
Import JsString.
Local Open Scope string_scope.
Local Open Scope Z_scope.
Local Open Scope js_scope.

Inductive WorktreeStatus : Type := Active | Inactive | Corrupted.

Record WorktreeInfo : Type := {
  wtId : string;
  wtPath : string;
  wtBranch : string;
  wtAgentId : string;
  wtStatus : WorktreeStatus;
  wtLastActivity : Z
}.

Record GitOperationResult : Type := {
  success : bool;
  output : option string;
  error : option string;
  duration : Z
}.

(** The collaborators outside the manager: the dynamic import of the git
    client, the git command and the file system.  [None] is a call that
    succeeds, [Some e] one that rejects with [e]; every call takes
    [latency] milliseconds. *)
Record Host : Type := {
  importSimpleGit : option Js.Thrown;
  gitWorktreeRemove : string -> option Js.Thrown;
  fsRm : string -> option Js.Thrown;
  latency : Z
}.

(** The commands sent out, in order. *)
Inductive Call : Type :=
| GitWorktreeRemoveForce (path : string)
| FsRmRecursive (path : string).

Inductive Event : Type :=
| WorktreeRemoved (agent path branch : string).

Record World : Type := {
  worktrees : JsMap.t WorktreeInfo;
  host : Host;
  directories : list string;
  clock : Z;
  calls : list Call;
  events : list Event
}.

Definition M := Js.Eff World.

Definition now : M Z := Js.gets clock.

Definition withWorktrees (f : JsMap.t WorktreeInfo -> JsMap.t WorktreeInfo) : M unit :=
  Js.modify (fun w =>
    {| worktrees := f (worktrees w); host := host w;
       directories := directories w; clock := clock w;
       calls := calls w; events := events w |}).

Definition emit (e : Event) : M unit :=
  Js.modify (fun w =>
    {| worktrees := worktrees w; host := host w;
       directories := directories w; clock := clock w;
       calls := calls w; events := events w ++ [e] |}).

Definition without (path : string) (dirs : list string) : list string :=
  List.filter (fun d => negb (String.eqb d path)) dirs.

(** An awaited call to a collaborator: it is recorded, takes its time, and
    on success the directory it names is gone. *)
Definition external (c : Call) (path : string) (outcome : Host -> option Js.Thrown)
    : M unit :=
  fun w =>
    let after dirs :=
      {| worktrees := worktrees w; host := host w; directories := dirs;
         clock := clock w + latency (host w);
         calls := calls w ++ [c]; events := events w |} in
    match outcome (host w) with
    | None => (Js.Normal tt, after (without path (directories w)))
    | Some e => (Js.Throws e, after (directories w))
    end.

Definition loadGitClient : M unit :=
  fun w => match importSimpleGit (host w) with
           | None => (Js.Normal tt, w)
           | Some e => (Js.Throws e, w)
           end.

Definition existsSync (path : string) : M bool :=
  Js.gets (fun w => List.existsb (String.eqb path) (directories w)).

Definition removeWorktreeDirectory (worktreePath : string) : M GitOperationResult :=
  Js.tryCatch
    (loadGitClient ;;;
     Js.tryCatch
       (external (GitWorktreeRemoveForce worktreePath) worktreePath
                 (fun h => gitWorktreeRemove h worktreePath))
       (fun gitError =>
          present <- existsSync worktreePath ;;
          Js.when present
            (external (FsRmRecursive worktreePath) worktreePath
                      (fun h => fsRm h worktreePath))) ;;;
     Js.ret {| success := true;
               output := Some ("Worktree removed from " ++ worktreePath);
               error := None; duration := 0 |})
    (fun error =>
       Js.ret {| success := false; output := None;
                 error := Some (Js.errorText error); duration := 0 |}).

Definition notFoundMessage (agentId : string) : string :=
  "No worktree found for agent " ++ agentId.

Definition withDuration (r : GitOperationResult) (d : Z) : GitOperationResult :=
  {| success := success r; output := output r; error := error r; duration := d |}.

Definition removeWorktreeForAgent (agentId : string) : M GitOperationResult :=
  startTime <- now ;;
  Js.tryCatch
    (worktree <- Js.gets (fun w => JsMap.get (worktrees w) agentId) ;;
     match worktree with
     | None =>
         t <- now ;;
         Js.ret {| success := false; output := None;
                   error := Some (notFoundMessage agentId);
                   duration := t - startTime |}
     | Some wt =>
         result <- removeWorktreeDirectory (wtPath wt) ;;
         Js.when (success result)
           (withWorktrees (fun m => JsMap.delete m agentId) ;;;
            emit (WorktreeRemoved agentId (wtPath wt) (wtBranch wt))) ;;;
         t <- now ;;
         Js.ret (withDuration result (t - startTime))
     end)
    (fun error =>
       t <- now ;;
       Js.ret {| success := false; output := None;
                 error := Some (Js.errorText error);
                 duration := t - startTime |}).

Definition staleThreshold : Z := 24 * 60 * 60 * 1000.

Definition markCorrupted (wt : WorktreeInfo) : WorktreeInfo :=
  {| wtId := wtId wt; wtPath := wtPath wt; wtBranch := wtBranch wt;
     wtAgentId := wtAgentId wt; wtStatus := Corrupted;
     wtLastActivity := wtLastActivity wt |}.

(** One turn of the loop over [this.worktrees.entries()]. *)
Definition cleanupEntry (started : Z) (entry : string * WorktreeInfo) : M unit :=
  let (agentId, worktree) := entry in
  let timeSinceLastActivity := started - wtLastActivity worktree in
  if timeSinceLastActivity >? staleThreshold then
    Js.tryCatch
      (removeWorktreeForAgent agentId ;;; Js.ret tt)
      (fun error =>
         withWorktrees (fun m => JsMap.set m agentId (markCorrupted worktree)))
  else Js.ret tt.

(** [cleanupStaleWorktrees].  The loop runs over the entries present when
    it starts: a turn deletes at most the entry it is visiting, so the live
    iterator of the [Map] visits exactly these. *)
Definition cleanupStaleWorktrees : M unit :=
  started <- now ;;
  entries <- Js.gets (fun w => JsMap.entries (worktrees w)) ;;
  Js.forOf entries (cleanupEntry started).

End WorktreeManager.

(** ** The conflict parser ([AutomaticConflictResolver]) *)

Module ConflictResolver.
Import JsString.
Local Open Scope string_scope.
Local Open Scope Z_scope.

(** A section while it is being read ([Partial<ConflictSection>]); the cast
    that pushes it keeps whatever fields are still [undefined]. *)
Record ConflictSection : Type := {
  startLine : option Z;
  endLine : option Z;
  ours : option string;
  theirs : option string;
  base : option string
}.

Inductive Severity : Type := Low | Medium | High.

Record ConflictInfo : Type := {
  file : string;
  sections : list ConflictSection;
  severity : Severity;
  autoResolvable : bool
}.

Record ConflictResolutionStrategy : Type := {
  strategyName : string;
  canResolve : ConflictInfo -> bool
}.

Record Scan : Type := {
  found : list ConflictSection;
  currentConflict : option ConflictSection;
  lineNumber : Z
}.

(** [x || ''] *)
Definition orEmpty (x : option string) : string :=
  match x with
  | Some s => s
  | None => ""
  end.

(** [!x] for a string that may be [undefined] *)
Definition absent (x : option string) : bool :=
  match x with
  | Some s => falsy s
  | None => true
  end.

Definition isSome {A} (x : option A) : bool :=
  match x with Some _ => true | None => false end.

Definition appendLine (x : option string) (line : string) : option string :=
  match x with
  | Some s => Some (s ++ line ++ String LF EmptyString)
  | None => None
  end.

Definition withOurs (c : ConflictSection) (o : option string) : ConflictSection :=
  {| startLine := startLine c; endLine := endLine c; ours := o;
     theirs := theirs c; base := base c |}.

Definition withTheirs (c : ConflictSection) (t : option string) : ConflictSection :=
  {| startLine := startLine c; endLine := endLine c; ours := ours c;
     theirs := t; base := base c |}.

Definition withEndLine (c : ConflictSection) (n : Z) : ConflictSection :=
  {| startLine := startLine c; endLine := Some n; ours := ours c;
     theirs := theirs c; base := base c |}.

(** The body of the loop over the lines. *)
Definition scanLine (st : Scan) (line : string) : Scan :=
  let n := lineNumber st + 1 in
  let keep cur := {| found := found st; currentConflict := cur; lineNumber := n |} in
  if startsWith line "<<<<<<<" then
    keep (Some {| startLine := Some n; endLine := None; ours := Some "";
                  theirs := None; base := None |})
  else if startsWith line "=======" && isSome (currentConflict st) then
    keep (option_map (fun c => withOurs c (Some (orEmpty (ours c))))
                     (currentConflict st))
  else if startsWith line ">>>>>>>" && isSome (currentConflict st) then
    match currentConflict st with
    | Some c => {| found := found st ++ [withEndLine c n];
                   currentConflict := None; lineNumber := n |}
    | None => keep None
    end
  else
    match currentConflict st with
    | Some c =>
        if isSome (ours c) && negb (startsWith line "=======") then
          if absent (theirs c)
          then keep (Some (withOurs c (appendLine (ours c) line)))
          else keep (Some (withTheirs c (appendLine (theirs c) line)))
        else if startsWith line "=======" then
          keep (Some (withTheirs c (Some "")))
        else keep (Some c)
    | None => keep None
    end.

Definition scanLines (lines : list string) : list ConflictSection :=
  found (List.fold_left scanLine lines
           {| found := []; currentConflict := None; lineNumber := 0 |}).

Definition len (s : string) : Z := Z.of_nat (String.length s).

Definition calculateSeverity (secs : list ConflictSection) (filePath : string)
    : Severity :=
  if Z.of_nat (List.length secs) >? 5 then High
  else if includes filePath "package.json" || includes filePath "config" then High
  else if List.existsb (fun s =>
            (len (orEmpty (ours s)) >? 1000) || (len (orEmpty (theirs s)) >? 1000))
          secs then High
  else if Z.of_nat (List.length secs) >? 2 then Medium
  else Low.

Definition isAutoResolvable (strategies : list ConflictResolutionStrategy)
    (secs : list ConflictSection) (filePath : string) : bool :=
  let conflict := {| file := filePath; sections := secs; severity := Medium;
                     autoResolvable := false |} in
  List.existsb (fun strategy => canResolve strategy conflict) strategies.

(** [parseConflictFile], from the content [readFile] resolved with. *)
Definition parseConflictFile (strategies : list ConflictResolutionStrategy)
    (filePath content : string) : ConflictInfo :=
  let secs := scanLines (splitLines content) in
  {| file := filePath;
     sections := secs;
     severity := calculateSeverity secs filePath;
     autoResolvable := isAutoResolvable strategies secs filePath |}.

(** *** Well-formed conflict files

    A file with [N] regions: some plain text, then [N] times a region (an
    opening marker line, the lines of our side, a separator line, the
    lines of their side, a closing marker line) followed by plain text. *)
Record Region : Type := {
  opening : string;
  oursLines : list string;
  separator : string;
  theirsLines : list string;
  closing : string;
  trailing : list string
}.

Definition plain (line : string) : bool :=
  negb (startsWith line "<<<<<<<") && negb (startsWith line "=======")
  && negb (startsWith line ">>>>>>>").

Definition wellFormed (r : Region) : bool :=
  startsWith (opening r) "<<<<<<<"
  && startsWith (separator r) "======="
  && startsWith (closing r) ">>>>>>>"
  && List.forallb plain (oursLines r)
  && List.forallb plain (theirsLines r)
  && List.forallb plain (trailing r).

Definition regionLines (r : Region) : list string :=
  opening r :: oursLines r ++ separator r :: theirsLines r
    ++ closing r :: trailing r.

Definition fileLines (leading : list string) (regions : list Region)
    : list string :=
  leading ++ List.concat (List.map regionLines regions).

(** The text of some lines, each with its line end. *)
Fixpoint joinLines (lines : list string) : string :=
  match lines with
  | [] => ""
  | line :: rest => line ++ String LF EmptyString ++ joinLines rest
  end.

Definition count (lines : list string) : Z := Z.of_nat (List.length lines).

(** Line numbers of the markers of a region that starts after [n] lines. *)
Definition openingLine (n : Z) (r : Region) : Z := n + 1.
Definition closingLine (n : Z) (r : Region) : Z :=
  n + 1 + count (oursLines r) + 1 + count (theirsLines r) + 1.

(** The sections the specification describes: our side and their side
    apart. *)
Fixpoint specSections (n : Z) (regions : list Region) : list ConflictSection :=
  match regions with
  | [] => []
  | r :: rest =>
      {| startLine := Some (openingLine n r);
         endLine := Some (closingLine n r);
         ours := Some (joinLines (oursLines r));
         theirs := Some (joinLines (theirsLines r));
         base := None |}
      :: specSections (n + count (regionLines r)) rest
  end.

(** The sections the scan produces: both sides in [ours], no [theirs]. *)
Fixpoint scannedSections (n : Z) (regions : list Region) : list ConflictSection :=
  match regions with
  | [] => []
  | r :: rest =>
      {| startLine := Some (openingLine n r);
         endLine := Some (closingLine n r);
         ours := Some (joinLines (oursLines r ++ theirsLines r));
         theirs := None;
         base := None |}
      :: scannedSections (n + count (regionLines r)) rest
  end.

End ConflictResolver.


(** ** Concrete inputs *)

Module Examples.
Import Types JsString.
Local Open Scope string_scope.

Definition capability (n : string) (level : Z) : AgentCapability :=
  {| capName := n; capLevel := level; capDescription := "" |}.

(** The capabilities [DevelopmentAgent] gives itself, by role. *)
Definition defaultCapabilities : list AgentCapability :=
  [capability "git" 8; capability "coding" 7;
   capability "file-management" 9; capability "debugging" 6].

Definition frontendCapabilities : list AgentCapability :=
  defaultCapabilities ++
  [capability "javascript" 8; capability "react" 7;
   capability "css" 8; capability "html" 9].

Definition backendCapabilities : list AgentCapability :=
  defaultCapabilities ++
  [capability "nodejs" 8; capability "databases" 7;
   capability "apis" 8; capability "server-architecture" 6].

Definition qaCapabilities : list AgentCapability :=
  defaultCapabilities ++
  [capability "testing" 9; capability "test-automation" 7;
   capability "quality-metrics" 8].

(** An Active agent without a [metrics] object. *)
Definition activeAgent (id : string) (r : AgentRole)
    (caps : list AgentCapability) : IAgent :=
  {| agentId := id; agentName := id; agentRole := r;
     agentCapabilities := caps; agentStatus := ACTIVE;
     agentWorkingDirectory := "."; agentLastActivity := 0;
     agentMetrics := None |}.

Definition frontendAgent : IAgent :=
  activeAgent "frontend-001" FRONTEND frontendCapabilities.
Definition backendAgent : IAgent :=
  activeAgent "backend-001" BACKEND backendCapabilities.
Definition qaAgent : IAgent :=
  activeAgent "qa-001" QA qaCapabilities.

Definition requirement (d : string) (k : RequirementType) : TaskRequirement :=
  {| reqId := "req"; reqDescription := d; reqType := k; reqSatisfied := false |}.

Definition task (id : string) (type : TaskType) (duration : Z)
    (reqs : list TaskRequirement) : Task :=
  {| taskId := id; taskType := type; taskTitle := id; taskDescription := "";
     taskRequirements := reqs; taskDependencies := [];
     estimatedDuration := duration; taskFiles := [] |}.

(** Scenario A: a "feature" task requiring "javascript". *)
Definition featureTask : Task :=
  task "task-1" FEATURE 60 [requirement "javascript" Technical].

Definition registryConfig (max : Z) : AgentRegistry.AgentRegistryConfig :=
  {| AgentRegistry.maxAgents := max;
     AgentRegistry.healthCheckInterval := 30000;
     AgentRegistry.autoRestart := true;
     AgentRegistry.loadBalancing := AgentRegistry.CapabilityBased |}.

Definition agentConfig (a : IAgent) : AgentConfig :=
  {| cfgId := agentId a; cfgName := agentName a;
     cfgRole := roleValue (agentRole a);
     cfgWorkingDirectory := agentWorkingDirectory a;
     cfgCapabilities := agentCapabilities a;
     cfgMaxConcurrentTasks := 2; cfgHealthCheckInterval := 30000 |}.

Definition registryOf (max : Z) (l : list IAgent) : AgentRegistry.Registry :=
  {| AgentRegistry.agents := List.map (fun a => (agentId a, a)) l;
     AgentRegistry.agentConfigs := List.map (fun a => (agentId a, agentConfig a)) l;
     AgentRegistry.config := registryConfig max;
     AgentRegistry.assignmentHistory := [] |}.

Definition scenarioA : AgentRegistry.Registry :=
  registryOf 10 [frontendAgent; backendAgent; qaAgent].

(** The same agent as [BaseAgent]'s constructor leaves it once started:
    with a metrics object that records nothing yet. *)
Definition withConstructorMetrics (a : IAgent) : IAgent :=
  {| agentId := agentId a; agentName := agentName a; agentRole := agentRole a;
     agentCapabilities := agentCapabilities a; agentStatus := agentStatus a;
     agentWorkingDirectory := agentWorkingDirectory a;
     agentLastActivity := agentLastActivity a;
     agentMetrics :=
       Some {| tasksCompleted := 0; averageTaskDuration := 0;
               successRate := 0; codeQualityScore := 85;
               collaborationScore := 0; lastActivityTime := 0 |} |}.

Definition scenarioAStarted : AgentRegistry.Registry :=
  registryOf 10 (List.map withConstructorMetrics
                          [frontendAgent; backendAgent; qaAgent]).

(** Two capabilities that each occur in one requirement's description. *)
Definition polyglot : IAgent :=
  activeAgent "agent-7" FULL_STACK [capability "java" 8; capability "script" 8].

Definition twoRequirements : Task :=
  task "task-2" FEATURE 60
       [requirement "javascript" Technical; requirement "python" Technical].

(** A [DevelopmentAgent] whose work is scripted: a task takes its estimated
    duration, and a bug fix comes back as a failed result (the agent's own
    [catch] returns one instead of throwing). *)
Definition scriptedBody (t : Task) : Js.Eff (BaseAgent.Agent * Z) TaskResult :=
  fun s =>
    let finished := (snd s + estimatedDuration t)%Z in
    (Js.Normal
       {| resTaskId := taskId t;
          resSuccess := negb (BaseAgent.taskTypeEqb (taskType t) BUG_FIX);
          resOutput := None;
          resError := if BaseAgent.taskTypeEqb (taskType t) BUG_FIX
                      then Some "commit failed" else None;
          resDuration := estimatedDuration t;
          resChangedFiles := []; resCompletedAt := finished |},
     (fst s, finished)).

Definition scriptedAgent : BaseAgent.Subclass :=
  {| BaseAgent.canHandleTask := BaseAgent.devCanHandleTask;
     BaseAgent.performTask := scriptedBody |}.

(** A body that throws after five milliseconds. *)
Definition throwingBody (t : Task) : Js.Eff (BaseAgent.Agent * Z) TaskResult :=
  fun s => (Js.Throws (Js.ErrorObject "disk full"), (fst s, (snd s + 5)%Z)).

Definition throwingAgent : BaseAgent.Subclass :=
  {| BaseAgent.canHandleTask := BaseAgent.devCanHandleTask;
     BaseAgent.performTask := throwingBody |}.

Definition freshAgent (s : AgentStatus) : BaseAgent.Agent :=
  BaseAgent.withStatus s
    (BaseAgent.construct (agentConfig frontendAgent) FRONTEND 1000).

Definition agentWorld (s : AgentStatus) : BaseAgent.World :=
  {| BaseAgent.self := freshAgent s; BaseAgent.clock := 1000;
     BaseAgent.bus := [] |}.

(** One success followed by two failures. *)
Definition threeTasks : list Task :=
  [task "t1" FEATURE 10 []; task "t2" BUG_FIX 20 []; task "t3" BUG_FIX 30 []].

(** A task type [DevelopmentAgent] does not support. *)
Definition testTask : Task := task "t9" TEST 10 [].

(** A worktree idle for twenty-five hours whose directory cannot be
    removed: the git command fails and so does the recursive delete. *)
Definition hour : Z := 60 * 60 * 1000.

Definition staleWorktree : WorktreeManager.WorktreeInfo :=
  {| WorktreeManager.wtId := "a1";
     WorktreeManager.wtPath := "/repo/worktrees/agent-a1";
     WorktreeManager.wtBranch := "agent-a1-1";
     WorktreeManager.wtAgentId := "a1";
     WorktreeManager.wtStatus := WorktreeManager.Active;
     WorktreeManager.wtLastActivity := 0 |}.

Definition stubbornHost : WorktreeManager.Host :=
  {| WorktreeManager.importSimpleGit := None;
     WorktreeManager.gitWorktreeRemove :=
       fun _ => Some (Js.ErrorObject "fatal: not a working tree");
     WorktreeManager.fsRm :=
       fun _ => Some (Js.ErrorObject "EACCES: permission denied");
     WorktreeManager.latency := 3 |}.

Definition stubbornWorld : WorktreeManager.World :=
  {| WorktreeManager.worktrees := [("a1", staleWorktree)];
     WorktreeManager.host := stubbornHost;
     WorktreeManager.directories := ["/repo/worktrees/agent-a1"];
     WorktreeManager.clock := 25 * hour;
     WorktreeManager.calls := [];
     WorktreeManager.events := [] |}.

(** A conflict file with one region, as text and as a layout. *)
Definition oneRegionLayout : ConflictResolver.Region :=
  {| ConflictResolver.opening := "<<<<<<< HEAD";
     ConflictResolver.oursLines := ["a"];
     ConflictResolver.separator := "=======";
     ConflictResolver.theirsLines := ["b"];
     ConflictResolver.closing := ">>>>>>> feature";
     ConflictResolver.trailing := [] |}.

Definition nl : string := String LF EmptyString.

Definition oneRegion : string :=
  "<<<<<<< HEAD" ++ nl ++ "a" ++ nl ++ "=======" ++ nl ++ "b" ++ nl
    ++ ">>>>>>> feature".

End Examples.


(** ** The registry: queries and task assignment *)

Module Assignment.
Import Types JsString AgentRegistry.
Local Open Scope string_scope.
Local Open Scope js_scope.

Definition getAgent (r : Registry) (id : string) : option IAgent :=
  JsMap.get (agents r) id.

Definition roleEqb (a b : AgentRole) : bool :=
  String.eqb (roleValue a) (roleValue b).

Definition getAgentsByRole (r : Registry) (role : AgentRole) : list IAgent :=
  List.filter (fun agent => roleEqb (agentRole agent) role) (getAllAgents r).

Definition getAgentsByStatus (r : Registry) (s : AgentStatus) : list IAgent :=
  List.filter (fun agent => statusEqb (agentStatus agent) s) (getAllAgents r).

Definition getActiveAgents (r : Registry) : list IAgent :=
  getAgentsByStatus r ACTIVE.

(** The string value of each status, as template literals print it. *)
Definition statusValue (s : AgentStatus) : string :=
  match s with
  | INACTIVE => "inactive"
  | ACTIVE => "active"
  | BUSY => "busy"
  | ERROR => "error"
  | STARTING => "starting"
  | STOPPING => "stopping"
  end.

(** The registry with the clock [new Date()] reads and the
    [task:assigned] notifications sent. *)
Record World : Type := {
  registry : Registry;
  clock : Z;
  assigned : list TaskAssignment
}.

Definition M := Js.Eff World.

Definition now : M Z := Js.gets clock.

(** A [Date] holds whole milliseconds: the constructor drops the
    fraction. *)
Definition timeClip (q : Q) : Z := Z.quot (Qnum q) (Zpos (Qden q)).

Definition notFoundMessage (id : string) : string :=
  "Agent " ++ id ++ " not found".

Definition notActiveMessage (id : string) (s : AgentStatus) : string :=
  "Agent " ++ id ++ " is not active (status: " ++ statusValue s ++ ")".

Definition noSuitableAgent : string := "No suitable agent found for task".

(** Reading [agent.metrics.averageTaskDuration] off an agent that has no
    [metrics] is a [TypeError]. *)
Definition noMetrics : Js.Thrown :=
  Js.ErrorObject
    "Cannot read properties of undefined (reading 'averageTaskDuration')".

Definition calculateEstimatedCompletion (task : Task) (agent : IAgent) : M Z :=
  let baseEstimate :=
    if (estimatedDuration task =? 0)%Z then 3600000%Z
    else estimatedDuration task in
  match agentMetrics agent with
  | None => Js.throw noMetrics
  | Some metrics =>
      let agentModifier :=
        if positive (averageTaskDuration metrics)
        then averageTaskDuration metrics / inject_Z baseEstimate
        else 1 in
      let adjustedEstimate := inject_Z baseEstimate * agentModifier in
      t <- now ;;
      Js.ret (timeClip (inject_Z t + adjustedEstimate))
  end.

Definition calculateAssignmentConfidence (task : Task) (agent : IAgent) : Q :=
  confidence (calculateAgentTaskMatch agent task).

(** [if (agentId)]: an omitted id and the empty string are both falsy. *)
Definition given (agentId : option string) : bool :=
  match agentId with
  | Some id => negb (falsy id)
  | None => false
  end.

Definition pushAssignment (a : TaskAssignment) : M unit :=
  Js.modify (fun w =>
    {| registry :=
         {| agents := agents (registry w);
            agentConfigs := agentConfigs (registry w);
            config := config (registry w);
            assignmentHistory := assignmentHistory (registry w) ++ [a] |};
       clock := clock w;
       assigned := assigned w |}).

Definition emitAssigned (a : TaskAssignment) : M unit :=
  Js.modify (fun w =>
    {| registry := registry w; clock := clock w;
       assigned := assigned w ++ [a] |}).

Definition targetAgent (task : Task) (agentId : option string) : M IAgent :=
  if given agentId then
    let id := match agentId with Some id => id | None => "" end in
    found <- Js.gets (fun w => getAgent (registry w) id) ;;
    match found with
    | None => Js.throw (Js.ErrorObject (notFoundMessage id))
    | Some agent =>
        if negb (statusEqb (agentStatus agent) ACTIVE) then
          Js.throw (Js.ErrorObject (notActiveMessage id (agentStatus agent)))
        else Js.ret agent
    end
  else
    matchResult <- Js.gets (fun w => findBestAgentForTask (registry w) task) ;;
    match matchResult with
    | None => Js.throw (Js.ErrorObject noSuitableAgent)
    | Some m => Js.ret (matchAgent m)
    end.

Definition assignTaskToAgent (task : Task) (agentId : option string)
    : M TaskAssignment :=
  Js.tryCatch
    (target <- targetAgent task agentId ;;
     assignedAt <- now ;;
     estimatedCompletion <- calculateEstimatedCompletion task target ;;
     let assignment :=
       {| asgTaskId := taskId task;
          asgAgentId := Types.agentId target;
          asgAssignedAt := assignedAt;
          asgEstimatedCompletion := inject_Z estimatedCompletion;
          asgConfidence :=
            if given agentId then 1
            else calculateAssignmentConfidence task target |} in
     pushAssignment assignment ;;;
     emitAssigned assignment ;;;
     Js.ret assignment)
    (fun error => Js.throw error).

(** A configuration that [validateAgentConfig] lets through. *)
Definition validConfig (cfg : AgentConfig) : bool :=
  negb (missing (cfgId cfg))
  && negb (missing (cfgName cfg))
  && stringIn (cfgRole cfg) roleValues
  && negb (missing (cfgWorkingDirectory cfg))
  && negb (cfgMaxConcurrentTasks cfg <? 1)%Z.

(** What [metrics &&] and the scores take for granted: rates and scores
    that are not negative. *)
Definition metricsNonNegative (a : IAgent) : Prop :=
  match agentMetrics a with
  | None => True
  | Some m => (0 <= successRate m)%Q /\ (0 <= codeQualityScore m)%Q
  end.

End Assignment.

(** ** The agent: lifecycle, capabilities and health figures ([BaseAgent]) *)

Module AgentLifecycle.
Import Types JsString BaseAgent.
Local Open Scope string_scope.
Local Open Scope js_scope.

(** *** Capabilities *)

Definition hasCapability (caps : list AgentCapability) (capabilityName : string)
    : bool :=
  List.existsb (fun cap => String.eqb (capName cap) capabilityName) caps.

Definition getCapabilityLevel (caps : list AgentCapability)
    (capabilityName : string) : Z :=
  match List.find (fun cap => String.eqb (capName cap) capabilityName) caps with
  | Some capability => capLevel capability
  | None => 0%Z
  end.

(** [capabilities[existingIndex] = capability] at the first index whose
    name matches, [push] when there is none. *)
Fixpoint addCapability (caps : list AgentCapability) (capability : AgentCapability)
    : list AgentCapability :=
  match caps with
  | [] => [capability]
  | cap :: rest =>
      if String.eqb (capName cap) (capName capability) then capability :: rest
      else cap :: addCapability rest capability
  end.

Definition removeCapability (caps : list AgentCapability)
    (capabilityName : string) : list AgentCapability :=
  List.filter (fun cap => negb (String.eqb (capName cap) capabilityName)) caps.

(** *** Health figures *)

(** [calculateErrorRate] *)
Definition calculateErrorRate (m : AgentMetrics) : Q :=
  let totalTasks := tasksCompleted m in
  if (totalTasks =? 0)%Z then 0
  else Qmax 0 (1 - successRate m).

(** [updateMetrics] over a series of results, first to last. *)
Definition recordAll (m : AgentMetrics) (results : list TaskResult)
    : AgentMetrics :=
  List.fold_left updatedMetrics results m.

(** *** Start, stop, restart

    The agent with what the lifecycle adds to it: the handle of its health
    timer, the timers that are still running, the time it was started, and
    the lifecycle events announced.  Status changes go to the bus of the
    agent's own world. *)
Inductive Announcement : Type :=
| AgentStarted (role : AgentRole) (capabilities : list string)
| AgentStopped (role : AgentRole) (uptime : Z)
| TaskCancelled (task : string) (reason : string).

Record World : Type := {
  base : BaseAgent.World;
  healthCheckInterval : option nat;
  runningTimers : list nat;
  nextTimer : nat;
  startTime : option Z;
  announced : list Announcement
}.

Definition M := Js.Eff World.

(** The subclass's own set-up and tear-down: awaited bodies that may take
    time, change the agent, return or throw. *)
Record Hooks : Type := {
  initialize : Js.Eff (Agent * Z) unit;
  cleanup : Js.Eff (Agent * Z) unit
}.

Definition onBase (f : BaseAgent.World -> BaseAgent.World) (w : World) : World :=
  {| base := f (base w); healthCheckInterval := healthCheckInterval w;
     runningTimers := runningTimers w; nextTimer := nextTimer w;
     startTime := startTime w; announced := announced w |}.

(** A method of [BaseAgent] run on the agent's own world. *)
Definition lift {A} (c : BaseAgent.M A) : M A :=
  fun w => let (outcome, b) := c (base w) in (outcome, onBase (fun _ => b) w).

(** An awaited hook. *)
Definition callHook (hook : Js.Eff (Agent * Z) unit) : M unit :=
  fun w =>
    match hook (self (base w), BaseAgent.clock (base w)) with
    | (outcome, (a, t)) =>
        (outcome,
         onBase (fun b => {| self := a; BaseAgent.clock := t; bus := bus b |}) w)
    end.

Definition announce (e : Announcement) : M unit :=
  Js.modify (fun w =>
    {| base := base w; healthCheckInterval := healthCheckInterval w;
       runningTimers := runningTimers w; nextTimer := nextTimer w;
       startTime := startTime w; announced := announced w ++ [e] |}).

Definition setStartTime : M unit :=
  Js.modify (fun w =>
    {| base := base w; healthCheckInterval := healthCheckInterval w;
       runningTimers := runningTimers w; nextTimer := nextTimer w;
       startTime := Some (BaseAgent.clock (base w));
       announced := announced w |}).

(** [this.healthCheckInterval = setInterval(...)]: a new timer runs and
    its handle replaces whatever handle was stored. *)
Definition startHealthMonitoring : M unit :=
  Js.modify (fun w =>
    {| base := base w; healthCheckInterval := Some (nextTimer w);
       runningTimers := runningTimers w ++ [nextTimer w];
       nextTimer := S (nextTimer w);
       startTime := startTime w; announced := announced w |}).

Definition stopHealthMonitoring : M unit :=
  Js.modify (fun w =>
    match healthCheckInterval w with
    | Some handle =>
        {| base := base w; healthCheckInterval := None;
           runningTimers :=
             List.filter (fun t => negb (Nat.eqb t handle)) (runningTimers w);
           nextTimer := nextTimer w;
           startTime := startTime w; announced := announced w |}
    | None => w
    end).

Definition getUptime : M Z :=
  Js.gets (fun w =>
    match startTime w with
    | Some started => (BaseAgent.clock (base w) - started)%Z
    | None => 0%Z
    end).

Definition cancelCurrentTask : M unit :=
  current <- Js.gets (fun w => currentTask (self (base w))) ;;
  match current with
  | Some task =>
      announce (TaskCancelled (taskId task) "Agent shutdown") ;;;
      lift (onSelf (withCurrentTask None))
  | None => Js.ret tt
  end.

Definition start (hooks : Hooks) : M unit :=
  Js.tryCatch
    (setStartTime ;;;
     lift (updateStatus STARTING) ;;;
     callHook (initialize hooks) ;;;
     startHealthMonitoring ;;;
     lift (updateStatus ACTIVE) ;;;
     agent <- Js.gets (fun w => self (base w)) ;;
     announce (AgentStarted (role agent) (List.map capName (capabilities agent))))
    (fun error =>
       lift (updateStatus ERROR) ;;;
       Js.throw error).

Definition stop (hooks : Hooks) : M unit :=
  Js.tryCatch
    (lift (updateStatus STOPPING) ;;;
     stopHealthMonitoring ;;;
     current <- Js.gets (fun w => currentTask (self (base w))) ;;
     (match current with
      | Some _ => cancelCurrentTask
      | None => Js.ret tt
      end) ;;;
     callHook (cleanup hooks) ;;;
     lift (updateStatus INACTIVE) ;;;
     agent <- Js.gets (fun w => self (base w)) ;;
     uptime <- getUptime ;;
     announce (AgentStopped (role agent) uptime))
    (fun error => Js.throw error).

Definition restart (hooks : Hooks) : M unit :=
  stop hooks ;;; start hooks.

(** The registry's view of a [BaseAgent]. *)
Definition asIAgent (a : Agent) : IAgent :=
  {| agentId := id a; agentName := name a; agentRole := role a;
     agentCapabilities := capabilities a; agentStatus := status a;
     agentWorkingDirectory := workingDirectory a;
     agentLastActivity := lastActivity a;
     agentMetrics := Some (metrics a) |}.

(** Hooks that always return. *)
Definition reliable (hook : Js.Eff (Agent * Z) unit) : Prop :=
  forall s, exists s', hook s = (Js.Normal tt, s').

End AgentLifecycle.

(** ** More concrete inputs *)

Module MoreExamples.
Import Types JsString.
Local Open Scope string_scope.

(** Hooks that take two milliseconds each and leave the agent alone. *)
Definition quietHook : Js.Eff (BaseAgent.Agent * Z) unit :=
  fun s => (Js.Normal tt, (fst s, (snd s + 2)%Z)).

Definition quietHooks : AgentLifecycle.Hooks :=
  {| AgentLifecycle.initialize := quietHook;
     AgentLifecycle.cleanup := quietHook |}.

(** A tear-down that fails: the worktree cannot be removed. *)
Definition failingCleanup : AgentLifecycle.Hooks :=
  {| AgentLifecycle.initialize := quietHook;
     AgentLifecycle.cleanup :=
       fun s => (Js.Throws (Js.ErrorObject "worktree busy"), s) |}.

(** A started agent in the middle of a task. *)
Definition busyWorld : AgentLifecycle.World :=
  {| AgentLifecycle.base :=
       {| BaseAgent.self :=
            BaseAgent.withCurrentTask (Some Examples.testTask)
              (Examples.freshAgent BUSY);
          BaseAgent.clock := 9000;
          BaseAgent.bus := [] |};
     AgentLifecycle.healthCheckInterval := Some 0%nat;
     AgentLifecycle.runningTimers := [0%nat];
     AgentLifecycle.nextTimer := 1%nat;
     AgentLifecycle.startTime := Some 1000%Z;
     AgentLifecycle.announced := [] |}.

(** A constructed agent that was never started. *)
Definition newWorld : AgentLifecycle.World :=
  {| AgentLifecycle.base := Examples.agentWorld INACTIVE;
     AgentLifecycle.healthCheckInterval := None;
     AgentLifecycle.runningTimers := [];
     AgentLifecycle.nextTimer := 0%nat;
     AgentLifecycle.startTime := None;
     AgentLifecycle.announced := [] |}.

(** The result of a task that went well. *)
Definition done (id : string) (duration completedAt : Z) : TaskResult :=
  {| resTaskId := id; resSuccess := true; resOutput := None;
     resError := None; resDuration := duration; resChangedFiles := [];
     resCompletedAt := completedAt |}.

End MoreExamples.

(** ** The worktree manager: activity, discovery and start-up *)

Module WorktreeUpkeep.
Import JsString WorktreeManager.
Local Open Scope string_scope.
Local Open Scope Z_scope.
Local Open Scope js_scope.

Definition withLastActivity (wt : WorktreeInfo) (t : Z) : WorktreeInfo :=
  {| wtId := wtId wt; wtPath := wtPath wt; wtBranch := wtBranch wt;
     wtAgentId := wtAgentId wt; wtStatus := wtStatus wt;
     wtLastActivity := t |}.

(** [updateWorktreeActivity] *)
Definition updateWorktreeActivity (agentId : string) : M unit :=
  worktree <- Js.gets (fun w => JsMap.get (worktrees w) agentId) ;;
  match worktree with
  | Some wt =>
      t <- now ;;
      withWorktrees (fun m => JsMap.set m agentId (withLastActivity wt t))
  | None => Js.ret tt
  end.

(** [getAllWorktrees], [getWorktreeStats] *)
Definition getAllWorktrees (w : World) : list WorktreeInfo :=
  JsMap.values (worktrees w).

Definition statusIs (s : WorktreeStatus) (wt : WorktreeInfo) : bool :=
  match s, wtStatus wt with
  | Active, Active | Inactive, Inactive | Corrupted, Corrupted => true
  | _, _ => false
  end.

Record WorktreeStats : Type := {
  total : Z;
  active : Z;
  inactive : Z;
  corrupted : Z
}.

Definition getWorktreeStats (w : World) : WorktreeStats :=
  let all := getAllWorktrees w in
  let count s := Z.of_nat (List.length (List.filter (statusIs s) all)) in
  {| total := Z.of_nat (List.length all);
     active := count Active;
     inactive := count Inactive;
     corrupted := count Corrupted |}.

(** [s.substring(n)] *)
Fixpoint substring (n : nat) (s : string) : string :=
  match n, s with
  | O, _ => s
  | S n', String _ s' => substring n' s'
  | S _, EmptyString => EmptyString
  end.

(** [path.sep] of a POSIX host. *)
Definition sep : ascii := "/"%char.

(** [s.split(path.sep)]: never empty. *)
Fixpoint splitPath (s : string) : list string :=
  match s with
  | EmptyString => [EmptyString]
  | String c s' =>
      if Ascii.eqb c sep then EmptyString :: splitPath s'
      else match splitPath s' with
           | [] => [String c EmptyString]
           | part :: parts => String c part :: parts
           end
  end.

(** [pathParts[pathParts.length - 1]] *)
Definition dirNameOf (worktreePath : string) : string :=
  List.last (splitPath worktreePath) EmptyString.

(** [currentWorktree] between two lines of the listing: [{}], or the
    object literal the [worktree] branch builds, whose [id] and [agentId]
    are the same string, whose status is ['active'] and whose [branch] is
    still unset (it is assigned and used within one turn). *)
Inductive Current : Type :=
| Blank
| Seeded (agentId path : string) (lastActivity : Z).

Definition discovered (agentId path branch : string) (lastActivity : Z)
    : WorktreeInfo :=
  {| wtId := agentId; wtPath := path; wtBranch := branch;
     wtAgentId := agentId; wtStatus := Active;
     wtLastActivity := lastActivity |}.

(** One turn of the loop over the lines of the listing. *)
Definition discoverLine (today : Z)
    (state : JsMap.t WorktreeInfo * Current) (line : string)
    : JsMap.t WorktreeInfo * Current :=
  let (m, current) := state in
  if startsWith line "worktree " then
    let worktreePath := substring 9 line in
    let dirName := dirNameOf worktreePath in
    if startsWith dirName "agent-"
    then (m, Seeded (substring 6 dirName) worktreePath today)
    else (m, current)
  else
    match current with
    | Seeded agentId path lastActivity =>
        if startsWith line "branch " && negb (falsy agentId) then
          let branch := substring 7 line in
          (if negb (falsy agentId) && negb (falsy path) && negb (falsy branch)
           then JsMap.set m agentId (discovered agentId path branch lastActivity)
           else m,
           Blank)
        else (m, current)
    | Blank => (m, current)
    end.

Definition discoverLines (today : Z) (text : string) (m : JsMap.t WorktreeInfo)
    : JsMap.t WorktreeInfo :=
  fst (List.fold_left (discoverLine today) (splitLines text) (m, Blank)).

(** What [git worktree list --porcelain] answers. *)
Inductive Listing : Type :=
| Prints (text : string)
| Rejects (e : Js.Thrown).

Definition gitWorktreeList (listing : Listing) : M string :=
  fun w =>
    let later :=
      {| worktrees := worktrees w; host := host w;
         directories := directories w;
         clock := clock w + latency (host w);
         calls := calls w; events := events w |} in
    match listing with
    | Prints text => (Js.Normal text, later)
    | Rejects e => (Js.Throws e, later)
    end.

(** [discoverExistingWorktrees]; the loop has no [await], so every
    [new Date()] in it reads the same time. *)
Definition discoverExistingWorktrees (listing : Listing) : M unit :=
  Js.tryCatch
    (loadGitClient ;;;
     worktreeList <- gitWorktreeList listing ;;
     today <- now ;;
     withWorktrees (discoverLines today worktreeList))
    (fun error => Js.ret tt).

(** [initialize] *)
Definition initialize (listing : Listing) : M unit :=
  Js.tryCatch
    (discoverExistingWorktrees listing ;;; cleanupStaleWorktrees)
    (fun error => Js.throw error).

(** What a record found by discovery looks like. *)
Definition Discovered (today : Z) (agentId : string) (wt : WorktreeInfo) : Prop :=
  wtId wt = agentId /\ wtAgentId wt = agentId /\ agentId <> EmptyString /\
  wtStatus wt = Active /\ wtLastActivity wt = today /\
  wtBranch wt <> EmptyString /\
  dirNameOf (wtPath wt) = "agent-" ++ agentId.

End WorktreeUpkeep.

Module WorktreeExamples.
Import JsString.
Local Open Scope string_scope.
Local Open Scope Z_scope.

(** A host on which the git command fails and the directory is already
    gone from the disk. *)
Definition emptyDiskWorld : WorktreeManager.World :=
  {| WorktreeManager.worktrees := [("a1", Examples.staleWorktree)];
     WorktreeManager.host := Examples.stubbornHost;
     WorktreeManager.directories := [];
     WorktreeManager.clock := 25 * Examples.hour;
     WorktreeManager.calls := [];
     WorktreeManager.events := [] |}.

(** A manager that has not looked at the repository yet. *)
Definition newManager : WorktreeManager.World :=
  {| WorktreeManager.worktrees := [];
     WorktreeManager.host := Examples.stubbornHost;
     WorktreeManager.directories := ["/repo/worktrees/agent-a1"];
     WorktreeManager.clock := 1000;
     WorktreeManager.calls := [];
     WorktreeManager.events := [] |}.

(** The listing of a repository with its main worktree and one agent's. *)
Definition twoWorktrees : string :=
  "worktree /repo" ++ Examples.nl ++
  "HEAD 1f2e3d" ++ Examples.nl ++
  "branch refs/heads/main" ++ Examples.nl ++
  Examples.nl ++
  "worktree /repo/worktrees/agent-a1" ++ Examples.nl ++
  "HEAD 4a5b6c" ++ Examples.nl ++
  "branch refs/heads/agent-a1-1" ++ Examples.nl.

End WorktreeExamples.

(** ** The conflict resolver: strategies and [resolveConflicts] *)

Module ConflictStrategies.
Import JsString ConflictResolver.
Local Open Scope string_scope.
Local Open Scope Z_scope.
Local Open Scope js_scope.

(** [s.endsWith(suffix)] *)
Fixpoint endsWith (s suffix : string) : bool :=
  if String.eqb s suffix then true
  else match s with
       | EmptyString => false
       | String _ s' => endsWith s' suffix
       end.

(** [section.ours]: a string in every [ConflictSection] (the parser sets
    it when it opens a section). *)
Definition oursOf (s : ConflictSection) : string := orEmpty (ours s).

(** [section.theirs || ''] *)
Definition theirsOf (s : ConflictSection) : string := orEmpty (theirs s).

(** [section.theirs?.trim() || ''] *)
Definition theirsTrimmed (s : ConflictSection) : string :=
  match theirs s with
  | Some t => trim t
  | None => ""
  end.

(** *** [WhitespaceConflictStrategy] *)

Definition whitespaceCanResolve (conflict : ConflictInfo) : bool :=
  List.forallb (fun s => String.eqb (trim (oursOf s)) (theirsTrimmed s))
    (sections conflict).

(** The length of the leading white space, which the indentation
    pattern captures. *)
Fixpoint indentOf (line : string) : Z :=
  match line with
  | EmptyString => 0
  | String c rest => if isWhiteSpace c then 1 + indentOf rest else 0
  end.

Definition hasConsistentIndentation (text : string) : bool :=
  let lines :=
    List.filter (fun line => len (trim line) >? 0) (splitLines text) in
  match lines with
  | [] => true
  | _ => List.forallb (fun line =>
           (indentOf line mod 2 =? 0) || (indentOf line mod 4 =? 0)) lines
  end.

Definition whitespaceResolve (conflict : ConflictInfo) : string :=
  List.fold_left
    (fun resolved s =>
       resolved ++ (if hasConsistentIndentation (oursOf s) then oursOf s
                    else theirsOf s))
    (sections conflict) "".

(** *** [ImportOrderConflictStrategy] *)

(** [/\.(js|ts|jsx|tsx)$/.test(file)] *)
Definition isJavaScriptFile (filePath : string) : bool :=
  endsWith filePath ".js" || endsWith filePath ".ts"
  || endsWith filePath ".jsx" || endsWith filePath ".tsx".

Definition isImportSection (text : string) : bool :=
  List.forallb (fun line =>
      String.eqb (trim line) "" || startsWith (trim line) "import "
      || startsWith (trim line) "//" || startsWith (trim line) "/*")
    (splitLines (trim text)).

Definition importOrderCanResolve (conflict : ConflictInfo) : bool :=
  isJavaScriptFile (file conflict)
  && List.forallb (fun s =>
       isImportSection (oursOf s) && isImportSection (theirsOf s))
     (sections conflict).

(** *** [SimpleAdditionConflictStrategy] *)

Definition simpleAdditionCanResolve (conflict : ConflictInfo) : bool :=
  List.forallb (fun s =>
      String.eqb (trim (oursOf s)) "" || String.eqb (theirsTrimmed s) "")
    (sections conflict).

Definition simpleAdditionResolve (conflict : ConflictInfo) : string :=
  List.fold_left
    (fun resolved s =>
       resolved ++ (if negb (String.eqb (trim (oursOf s)) "") then oursOf s
                    else theirsOf s))
    (sections conflict) "".

(** *** [PackageJsonConflictStrategy] *)

Definition packageJsonCanResolve (conflict : ConflictInfo) : bool :=
  endsWith (file conflict) "package.json".

(** *** The resolver *)

(** The repository as [resolveConflicts] sees it: the files written so
    far, the paths [writeFile] rejects, the clock, and the events sent
    (file and strategy name). *)
Record Repo : Type := {
  written : list (string * string);
  refused : string -> option Js.Thrown;
  clock : Z;
  notified : list (string * string)
}.

Definition M := Js.Eff Repo.

(** A strategy with its [resolve], which takes its time and may throw. *)
Record Resolver : Type := {
  strategy : ConflictResolutionStrategy;
  resolve : ConflictInfo -> Js.Eff Z string
}.

Definition pure (f : ConflictInfo -> string) : ConflictInfo -> Js.Eff Z string :=
  fun conflict => Js.ret (f conflict).

Definition whitespaceStrategy : Resolver :=
  {| strategy := {| strategyName := "Whitespace Conflict Resolver";
                    canResolve := whitespaceCanResolve |};
     resolve := pure whitespaceResolve |}.

(** The merge of the import lines sorts them with [localeCompare]; it is
    left to the host. *)
Definition importOrderStrategy (sortedImports : ConflictInfo -> Js.Eff Z string)
    : Resolver :=
  {| strategy := {| strategyName := "Import Order Conflict Resolver";
                    canResolve := importOrderCanResolve |};
     resolve := sortedImports |}.

Definition simpleAdditionStrategy : Resolver :=
  {| strategy := {| strategyName := "Simple Addition Conflict Resolver";
                    canResolve := simpleAdditionCanResolve |};
     resolve := pure simpleAdditionResolve |}.

(** [resolve] reads the file from the disk. *)
Definition packageJsonStrategy (readFile : ConflictInfo -> Js.Eff Z string)
    : Resolver :=
  {| strategy := {| strategyName := "Package.json Conflict Resolver";
                    canResolve := packageJsonCanResolve |};
     resolve := readFile |}.

(** [registerDefaultStrategies] *)
Definition defaultStrategies (sortedImports readFile : ConflictInfo -> Js.Eff Z string)
    : list Resolver :=
  [whitespaceStrategy; importOrderStrategy sortedImports;
   simpleAdditionStrategy; packageJsonStrategy readFile].

(** [applicableStrategies[0] || null] *)
Definition findBestStrategy (strategies : list Resolver) (conflict : ConflictInfo)
    : option Resolver :=
  List.hd_error
    (List.filter (fun s => canResolve (strategy s) conflict) strategies).

Definition now : M Z := Js.gets clock.

Definition callResolve (s : Resolver) (conflict : ConflictInfo) : M string :=
  fun r =>
    match resolve s conflict (clock r) with
    | (outcome, t) =>
        (outcome,
         {| written := written r; refused := refused r; clock := t;
            notified := notified r |})
    end.

Definition writeResolvedContent (filePath content : string) : M unit :=
  fun r =>
    match refused r filePath with
    | None =>
        (Js.Normal tt,
         {| written := (written r ++ [(filePath, content)])%list;
            refused := refused r; clock := clock r;
            notified := notified r |})
    | Some e => (Js.Throws e, r)
    end.

Definition emit (filePath strategy : string) : M unit :=
  Js.modify (fun r =>
    {| written := written r; refused := refused r; clock := clock r;
       notified := (notified r ++ [(filePath, strategy)])%list |}).

Definition noStrategyMessage (filePath : string) : string :=
  "No automatic resolution strategy found for " ++ filePath.

Definition failure (message : string) (d : Z) : WorktreeManager.GitOperationResult :=
  {| WorktreeManager.success := false; WorktreeManager.output := None;
     WorktreeManager.error := Some message; WorktreeManager.duration := d |}.

(** The body of the loop of [resolveConflicts]: the result it pushes. *)
Definition resolveConflict (strategies : list Resolver) (conflict : ConflictInfo)
    : M WorktreeManager.GitOperationResult :=
  startTime <- now ;;
  Js.tryCatch
    (match findBestStrategy strategies conflict with
     | Some s =>
         if autoResolvable conflict then
           resolvedContent <- callResolve s conflict ;;
           writeResolvedContent (file conflict) resolvedContent ;;;
           t <- now ;;
           emit (file conflict) (strategyName (strategy s)) ;;;
           Js.ret {| WorktreeManager.success := true;
                     WorktreeManager.output :=
                       Some ("Resolved conflict in " ++ file conflict
                             ++ " using " ++ strategyName (strategy s));
                     WorktreeManager.error := None;
                     WorktreeManager.duration := t - startTime |}
         else
           t <- now ;;
           Js.ret (failure (noStrategyMessage (file conflict)) (t - startTime))
     | None =>
         t <- now ;;
         Js.ret (failure (noStrategyMessage (file conflict)) (t - startTime))
     end)
    (fun error =>
       t <- now ;;
       Js.ret (failure (Js.errorText error) (t - startTime))).

Fixpoint resolveConflictsFrom (strategies : list Resolver)
    (conflicts : list ConflictInfo)
    (results : list WorktreeManager.GitOperationResult)
    : M (list WorktreeManager.GitOperationResult) :=
  match conflicts with
  | [] => Js.ret results
  | conflict :: rest =>
      result <- resolveConflict strategies conflict ;;
      resolveConflictsFrom strategies rest (results ++ [result])%list
  end.

Definition resolveConflicts (strategies : list Resolver)
    (conflicts : list ConflictInfo)
    : M (list WorktreeManager.GitOperationResult) :=
  resolveConflictsFrom strategies conflicts [].

(** [parseConflictFile] of a resolver with these strategies. *)
Definition parse (strategies : list Resolver) (filePath content : string)
    : ConflictInfo :=
  parseConflictFile (List.map strategy strategies) filePath content.

(** Both sides of a region as the parser keeps them, or nothing when all
    of it is blank. *)
Definition keptText (r : Region) : string :=
  let text := joinLines (oursLines r ++ theirsLines r) in
  if String.eqb (trim text) "" then "" else text.

(** What is left of a file with these regions. *)
Definition resolvedText (regions : list Region) : string :=
  List.fold_right (fun r rest => keptText r ++ rest) "" regions.

(** A section as the parser leaves it. *)
Definition parsedShape (lines : Z) (s : ConflictSection) : Prop :=
  theirs s = None /\ base s = None /\
  exists first last text,
    startLine s = Some first /\ endLine s = Some last /\
    ours s = Some text /\ 1 <= first /\ first < last /\ last <= lines.

(** [s1] ends before [s2] starts. *)
Definition precedes (s1 s2 : ConflictSection) : Prop :=
  exists last first,
    endLine s1 = Some last /\ startLine s2 = Some first /\ last < first.

(** The section being read, after [n] lines. *)
Definition openShape (n : Z) (earlier : list ConflictSection)
    (c : ConflictSection) : Prop :=
  theirs c = None /\ base c = None /\
  Forall (fun s => precedes s c) earlier /\
  exists first text,
    startLine c = Some first /\ ours c = Some text /\ 1 <= first /\ first <= n.

(** What holds of the scan between two lines. *)
Definition scanning (st : Scan) : Prop :=
  0 <= lineNumber st /\
  Forall (parsedShape (lineNumber st)) (found st) /\
  StronglySorted precedes (found st) /\
  match currentConflict st with
  | Some c => openShape (lineNumber st) (found st) c
  | None => True
  end.

End ConflictStrategies.

Module ConflictExamples.
Import JsString ConflictResolver ConflictStrategies.
Local Open Scope string_scope.

(** Strategies whose host parts do nothing but take a millisecond. *)
Definition hostPart (conflict : ConflictInfo) : Js.Eff Z string :=
  fun t => (Js.Normal "", (t + 1)%Z).

Definition strategies : list Resolver := defaultStrategies hostPart hostPart.

(** A file with text before and after its one conflict. *)
Definition readme : string :=
  "# Title" ++ Examples.nl ++ Examples.oneRegion ++ Examples.nl ++ "the end".

Definition readmeLayout : Region :=
  {| opening := "<<<<<<< HEAD";
     oursLines := ["a"];
     separator := "=======";
     theirsLines := ["b"];
     closing := ">>>>>>> feature";
     trailing := ["the end"] |}.

Definition healthyRepo : Repo :=
  {| written := []; refused := fun _ => None; clock := 0; notified := [] |}.

End ConflictExamples.

(** ** The event bus ([EventBus]) *)

Module EventBus.
Import JsString.
Local Open Scope string_scope.
Local Open Scope Z_scope.
Local Open Scope js_scope.

Record MADOEvent : Type := {
  eventId : string;
  eventType : string;
  timestamp : Z;
  eventSource : string
}.

Definition maxHistorySize : Z := 1000.

Definition size {A} (xs : list A) : Z := Z.of_nat (List.length xs).

(** [xs.slice(start)]: a negative [start] counts from the end. *)
Definition slice {A} (start : Z) (xs : list A) : list A :=
  let from :=
    if start <? 0 then Z.max (size xs + start) 0 else Z.min start (size xs) in
  List.skipn (Z.to_nat from) xs.

(** The bus: its history.  What the listeners do with an event is their
    own affair; [heard] tells whether one of them throws. *)
Record Bus : Type := {
  eventHistory : list MADOEvent;
  heard : MADOEvent -> option Js.Thrown
}.

Definition M := Js.Eff Bus.

Definition withHistory (f : list MADOEvent -> list MADOEvent) : M unit :=
  Js.modify (fun b => {| eventHistory := f (eventHistory b); heard := heard b |}).

(** [addToHistory] *)
Definition addToHistory (event : MADOEvent) : M unit :=
  withHistory (fun h => (h ++ [event])%list) ;;;
  h <- Js.gets eventHistory ;;
  Js.when (size h >? maxHistorySize)
    (withHistory (slice (- maxHistorySize))).

(** [this.emitter.emit(event.type, event)] and the wildcard: the
    listeners run, and one of them may throw. *)
Definition deliver (event : MADOEvent) : M unit :=
  fun b => match heard b event with
           | None => (Js.Normal tt, b)
           | Some e => (Js.Throws e, b)
           end.

(** [emit] *)
Definition emit (event : MADOEvent) : M unit :=
  Js.tryCatch
    (addToHistory event ;;; deliver event)
    (fun error => Js.ret tt).

(** Emitting a series of events, first to last. *)
Definition emitAll (events : list MADOEvent) : M unit :=
  Js.forOf events emit.


(** The last [n] of a list. *)
Definition lastOf {A} (n : nat) (xs : list A) : list A :=
  List.skipn (List.length xs - n) xs.

End EventBus.

Module BusExamples.
Import JsString EventBus.
Local Open Scope string_scope.
Local Open Scope Z_scope.

Definition event (n : Z) (type : string) : MADOEvent :=
  {| eventId := ofZ n; eventType := type; timestamp := n;
     eventSource := "system" |}.

(** A bus with a listener that throws at every task failure. *)
Definition touchyBus : Bus :=
  {| eventHistory := [];
     heard := fun e => if String.eqb (eventType e) "task:failed"
                       then Some (Js.ErrorObject "listener failed") else None |}.

Definition fiveEvents : list MADOEvent :=
  [event 1 "task:started"; event 2 "task:failed"; event 3 "task:started";
   event 4 "task:completed"; event 5 "task:failed"].

End BusExamples.

(** ** JavaScript numbers as IEEE 754 doubles

    Where a claim turns on comparing two computed numbers, the exact
    rationals of [AgentRegistry] will not do: two confidences that are
    equal as rationals need not be equal once every operation has rounded
    its result.  [Binary64] gives the numbers the program computes with:
    binary64, every operation rounded to nearest, ties to even. *)

Module Binary64.

Definition number : Type := spec_float.

Definition prec : Z := 53.
Definition emax : Z := 1024.

Definition NaN : number := S754_nan.

Definition isNaN (x : number) : bool :=
  match x with
  | S754_nan => true
  | _ => false
  end.

(** An integer as a number. *)
Definition ofInteger (z : Z) : number := binary_normalize prec emax z 0 false.

Definition add : number -> number -> number := SFadd prec emax.
Definition mul : number -> number -> number := SFmul prec emax.
Definition div : number -> number -> number := SFdiv prec emax.

(** [a < b] and [a > b] *)
Definition lt (a b : number) : bool := SFltb a b.
Definition gt (a b : number) : bool := SFltb b a.

(** A decimal literal [n / 10^k]: the double nearest to it, which is what
    the correctly rounded division of the two integers gives. *)
Definition literal (n : Z) (k : nat) : number :=
  div (ofInteger n) (ofInteger (10 ^ Z.of_nat k)).

(** [Math.min(a, b)] *)
Definition min (a b : number) : number :=
  if isNaN a || isNaN b then NaN
  else if lt a b then a
  else if lt b a then b
  else match a with
       | S754_zero true => a
       | _ => b
       end.

Fixpoint log2Exact (p : positive) : option Z :=
  match p with
  | xH => Some 0%Z
  | xO p' => option_map Z.succ (log2Exact p')
  | xI _ => None
  end.

(** The number a rational stands for.  The metrics of an agent are
    doubles in the program; a rational that is a double (its denominator
    a power of two, within range) converts to itself, any other to the
    double nearest to the quotient. *)
Definition ofQ (q : Q) : number :=
  match log2Exact (Qden q) with
  | Some k => binary_normalize prec emax (Qnum q) (- k) false
  | None => div (ofInteger (Qnum q)) (ofInteger (Z.pos (Qden q)))
  end.

End Binary64.

(** ** The registry's matching in double precision *)

Module DoubleMatching.
Import Types JsString Binary64.
Local Open Scope string_scope.

Record AgentMatchResult : Type := {
  matchAgent : IAgent;
  confidence : number;
  reasoning : list string
}.

Definition getRoleTaskBonus (role : AgentRole) (type : string) : number :=
  let roleKeywords := AgentRegistry.compatibility role in
  let taskTypeLower := toLowerCase type in
  if List.existsb (fun keyword => includes taskTypeLower keyword) roleKeywords
  then literal 3 1 else ofInteger 0.

Definition ofLength {A : Type} (l : list A) : number :=
  ofInteger (Z.of_nat (List.length l)).

Definition calculateCapabilityScore (agent : IAgent) (task : Task) : number :=
  let requiredCapabilities := AgentRegistry.technicalRequirements task in
  if (List.length requiredCapabilities =? 0)%nat then literal 2 1
  else
    min (literal 3 1)
        (mul (div (ofLength (AgentRegistry.matchingCapabilities agent task))
                  (ofLength requiredCapabilities))
             (literal 3 1)).

Definition calculateLoadScore (agent : IAgent) : number :=
  match agentStatus agent with
  | ACTIVE => literal 2 1
  | BUSY => literal 1 1
  | _ => ofInteger 0
  end.

Definition calculatePerformanceScore (agent : IAgent) : number :=
  match agentMetrics agent with
  | None => literal 1 1
  | Some metrics =>
      let successRate := ofQ (successRate metrics) in
      let qualityScore := div (ofQ (codeQualityScore metrics)) (ofInteger 100) in
      min (literal 2 1)
          (mul (div (add successRate qualityScore) (ofInteger 2)) (literal 2 1))
  end.

Definition positive (x : number) : bool := gt x (ofInteger 0).

Definition calculateAgentTaskMatch (agent : IAgent) (task : Task)
    : AgentMatchResult :=
  let roleBonus :=
    getRoleTaskBonus (agentRole agent) (taskTypeValue (taskType task)) in
  let capabilityScore := calculateCapabilityScore agent task in
  let loadScore := calculateLoadScore agent in
  let performanceScore := calculatePerformanceScore agent in
  let total :=
    add (add (add (add (ofInteger 0) roleBonus) capabilityScore) loadScore)
        performanceScore in
  let reasoning :=
    AgentRegistry.pushIf (positive performanceScore)
      "Agent has good performance history"
      (AgentRegistry.pushIf (positive loadScore) "Agent has low current load"
        (AgentRegistry.pushIf (positive capabilityScore)
           "Agent has relevant capabilities"
          (AgentRegistry.pushIf (positive roleBonus)
             ("Role " ++ roleValue (agentRole agent) ++ " matches task type "
                ++ taskTypeValue (taskType task)) []))) in
  {| matchAgent := agent; confidence := min (ofInteger 1) total;
     reasoning := reasoning |}.

(** The confidence an agent gets for a task. *)
Definition score (task : Task) (agent : IAgent) : number :=
  confidence (calculateAgentTaskMatch agent task).

(** Whether the agent is in the candidate set. *)
Definition candidate (task : Task) (agent : IAgent) : bool :=
  statusEqb (agentStatus agent) ACTIVE
  && AgentRegistry.canAgentHandleTask agent task.

Definition availableAgents (r : AgentRegistry.Registry) (task : Task)
    : list IAgent :=
  List.filter (candidate task) (AgentRegistry.getAllAgents r).

(** One turn of the selection loop:
    [!bestMatch || matchResult.confidence > bestMatch.confidence]. *)
Definition consider (task : Task) (bestMatch : option AgentMatchResult)
    (agent : IAgent) : option AgentMatchResult :=
  let matchResult := calculateAgentTaskMatch agent task in
  match bestMatch with
  | None => Some matchResult
  | Some best =>
      if gt (confidence matchResult) (confidence best)
      then Some matchResult else Some best
  end.

Definition findBestAgentForTask (r : AgentRegistry.Registry) (task : Task)
    : option AgentMatchResult :=
  let available := availableAgents r task in
  if (List.length available =? 0)%nat then None
  else List.fold_left (consider task) available None.

End DoubleMatching.

Module DoubleExamples.
Import Types JsString.
Local Open Scope string_scope.

Definition withMetrics (a : IAgent) (rate quality : Q) : IAgent :=
  {| agentId := agentId a; agentName := agentName a; agentRole := agentRole a;
     agentCapabilities := agentCapabilities a; agentStatus := agentStatus a;
     agentWorkingDirectory := agentWorkingDirectory a;
     agentLastActivity := agentLastActivity a;
     agentMetrics :=
       Some {| tasksCompleted := 0; averageTaskDuration := 0;
               successRate := rate; codeQualityScore := quality;
               collaborationScore := 0; lastActivityTime := 0 |} |}.

(** A second front-end agent, the twin of the first. *)
Definition frontendTwin : IAgent :=
  Examples.activeAgent "frontend-002" FRONTEND Examples.frontendCapabilities.

(** Two front-end agents whose confidences for the feature task are the
    same rational, 291/500, and two different doubles. *)
Definition steady : IAgent := withMetrics Examples.frontendAgent 0 82.
Definition mixed : IAgent := withMetrics frontendTwin (1 # 2) 32.

Definition nearTie : AgentRegistry.Registry :=
  Examples.registryOf 5 [steady; mixed].

(** A task anyone can take. *)
Definition choreTask : Task := Examples.task "task-2" FEATURE 60 [].

(** A back-end agent with a poor record, two front-end agents that
    score the same, a stopped agent and a QA agent with the same score
    again, in this order. *)
Definition idle : IAgent :=
  {| agentId := "devops-001"; agentName := "devops-001"; agentRole := DEVOPS;
     agentCapabilities := Examples.defaultCapabilities;
     agentStatus := INACTIVE; agentWorkingDirectory := ".";
     agentLastActivity := 0; agentMetrics := None |}.

Definition crowd : AgentRegistry.Registry :=
  Examples.registryOf 10
    [withMetrics Examples.backendAgent 0 50; Examples.frontendAgent;
     frontendTwin; idle; Examples.qaAgent].

End DoubleExamples.

(* ===================================================================== *)
(** * Part II: properties *)
(* ===================================================================== *)

(** Unfolds the effect combinators, leaving the state-passing code. *)
Ltac unfold_effects :=
  unfold Js.tryCatch, Js.bind, Js.gets, Js.throw, Js.modify, Js.ret, Js.when.

(** ** Strings *)

Section StringFacts.
Import JsString.
Local Open Scope string_scope.

Lemma prefix_split (p s : string) :
  String.prefix p s = true <-> exists rest, s = p ++ rest.
Proof.
  revert s; induction p as [|c p IH]; intros [|d s]; simpl.
  - split; [intros _; now exists "" | reflexivity].
  - split; [intros _; now exists (String d s) | reflexivity].
  - split; [discriminate | intros [rest H]; discriminate].
  - destruct (ascii_dec c d) as [->|Hne].
    + rewrite IH. split; intros [rest H]; exists rest.
      * now rewrite H.
      * now injection H.
    + split; [discriminate|].
      intros [rest H]. injection H as Hc _. now elim Hne.
Qed.

Lemma includes_unfold (s sub : string) :
  includes s sub =
  if String.prefix sub s then true
  else match s with
       | EmptyString => false
       | String _ s' => includes s' sub
       end.
Proof. destruct s; reflexivity. Qed.

(** [includes] decides exactly the occurrence of [sub] inside [s]. *)
Lemma includes_occurs (s sub : string) :
  includes s sub = true <-> exists before rest, s = before ++ sub ++ rest.
Proof.
  induction s as [|c s IH]; rewrite includes_unfold.
  - destruct (String.prefix sub "") eqn:Hp.
    + split; [intros _|reflexivity].
      apply prefix_split in Hp as [rest H]. now exists "", rest.
    + split; [discriminate|].
      intros (before & rest & H). destruct before; simpl in H.
      * assert (String.prefix sub "" = true) by (apply prefix_split; eauto).
        congruence.
      * discriminate.
  - destruct (String.prefix sub (String c s)) eqn:Hp.
    + split; [intros _|reflexivity].
      apply prefix_split in Hp as [rest H]. now exists "", rest.
    + rewrite IH. split.
      * intros (before & rest & H). exists (String c before), rest.
        simpl. now rewrite H.
      * intros (before & rest & H). destruct before as [|d before]; simpl in H.
        -- assert (String.prefix sub (String c s) = true)
             by (apply prefix_split; eauto).
           congruence.
        -- injection H as _ H. eauto.
Qed.

Lemma append_empty_r (s : string) : s ++ "" = s.
Proof. induction s; simpl; congruence. Qed.

Lemma append_assoc (a b c : string) : (a ++ b) ++ c = a ++ b ++ c.
Proof. induction a; simpl; congruence. Qed.

Lemma includes_refl (s : string) : includes s s = true.
Proof.
  apply includes_occurs. exists "", "". simpl. now rewrite append_empty_r.
Qed.

End StringFacts.

(** ** Maps *)

Section MapFacts.
Variable V : Type.
Implicit Types (m : JsMap.t V) (k : string) (v : V).

Lemma get_set_same m k v : JsMap.get (JsMap.set m k v) k = Some v.
Proof.
  induction m as [|[k' v'] m IH]; simpl.
  - now rewrite String.eqb_refl.
  - destruct (String.eqb k' k) eqn:E; simpl.
    + now rewrite String.eqb_refl.
    + now rewrite E.
Qed.

Lemma get_set_other m k k' v :
  k <> k' -> JsMap.get (JsMap.set m k v) k' = JsMap.get m k'.
Proof.
  intros Hne. induction m as [|[k0 v0] m IH]; simpl.
  - destruct (String.eqb_spec k k'); [contradiction|reflexivity].
  - destruct (String.eqb_spec k0 k) as [->|Hk]; simpl.
    + destruct (String.eqb_spec k k'); [contradiction|reflexivity].
    + now rewrite IH.
Qed.

Lemma get_delete_same m k : JsMap.get (JsMap.delete m k) k = None.
Proof.
  induction m as [|[k' v'] m IH]; simpl; [reflexivity|].
  destruct (String.eqb k' k) eqn:E; simpl; [assumption|].
  now rewrite E.
Qed.

Lemma get_delete_other m k k' :
  k <> k' -> JsMap.get (JsMap.delete m k) k' = JsMap.get m k'.
Proof.
  intros Hne. induction m as [|[k0 v0] m IH]; simpl; [reflexivity|].
  destruct (String.eqb_spec k0 k) as [->|Hk]; simpl.
  - rewrite IH. destruct (String.eqb_spec k k'); [contradiction|reflexivity].
  - now rewrite IH.
Qed.

Lemma size_set_new m k v :
  JsMap.has m k = false -> JsMap.size (JsMap.set m k v) = (JsMap.size m + 1)%Z.
Proof.
  unfold JsMap.has, JsMap.size.
  induction m as [|[k' v'] m IH]; simpl; intros H.
  - reflexivity.
  - destruct (String.eqb k' k) eqn:E; [discriminate|].
    simpl. specialize (IH H). lia.
Qed.

Lemma size_delete m k : (JsMap.size (JsMap.delete m k) <= JsMap.size m)%Z.
Proof.
  unfold JsMap.size.
  induction m as [|[k' v'] m IH]; simpl; [lia|].
  destruct (String.eqb k' k); simpl; lia.
Qed.

Lemma delete_absent m k : JsMap.get m k = None -> JsMap.delete m k = m.
Proof.
  induction m as [|[k' v'] m IH]; simpl; [reflexivity|].
  destruct (String.eqb k' k); [discriminate|].
  intros H. now rewrite IH.
Qed.

Lemma keys_delete m k :
  JsMap.keys (JsMap.delete m k) = List.filter (fun x => negb (String.eqb x k)) (JsMap.keys m).
Proof.
  induction m as [|[k' v'] m IH]; simpl; [reflexivity|].
  destruct (String.eqb k' k); simpl; now rewrite IH.
Qed.

Lemma wf_delete m k : JsMap.wf m -> JsMap.wf (JsMap.delete m k).
Proof.
  unfold JsMap.wf. rewrite keys_delete. apply NoDup_filter.
Qed.

Lemma get_in m k v : JsMap.get m k = Some v -> In (k, v) m.
Proof.
  induction m as [|[k' v'] m IH]; simpl; [discriminate|].
  destruct (String.eqb_spec k' k) as [->|Hne].
  - intros [= ->]. now left.
  - intros H. right. auto.
Qed.

Lemma in_get m k v : JsMap.wf m -> In (k, v) m -> JsMap.get m k = Some v.
Proof.
  unfold JsMap.wf.
  induction m as [|[k' v'] m IH]; simpl; [contradiction|].
  intros Hnd [H|H].
  - injection H as -> ->. now rewrite String.eqb_refl.
  - inversion Hnd as [|? ? Hnot Hnd']; subst.
    destruct (String.eqb_spec k' k) as [->|Hne].
    + elim Hnot. change k with (fst (k, v)). now apply in_map.
    + auto.
Qed.

End MapFacts.

(** ** The registry: capacity *)

Section RegistryCapacity.
Import Types AgentRegistry.
Local Open Scope Z_scope.

Lemma validateAgentConfig_cases (cfg : AgentConfig) (r : Registry) :
  validateAgentConfig cfg r = (Js.Normal tt, r) \/
  exists e, validateAgentConfig cfg r = (Js.Throws e, r).
Proof.
  unfold validateAgentConfig.
  repeat match goal with
         | |- context [if ?b then _ else _] => destruct b
         end;
    solve [ left; reflexivity | right; eexists; reflexivity ].
Qed.

(** What the listeners of ['agent:registered'] make of the call. *)
Lemma emitOwn_run (heard : Listeners) (event : RegistryEvent) (r : Registry) :
  emitOwn heard event r
  = (match heard event with
     | None => Js.Normal tt
     | Some e => Js.Throws e
     end, r).
Proof.
  unfold emitOwn. now destruct (heard event).
Qed.

(** Every outcome of [registerAgent], with the state it leaves: a failed
    check leaves the registry alone; past the checks both maps are
    written, and the listeners decide how the call returns. *)
Lemma registerAgent_cases (heard : Listeners) (agent : IAgent) (cfg : AgentConfig)
    (r : Registry) :
  (exists e, registerAgent heard agent cfg r = (Js.Throws e, r)) \/
  (JsMap.size (agents r) < maxAgents (config r) /\
   JsMap.has (agents r) (agentId agent) = false /\
   registerAgent heard agent cfg r =
     (match heard (AgentRegistered agent) with
      | None => Js.Normal tt
      | Some e => Js.Throws e
      end,
      withAgents r (JsMap.set (agents r) (agentId agent) agent)
                   (JsMap.set (agentConfigs r) (agentId agent) cfg))).
Proof.
  unfold registerAgent. unfold_effects.
  destruct (Z.geb_spec (JsMap.size (agents r)) (maxAgents (config r))) as [Hfull|Hroom].
  - left. eexists. reflexivity.
  - destruct (JsMap.has (agents r) (agentId agent)) eqn:Hdup.
    + left. eexists. reflexivity.
    + destruct (validateAgentConfig_cases cfg r) as [Hok|[e Hbad]].
      * right. rewrite Hok, emitOwn_run. repeat split; try lia.
        now destruct (heard (AgentRegistered agent)).
      * left. rewrite Hbad. eexists. reflexivity.
Qed.

Lemma size_set_present (V : Type) (m : JsMap.t V) (k : string) (v : V) :
  JsMap.has m k = true -> JsMap.size (JsMap.set m k v) = JsMap.size m.
Proof.
  unfold JsMap.has, JsMap.size. intros H. f_equal.
  induction m as [|[k' v'] m IH]; cbn [JsMap.get JsMap.set] in *;
    [discriminate|].
  destruct (String.eqb k' k); [reflexivity|].
  cbn [List.length]. f_equal. apply IH, H.
Qed.

(** Every outcome of [unregisterAgent], with the state it leaves. *)
Lemma unregisterAgent_cases (heard : Listeners) (stop : Stop) (id : string)
    (r : Registry) :
  match JsMap.get (agents r) id with
  | None =>
      unregisterAgent heard stop id r
      = (Js.Throws (Js.ErrorObject ("Agent " ++ id ++ " not found")), r)
  | Some agent =>
      let removed stopped :=
        (match heard (AgentUnregistered stopped) with
         | None => Js.Normal tt
         | Some e => Js.Throws e
         end,
         withAgents r (JsMap.delete (agents r) id)
                      (JsMap.delete (agentConfigs r) id)) in
      if statusEqb (agentStatus agent) INACTIVE
      then unregisterAgent heard stop id r = removed agent
      else
        match fst (stop agent) with
        | Some e =>
            unregisterAgent heard stop id r
            = (Js.Throws e,
               withAgents r (JsMap.set (agents r) id (snd (stop agent)))
                            (agentConfigs r))
        | None => unregisterAgent heard stop id r = removed (snd (stop agent))
        end
  end.
Proof.
  unfold unregisterAgent, callStop. unfold_effects.
  destruct (JsMap.get (agents r) id) as [agent|]; [|reflexivity].
  destruct (statusEqb (agentStatus agent) INACTIVE); cbn [negb].
  - unfold Js.ret. rewrite emitOwn_run.
    now destruct (heard (AgentUnregistered agent)).
  - destruct (fst (stop agent)); [reflexivity|].
    rewrite emitOwn_run. cbn [withAgents agents agentConfigs].
    assert (Hdel : JsMap.delete (JsMap.set (agents r) id (snd (stop agent))) id
                   = JsMap.delete (agents r) id).
    { clear. induction (agents r) as [|[k v] m IH]; simpl.
      - now rewrite String.eqb_refl.
      - destruct (String.eqb k id) eqn:E; simpl.
        + now rewrite String.eqb_refl.
        + now rewrite E, IH. }
    rewrite Hdel.
    now destruct (heard (AgentUnregistered (snd (stop agent)))).
Qed.

Lemma perform_keeps_bound (c : Call) (r : Registry) :
  0 <= maxAgents (config r) ->
  JsMap.size (agents r) <= maxAgents (config r) ->
  config (snd (perform c r)) = config r /\
  JsMap.size (agents (snd (perform c r))) <= maxAgents (config r).
Proof.
  intros Hmax Hbound. destruct c as [heard agent cfg|heard stop id|]; simpl.
  - destruct (registerAgent_cases heard agent cfg r)
      as [[e ->]|(Hroom & Hnew & ->)]; simpl.
    + auto.
    + split; [reflexivity|]. rewrite size_set_new by assumption. lia.
  - pose proof (unregisterAgent_cases heard stop id r) as Hrun.
    destruct (JsMap.get (agents r) id) as [agent|] eqn:Hget;
      [|rewrite Hrun; auto].
    assert (Hdel : config (withAgents r (JsMap.delete (agents r) id)
                             (JsMap.delete (agentConfigs r) id)) = config r /\
                   JsMap.size (agents (withAgents r (JsMap.delete (agents r) id)
                                         (JsMap.delete (agentConfigs r) id)))
                   <= maxAgents (config r)).
    { split; [reflexivity|]. simpl.
      pose proof (size_delete (agents r) id). lia. }
    cbv zeta in Hrun.
    destruct (statusEqb (agentStatus agent) INACTIVE);
      [rewrite Hrun; exact Hdel|].
    destruct (fst (stop agent)); rewrite Hrun; [|exact Hdel].
    split; [reflexivity|]. simpl.
    rewrite size_set_present; [assumption|].
    unfold JsMap.has. now rewrite Hget.
  - split; [reflexivity|]. exact Hmax.
Qed.

(** X5.  Starting from a new registry whose [maxAgents] is an integer
    that is not negative, no history of registrations, removals and
    clean-ups brings the population above [maxAgents], whatever the
    listeners and the agents' [stop] do. *)
Lemma population_bounded (cfg : AgentRegistryConfig) (calls : list Call) :
  0 <= maxAgents cfg ->
  JsMap.size (agents (after calls (create cfg))) <= maxAgents cfg.
Proof.
  intros Hmax.
  assert (Hgen : forall r,
             config r = cfg ->
             JsMap.size (agents r) <= maxAgents cfg ->
             JsMap.size (agents (after calls r)) <= maxAgents cfg).
  { induction calls as [|c calls IH]; intros r Hcfg Hb; simpl; [assumption|].
    subst cfg.
    destruct (perform_keeps_bound c r Hmax Hb) as [Hc Hs].
    apply IH; assumption. }
  apply Hgen; [reflexivity|]. simpl. exact Hmax.
Qed.

(** C1.  In every state of the registry whose population has reached
    [maxAgents], [registerAgent] fails with the capacity error and leaves
    the registry (agent map, configuration map, assignment history) as it
    was. *)
Theorem registerAgent_rejects_when_full
    (heard : Listeners) (r : Registry) (agent : IAgent) (cfg : AgentConfig) :
  JsMap.size (agents r) >= maxAgents (config r) ->
  registerAgent heard agent cfg r =
    (Js.Throws (Js.ErrorObject (capacityMessage (maxAgents (config r)))), r).
Proof.
  intros Hfull.
  unfold registerAgent. unfold_effects.
  destruct (Z.geb_spec (JsMap.size (agents r)) (maxAgents (config r)));
    [reflexivity | lia].
Qed.

(** The fourth registration into a registry of three with [maxAgents = 3]. *)
Lemma registerAgent_rejects_when_full_witness :
  registerAgent (fun _ => None)
    Examples.polyglot (Examples.agentConfig Examples.polyglot)
    (Examples.registryOf 3
       [Examples.frontendAgent; Examples.backendAgent; Examples.qaAgent])
  = (Js.Throws (Js.ErrorObject "Maximum number of agents (3) reached"),
     Examples.registryOf 3
       [Examples.frontendAgent; Examples.backendAgent; Examples.qaAgent]).
Proof.
  apply (registerAgent_rejects_when_full (fun _ => None)
           (Examples.registryOf 3
              [Examples.frontendAgent; Examples.backendAgent; Examples.qaAgent])).
  vm_compute. discriminate.
Defined.

End RegistryCapacity.

(** ** The registry: choosing an agent *)

Section RegistryMatching.
Import Types AgentRegistry.
Local Open Scope Q_scope.

Lemma greater_true (a b : Q) : greater a b = true <-> b < a.
Proof.
  unfold greater. rewrite negb_true_iff, <- not_true_iff_false, Qle_bool_iff.
  split; [apply Qnot_le_lt | apply Qlt_not_le].
Qed.

Lemma greater_false (a b : Q) : greater a b = false <-> a <= b.
Proof.
  unfold greater. rewrite negb_false_iff. apply Qle_bool_iff.
Qed.

(** The selection loop keeps the earliest agent of highest confidence:
    [best] leads so far, everything [before] it scored strictly less and
    everything seen since ([mid]) no more. *)
Lemma selection_loop (task : Task) (rest : list IAgent) :
  forall (before : list IAgent) (best : IAgent) (mid : list IAgent),
    (forall a, In a before -> score task a < score task best) ->
    (forall a, In a mid -> score task a <= score task best) ->
    exists winner before' after',
      List.fold_left (consider task) rest
                     (Some (calculateAgentTaskMatch best task))
        = Some (calculateAgentTaskMatch winner task) /\
      before ++ best :: mid ++ rest = before' ++ winner :: after' /\
      (forall a, In a before' -> score task a < score task winner) /\
      (forall a, In a after' -> score task a <= score task winner).
Proof.
  unfold score.
  induction rest as [|x rest IH]; intros before best mid Hbefore Hmid.
  - exists best, before, mid. rewrite app_nil_r. auto.
  - cbn [List.fold_left consider].
    destruct (greater (confidence (calculateAgentTaskMatch x task))
                      (confidence (calculateAgentTaskMatch best task))) eqn:Hcmp.
    + apply greater_true in Hcmp.
      destruct (IH (before ++ best :: mid) x []) as (w & b' & a' & Hf & Hl & Hb & Ha).
      * intros a Hin. apply in_app_or in Hin as [Hin|[<-|Hin]].
        -- eapply Qlt_trans; eauto.
        -- assumption.
        -- eapply Qle_lt_trans; eauto.
      * intros a [].
      * exists w, b', a'. repeat split; try assumption.
        rewrite <- Hl, <- app_assoc. reflexivity.
    + apply greater_false in Hcmp.
      destruct (IH before best (mid ++ [x])) as (w & b' & a' & Hf & Hl & Hb & Ha).
      * assumption.
      * intros a Hin. apply in_app_or in Hin as [Hin|[<-|[]]]; auto.
      * exists w, b', a'. repeat split; try assumption.
        rewrite <- Hl, <- app_assoc. reflexivity.
Qed.

End RegistryMatching.

(** ** The selection, in double precision *)

Section DoubleOrder.
Import Binary64.

Ltac order_cases :=
  repeat match goal with
         | H : context [Z.compare ?x ?y] |- _ =>
             destruct (Z.compare_spec x y); cbn in H
         | |- context [Z.compare ?x ?y] =>
             destruct (Z.compare_spec x y); cbn
         | H : context [Pos.compare_cont Eq ?x ?y] |- _ =>
             change (Pos.compare_cont Eq x y) with (Pos.compare x y) in H;
             destruct (Pos.compare_spec x y); cbn in H
         | |- context [Pos.compare_cont Eq ?x ?y] =>
             change (Pos.compare_cont Eq x y) with (Pos.compare x y);
             destruct (Pos.compare_spec x y); cbn
         end;
  try discriminate; try reflexivity; try lia.

(** [<] on numbers is transitive. *)
Lemma number_lt_trans (a b c : number) :
  lt a b = true -> lt b c = true -> lt a c = true.
Proof.
  unfold lt, SFltb, SFcompare.
  destruct a as [sa|sa| |sa ma ea], b as [sb|sb| |sb mb eb],
    c as [sc|sc| |sc mc ec];
    try destruct sa; try destruct sb; try destruct sc; cbn;
    intros H1 H2; try discriminate; try reflexivity; order_cases.
Qed.

(** A number that is not above [b] is below whatever is above [b],
    unless it is [NaN]. *)
Lemma number_lt_below (a b c : number) :
  isNaN a = false -> lt b a = false -> lt b c = true -> lt a c = true.
Proof.
  unfold lt, SFltb, SFcompare, isNaN.
  destruct a as [sa|sa| |sa ma ea], b as [sb|sb| |sb mb eb],
    c as [sc|sc| |sc mc ec];
    try destruct sa; try destruct sb; try destruct sc; cbn;
    intros H0 H1 H2; try discriminate; try reflexivity; order_cases.
Qed.

End DoubleOrder.

Section DoubleSelection.
Import Types Binary64 DoubleMatching.
Import AgentRegistry(Registry, agents, getAllAgents, canAgentHandleTask).

Lemma filter_split (A : Type) (p : A -> bool) (l : list A) :
  forall (front : list A) (w : A) (back : list A),
    List.filter p l = front ++ w :: back ->
    exists before after,
      l = before ++ w :: after /\
      List.filter p before = front /\
      List.filter p after = back /\
      p w = true.
Proof.
  induction l as [|x l IH]; intros front w back Hl; cbn [List.filter] in Hl.
  - destruct front; discriminate.
  - destruct (p x) eqn:Hx.
    + destruct front as [|y front]; cbn [app] in Hl.
      * injection Hl as -> Hl. exists [], l. auto.
      * injection Hl as -> Hl.
        destruct (IH front w back Hl) as (before & after & -> & Hb & Ha & Hw).
        exists (y :: before), after. cbn [List.filter app].
        rewrite Hx, Hb. auto.
    + destruct (IH front w back Hl) as (before & after & -> & Hb & Ha & Hw).
      exists (x :: before), after. cbn [List.filter app].
      rewrite Hx. auto.
Qed.

(** The loop keeps the earliest agent of highest confidence: [best] leads
    so far, everything [before] it scored strictly less and nothing seen
    since ([mid]) scored more. *)
Lemma double_selection_loop (task : Task) (rest : list IAgent) :
  forall (before : list IAgent) (best : IAgent) (mid : list IAgent),
    (forall a, In a (mid ++ rest) -> isNaN (score task a) = false) ->
    (forall a, In a before -> lt (score task a) (score task best) = true) ->
    (forall a, In a mid -> lt (score task best) (score task a) = false) ->
    exists winner before' after',
      List.fold_left (consider task) rest
                     (Some (calculateAgentTaskMatch best task))
        = Some (calculateAgentTaskMatch winner task) /\
      before ++ best :: mid ++ rest = before' ++ winner :: after' /\
      (forall a, In a before' -> lt (score task a) (score task winner) = true) /\
      (forall a, In a after' -> lt (score task winner) (score task a) = false).
Proof.
  unfold score.
  induction rest as [|x rest IH]; intros before best mid Hnan Hbefore Hmid.
  - exists best, before, mid. rewrite app_nil_r. auto.
  - cbn [List.fold_left consider]. unfold gt.
    destruct (SFltb (confidence (calculateAgentTaskMatch best task))
                    (confidence (calculateAgentTaskMatch x task))) eqn:Hcmp.
    + destruct (IH (before ++ best :: mid) x [])
        as (w & b' & a' & Hf & Hl & Hb & Ha).
      * intros a Hin. apply Hnan. apply in_or_app. right. now right.
      * intros a Hin. apply in_app_or in Hin as [Hin|[<-|Hin]].
        -- eapply number_lt_trans; [apply Hbefore; assumption|exact Hcmp].
        -- exact Hcmp.
        -- eapply number_lt_below; [|apply Hmid; assumption|exact Hcmp].
           apply Hnan. apply in_or_app. now left.
      * intros a [].
      * exists w, b', a'. repeat split; try assumption.
        rewrite <- Hl, <- app_assoc. reflexivity.
    + destruct (IH before best (mid ++ [x]))
        as (w & b' & a' & Hf & Hl & Hb & Ha).
      * intros a Hin. apply Hnan. rewrite <- app_assoc in Hin. exact Hin.
      * assumption.
      * intros a Hin. apply in_app_or in Hin as [Hin|[<-|[]]]; auto.
      * exists w, b', a'. repeat split; try assumption.
        rewrite <- Hl, <- app_assoc. reflexivity.
Qed.

(** C8.  The confidences are the doubles the program computes.
    [findBestAgentForTask] reads nothing but the agent map and the task,
    so two registries holding the same agents give the same answer.  And
    when no candidate's confidence is [NaN], the answer is the first
    agent, in the insertion order of the agent map, among the Active
    agents that can handle the task and have the highest confidence:
    every such agent registered before the winner has a strictly lower
    confidence, and none registered after it has a higher one. *)
Theorem findBestAgentForTask_first_of_the_best
    (r1 r2 : Registry) (task : Task) :
  agents r1 = agents r2 ->
  (forall a, In a (getAllAgents r1) ->
             agentStatus a = ACTIVE -> canAgentHandleTask a task = true ->
             isNaN (score task a) = false) ->
  findBestAgentForTask r1 task = findBestAgentForTask r2 task /\
  match findBestAgentForTask r1 task with
  | None =>
      forall a, In a (getAllAgents r1) -> agentStatus a = ACTIVE ->
                canAgentHandleTask a task = false
  | Some best =>
      best = calculateAgentTaskMatch (matchAgent best) task /\
      agentStatus (matchAgent best) = ACTIVE /\
      canAgentHandleTask (matchAgent best) task = true /\
      exists before after,
        getAllAgents r1 = before ++ matchAgent best :: after /\
        (forall a, In a before ->
           agentStatus a = ACTIVE -> canAgentHandleTask a task = true ->
           lt (score task a) (confidence best) = true) /\
        (forall a, In a after ->
           agentStatus a = ACTIVE -> canAgentHandleTask a task = true ->
           lt (confidence best) (score task a) = false)
  end.
Proof.
  intros Hsame Hnan.
  assert (Hcand : forall a, candidate task a = true <->
                            agentStatus a = ACTIVE /\
                            canAgentHandleTask a task = true).
  { intros a. unfold candidate. rewrite Bool.andb_true_iff.
    destruct (agentStatus a); cbn; intuition congruence. }
  split.
  - unfold findBestAgentForTask, availableAgents, getAllAgents.
    now rewrite Hsame.
  - unfold findBestAgentForTask, availableAgents.
    destruct (List.filter (candidate task) (getAllAgents r1))
      as [|a l] eqn:Havail.
    + cbn [List.length Nat.eqb]. intros x Hin Hactive.
      destruct (canAgentHandleTask x task) eqn:Hcan; [|reflexivity].
      assert (Hx : In x (List.filter (candidate task) (getAllAgents r1))).
      { apply List.filter_In. split; [assumption|]. now apply Hcand. }
      rewrite Havail in Hx. destruct Hx.
    + cbn [List.length Nat.eqb List.fold_left consider].
      assert (Hin : forall x, In x (a :: l) ->
                              In x (getAllAgents r1) /\
                              agentStatus x = ACTIVE /\
                              canAgentHandleTask x task = true).
      { intros x Hx. rewrite <- Havail in Hx.
        apply List.filter_In in Hx as [Hx Hc]. apply Hcand in Hc. tauto. }
      destruct (double_selection_loop task l [] a [])
        as (w & b' & a' & Hf & Hl & Hb & Ha).
      * intros x Hx. destruct (Hin x (or_intror Hx)) as (H1 & H2 & H3). auto.
      * intros x [].
      * intros x [].
      * rewrite Hf. cbn [app] in Hl. rewrite Hl in Havail.
        destruct (filter_split _ _ _ _ _ Havail)
          as (before & after & Hall & Hfb & Hfa & Hw).
        apply Hcand in Hw as [Hactive Hcan].
        cbn [matchAgent calculateAgentTaskMatch confidence].
        split; [reflexivity|]. split; [assumption|]. split; [assumption|].
        exists before, after. split; [assumption|]. split.
        -- intros x Hx Hxa Hxc. apply Hb. rewrite <- Hfb.
           apply List.filter_In. split; [assumption|]. now apply Hcand.
        -- intros x Hx Hxa Hxc. apply Ha. rewrite <- Hfa.
           apply List.filter_In. split; [assumption|]. now apply Hcand.
Qed.

(** Five agents and a task anyone can take: the back-end agent scores
    0.45, the two front-end agents and the QA agent 0.5 each, the stopped
    agent is no candidate.  The first front-end agent wins. *)
Lemma findBestAgentForTask_first_of_the_best_witness :
  findBestAgentForTask DoubleExamples.crowd DoubleExamples.choreTask
  = findBestAgentForTask
      (Examples.registryOf 3
         (getAllAgents DoubleExamples.crowd))
      DoubleExamples.choreTask /\
  match findBestAgentForTask DoubleExamples.crowd DoubleExamples.choreTask with
  | None =>
      forall a, In a (getAllAgents DoubleExamples.crowd) ->
                agentStatus a = ACTIVE ->
                canAgentHandleTask a DoubleExamples.choreTask = false
  | Some best =>
      best = calculateAgentTaskMatch (matchAgent best) DoubleExamples.choreTask /\
      agentStatus (matchAgent best) = ACTIVE /\
      canAgentHandleTask (matchAgent best) DoubleExamples.choreTask = true /\
      exists before after,
        getAllAgents DoubleExamples.crowd = before ++ matchAgent best :: after /\
        (forall a, In a before ->
           agentStatus a = ACTIVE ->
           canAgentHandleTask a DoubleExamples.choreTask = true ->
           lt (score DoubleExamples.choreTask a) (confidence best) = true) /\
        (forall a, In a after ->
           agentStatus a = ACTIVE ->
           canAgentHandleTask a DoubleExamples.choreTask = true ->
           lt (confidence best) (score DoubleExamples.choreTask a) = false)
  end.
Proof.
  apply (@findBestAgentForTask_first_of_the_best
           DoubleExamples.crowd
           (Examples.registryOf 3 (getAllAgents DoubleExamples.crowd))
           DoubleExamples.choreTask).
  - reflexivity.
  - intros a Hin _ _.
    repeat (destruct Hin as [<-|Hin]; [vm_compute; reflexivity|]).
    destruct Hin.
Defined.

(** Who wins in the example, and with what: the first of the three
    agents at 0.5. *)
Lemma crowd_winner :
  option_map (fun best => (agentId (matchAgent best), confidence best))
    (findBestAgentForTask DoubleExamples.crowd DoubleExamples.choreTask)
  = Some ("frontend-001"%string, ofQ (1 # 2)).
Proof.
  vm_compute. reflexivity.
Qed.

(** Equal as rationals, different as doubles: for the feature task the
    two agents of [nearTie] both score 291/500 in exact arithmetic, where
    the first one listed wins; the program computes 0.582 for the first
    and 0.5820000000000001 for the second, and the second wins. *)
Lemma a_tie_of_rationals_need_not_be_a_tie_of_doubles :
  Qeq (AgentRegistry.score Examples.featureTask DoubleExamples.steady)
      (AgentRegistry.score Examples.featureTask DoubleExamples.mixed) /\
  lt (score Examples.featureTask DoubleExamples.steady)
     (score Examples.featureTask DoubleExamples.mixed) = true /\
  score Examples.featureTask DoubleExamples.steady = ofQ (291 # 500) /\
  option_map (fun best => agentId (matchAgent best))
    (findBestAgentForTask DoubleExamples.nearTie Examples.featureTask)
  = Some "frontend-002"%string /\
  option_map (fun best => agentId (AgentRegistry.matchAgent best))
    (AgentRegistry.findBestAgentForTask DoubleExamples.nearTie
       Examples.featureTask)
  = Some "frontend-001"%string.
Proof.
  repeat split; vm_compute; reflexivity.
Qed.

End DoubleSelection.


(** ** The registry: the capability signal *)

Section CapabilitySignal.
Import Types AgentRegistry JsString.
Local Open Scope string_scope.
Local Open Scope Q_scope.

Lemma ofNat_nonneg (n : nat) : 0 <= ofNat n.
Proof.
  unfold ofNat, Qle. simpl. lia.
Qed.

Lemma ofNat_pos (n : nat) : (1 <= n)%nat -> 0 < ofNat n.
Proof.
  unfold ofNat, Qlt. simpl. lia.
Qed.

Lemma calculateCapabilityScore_bounds (agent : IAgent) (task : Task) :
  0 <= calculateCapabilityScore agent task <= 3 # 10.
Proof.
  unfold calculateCapabilityScore.
  destruct (List.length (technicalRequirements task)) as [|n] eqn:Hn;
    cbn [Nat.eqb].
  - split; discriminate.
  - split.
    + apply Q.min_glb; [discriminate|].
      apply Qmult_le_0_compat; [|discriminate].
      apply Qle_shift_div_l.
      * apply ofNat_pos. lia.
      * rewrite Qmult_0_l. apply ofNat_nonneg.
    + apply Q.le_min_l.
Qed.

(** Which capabilities the signal counts. *)
Lemma matchingCapabilities_spec (agent : IAgent) (task : Task) (c : AgentCapability) :
  In c (matchingCapabilities agent task) <->
  In c (agentCapabilities agent) /\
  exists req, In req (taskRequirements task) /\
    exists before rest,
      toLowerCase (reqDescription req) = before ++ toLowerCase (capName c) ++ rest.
Proof.
  unfold matchingCapabilities. rewrite filter_In, existsb_exists.
  split; intros [Hc [req [Hreq Hocc]]]; (split; [assumption|]);
    exists req; (split; [assumption|]); now apply includes_occurs.
Qed.

Lemma Counts_filter (A : Type) (P : A -> Prop) (p : A -> bool) (l : list A) :
  (forall x, p x = true <-> P x) ->
  Counts P l (List.length (List.filter p l)).
Proof.
  intros Hp. induction l as [|x l IH]; cbn [List.filter]; [constructor|].
  destruct (p x) eqn:Hx.
  - cbn [List.length]. apply CountsYes; [now apply Hp|assumption].
  - apply CountsNo; [|assumption].
    intros HP. apply Hp in HP. congruence.
Qed.

Lemma Counts_unique (A : Type) (P : A -> Prop) (l : list A) (k k' : nat) :
  Counts P l k -> Counts P l k' -> k = k'.
Proof.
  intros Hk. revert k'.
  induction Hk as [|x l k Hx Hk IH|x l k Hx Hk IH]; intros k' Hk';
    inversion Hk'; subst; auto; contradiction.
Qed.

(** C6, as the code has it.  Let [m] be the number of the agent's
    capabilities whose name occurs, regardless of case, in the description
    of some requirement of the task, technical or not, and [n] the number
    of technical requirements of the task.  The signal is the flat 0.2
    when [n = 0] and [min(0.3, (m/n) * 0.3)] otherwise; and these counts
    exist and are the only ones. *)
Theorem capability_signal_counts_capabilities (agent : IAgent) (task : Task) :
  (exists m n,
     Counts (mentionedBy task) (agentCapabilities agent) m /\
     Counts technical (taskRequirements task) n) /\
  (forall m n,
     Counts (mentionedBy task) (agentCapabilities agent) m ->
     Counts technical (taskRequirements task) n ->
     calculateCapabilityScore agent task = amendedSignal m n) /\
  0 <= calculateCapabilityScore agent task <= 3 # 10.
Proof.
  assert (Hm : Counts (mentionedBy task) (agentCapabilities agent)
                 (List.length (matchingCapabilities agent task))).
  { apply Counts_filter. intros c. rewrite List.existsb_exists.
    unfold mentionedBy, occursIn.
    split; intros [req [Hreq Hocc]]; exists req; (split; [assumption|]);
      now apply includes_occurs. }
  assert (Hn : Counts technical (taskRequirements task)
                 (List.length (technicalRequirements task))).
  { apply Counts_filter. intros req. unfold technical.
    destruct (reqType req); cbn; split; congruence. }
  split; [|split].
  - eauto.
  - intros m n Hm' Hn'.
    rewrite (Counts_unique Hm' Hm), (Counts_unique Hn' Hn).
    unfold calculateCapabilityScore, amendedSignal, ofNat.
    now destruct (List.length (technicalRequirements task)).
  - apply calculateCapabilityScore_bounds.
Qed.

(** C6, refuted as stated.  Capabilities "java" and "script" against the
    technical requirements "javascript" and "python": the code counts two
    capabilities over two requirements and answers 0.3, where the count of
    matched technical requirements gives 0 (no capability name contains
    "javascript") or, reading the containment the other way, 0.15. *)
Lemma capability_signal_is_not_requirement_coverage :
  calculateCapabilityScore Examples.polyglot Examples.twoRequirements == 3 # 10 /\
  specCoverage requirementMatched Examples.polyglot Examples.twoRequirements == 0 /\
  specCoverage requirementMentions Examples.polyglot Examples.twoRequirements
    == 15 # 100 /\
  ~ calculateCapabilityScore Examples.polyglot Examples.twoRequirements
    == specCoverage requirementMatched Examples.polyglot Examples.twoRequirements /\
  ~ calculateCapabilityScore Examples.polyglot Examples.twoRequirements
    == specCoverage requirementMentions Examples.polyglot Examples.twoRequirements.
Proof.
  repeat split; try (vm_compute; reflexivity);
    intros H; vm_compute in H; discriminate H.
Qed.

End CapabilitySignal.

(** ** The registry: scenario A *)

Section ScenarioA.
Import Types AgentRegistry JsString.
Local Open Scope string_scope.
Local Open Scope Q_scope.

Variables (task : Task) (req : TaskRequirement).
Hypothesis task_is_feature : taskType task = FEATURE.
Hypothesis task_requires : taskRequirements task = [req].
Hypothesis req_technical : reqType req = Technical.
Hypothesis req_javascript : reqDescription req = "javascript".

Lemma one_technical_requirement : technicalRequirements task = [req].
Proof.
  unfold technicalRequirements. rewrite task_requires. simpl.
  now rewrite req_technical.
Qed.

(** No role has a keyword that occurs in "feature". *)
Lemma no_role_bonus_for_feature (role : AgentRole) :
  getRoleTaskBonus role (taskTypeValue (taskType task)) = 0.
Proof.
  rewrite task_is_feature. destruct role; reflexivity.
Qed.

(** An Active agent without metrics scores at most 0.6 on the task. *)
Lemma score_at_most_six_tenths (a : IAgent) :
  agentStatus a = ACTIVE -> agentMetrics a = None -> score task a <= 6 # 10.
Proof.
  intros Hs Hm. unfold score, calculateAgentTaskMatch. cbn [confidence].
  rewrite no_role_bonus_for_feature.
  unfold calculateLoadScore, calculatePerformanceScore. rewrite Hs, Hm.
  eapply Qle_trans; [apply Q.le_min_r|].
  destruct (calculateCapabilityScore_bounds a task) as [_ Hcap].
  setoid_replace (6 # 10) with (0 + 0 + (3 # 10) + (2 # 10) + (1 # 10))
    by reflexivity.
  repeat apply Qplus_le_compat; try apply Qle_refl. exact Hcap.
Qed.

(** An Active agent without metrics that has a capability named
    "javascript" is a candidate and scores exactly 0.6. *)
Lemma javascript_agent_scores_six_tenths (a : IAgent) (c : AgentCapability) :
  agentStatus a = ACTIVE -> agentMetrics a = None ->
  In c (agentCapabilities a) -> capName c = "javascript" ->
  canAgentHandleTask a task = true /\ score task a == 6 # 10.
Proof.
  intros Hs Hm Hin Hname. split.
  - unfold canAgentHandleTask. rewrite one_technical_requirement. simpl.
    rewrite andb_true_r. apply existsb_exists. exists c. split; [assumption|].
    now rewrite Hname, req_javascript.
  - assert (Hcap : calculateCapabilityScore a task == 3 # 10).
    { apply Qle_antisym; [apply calculateCapabilityScore_bounds|].
      unfold calculateCapabilityScore. rewrite one_technical_requirement.
      cbn [List.length Nat.eqb].
      apply Q.min_glb; [apply Qle_refl|].
      assert (Hm1 : (1 <= List.length (matchingCapabilities a task))%nat).
      { assert (Hc : In c (matchingCapabilities a task)).
        { unfold matchingCapabilities. apply filter_In. split; [assumption|].
          rewrite task_requires. simpl.
          now rewrite Hname, req_javascript. }
        destruct (matchingCapabilities a task); [contradiction|simpl; lia]. }
      unfold ofNat, Qle, Qdiv, Qmult, Qinv. simpl. lia. }
    unfold score, calculateAgentTaskMatch. cbn [confidence].
    rewrite no_role_bonus_for_feature.
    unfold calculateLoadScore, calculatePerformanceScore. rewrite Hs, Hm.
    assert (Ht : 0 + 0 + calculateCapabilityScore a task + (2 # 10) + (1 # 10)
                 == 6 # 10) by (rewrite Hcap; reflexivity).
    rewrite Q.min_r; [exact Ht|]. rewrite Ht. discriminate.
Qed.

(** Once an agent leads, agents that score no more never replace it. *)
Lemma leader_stays (leader : IAgent) (l : list IAgent) :
  (forall a, In a l -> score task a <= score task leader) ->
  List.fold_left (consider task) l (Some (calculateAgentTaskMatch leader task))
    = Some (calculateAgentTaskMatch leader task).
Proof.
  induction l as [|x l IH]; intros Hl; [reflexivity|].
  cbn [List.fold_left consider].
  replace (greater (confidence (calculateAgentTaskMatch x task))
                   (confidence (calculateAgentTaskMatch leader task)))
    with false.
  - apply IH. intros a Ha. apply Hl. now right.
  - symmetry. apply greater_false. apply (Hl x). now left.
Qed.

End ScenarioA.

Section ScenarioATheorem.
Import Types AgentRegistry JsString.
Local Open Scope string_scope.
Local Open Scope Q_scope.

(** C7, as the code has it.  Three Active agents of roles frontend,
    backend and qa, registered in that order and without metrics, the
    frontend agent having a capability named "javascript"; a task of type
    "feature" with the one technical requirement "javascript".  The
    frontend agent is selected with confidence exactly 0.6: no role
    affinity (no frontend keyword occurs in "feature"), 0.3 capability
    coverage, 0.2 load and 0.1 default performance. *)
Theorem scenarioA_frontend_wins_with_six_tenths
    (r : Registry) (fe be qa : IAgent) (c : AgentCapability)
    (task : Task) (req : TaskRequirement) :
  taskType task = FEATURE ->
  taskRequirements task = [req] ->
  reqType req = Technical ->
  reqDescription req = "javascript" ->
  getAllAgents r = [fe; be; qa] ->
  agentRole fe = FRONTEND -> agentRole be = BACKEND -> agentRole qa = QA ->
  agentStatus fe = ACTIVE -> agentStatus be = ACTIVE -> agentStatus qa = ACTIVE ->
  agentMetrics fe = None -> agentMetrics be = None -> agentMetrics qa = None ->
  In c (agentCapabilities fe) -> capName c = "javascript" ->
  exists best,
    findBestAgentForTask r task = Some best /\
    matchAgent best = fe /\
    confidence best == 6 # 10.
Proof.
  intros Htype Hreqs Htech Hdesc Hall _ _ _ Hsf Hsb Hsq Hmf Hmb Hmq Hin Hname.
  destruct (@javascript_agent_scores_six_tenths task req Htype Hreqs Htech
              Hdesc fe c Hsf Hmf Hin Hname) as [Hcan Hscore].
  exists (calculateAgentTaskMatch fe task). split; [|split].
  - unfold findBestAgentForTask, availableAgents. rewrite Hall.
    set (f := fun agent : IAgent =>
                statusEqb (agentStatus agent) ACTIVE
                && canAgentHandleTask agent task).
    assert (Hf : List.filter f [fe; be; qa] = fe :: List.filter f [be; qa]).
    { change (List.filter f [fe; be; qa])
        with (if f fe then fe :: List.filter f [be; qa]
              else List.filter f [be; qa]).
      unfold f at 1. now rewrite Hsf, Hcan. }
    rewrite Hf. cbn [List.length Nat.eqb List.fold_left consider].
    apply leader_stays. intros a Ha.
    apply filter_In in Ha as [Ha _].
    rewrite Hscore.
    destruct Ha as [<-|[<-|[]]];
      now apply (@score_at_most_six_tenths task Htype).
  - reflexivity.
  - exact Hscore.
Qed.

End ScenarioATheorem.

Section ScenarioAConcrete.
Import Types AgentRegistry.
Local Open Scope Q_scope.

(** The agents and the task of the scenario, with the capabilities a
    [DevelopmentAgent] of each role has. *)
Lemma scenarioA_frontend_wins_with_six_tenths_witness :
  exists best,
    findBestAgentForTask Examples.scenarioA Examples.featureTask = Some best /\
    matchAgent best = Examples.frontendAgent /\
    confidence best == 6 # 10.
Proof.
  apply (@scenarioA_frontend_wins_with_six_tenths
           Examples.scenarioA
           Examples.frontendAgent Examples.backendAgent Examples.qaAgent
           (Examples.capability "javascript" 8)
           Examples.featureTask
           (Examples.requirement "javascript" Technical));
    try reflexivity.
  simpl. tauto.
Defined.

(** C7, refuted as stated: in the scenario the frontend agent is selected,
    but its confidence is 0.6 and not 0.9. *)
Lemma scenarioA_confidence_is_not_nine_tenths :
  exists best,
    findBestAgentForTask Examples.scenarioA Examples.featureTask = Some best /\
    matchAgent best = Examples.frontendAgent /\
    getRoleTaskBonus FRONTEND "feature" == 0 /\
    confidence best == 6 # 10 /\
    ~ confidence best == 9 # 10.
Proof.
  eexists. split; [vm_compute; reflexivity|].
  repeat split; try (vm_compute; reflexivity).
  intros H; vm_compute in H; discriminate H.
Qed.

(** With the metrics object every [BaseAgent] is constructed with, the
    performance signal is 0.085 instead of the default 0.1, and the
    frontend agent is selected with confidence 0.585. *)
Lemma scenarioA_with_constructor_metrics :
  exists best,
    findBestAgentForTask Examples.scenarioAStarted Examples.featureTask
      = Some best /\
    matchAgent best = Examples.withConstructorMetrics Examples.frontendAgent /\
    calculatePerformanceScore (matchAgent best) == 85 # 1000 /\
    confidence best == 585 # 1000.
Proof.
  eexists. split; [vm_compute; reflexivity|].
  repeat split; vm_compute; reflexivity.
Qed.

End ScenarioAConcrete.

(** ** The agent: executing a task *)

Section ExecuteTask.
Import Types BaseAgent.
Local Open Scope Z_scope.

(** One call of [executeTask], whole: it always returns, and what it
    returns, the agent it leaves and the events it emits are determined by
    the outcome of the guarded body. *)
Lemma executeTask_outcome (sub : Subclass) (task : Task) (w : World) :
  forall outcome a t,
    guardedBody sub task w = (outcome, (a, t)) ->
    let result := resultOf task outcome (clock w) t in
    executeTask sub task w =
      (Js.Normal result,
       {| self := settled a t result;
          clock := t;
          bus := bus w ++ eventsOf sub task w outcome a result |}).
Proof.
  intros outcome a t Hbody result. subst result.
  unfold guardedBody in Hbody.
  unfold eventsOf, settled, resultOf.
  unfold executeTask, Js.bind, Js.tryCatch, now, Js.gets, updateStatus,
    updateMetrics, updateLastActivity, onSelf, emit, callPerformTask,
    Js.modify, Js.when, Js.throw, Js.ret, now, Js.bind, Js.gets.
  cbn [self clock bus fst snd].
  destruct (statusEqb (status (self w)) BUSY) eqn:Hbusy;
    cbn [negb self clock bus];
    change (withCurrentTask (Some task)
              (touch (clock w) (withStatus BUSY (self w))))
      with (entered task w);
    (destruct (canHandleTask sub (entered task w) task) eqn:Hcan;
     cbn [negb self clock bus];
     [ rewrite Hbody; destruct outcome as [r|e]
     | injection Hbody as <- <- <- ]);
    cbn [self clock bus status statusEqb negb withStatus withCurrentTask
         withMetrics touch entered id app];
    try (destruct (statusEqb (status a) ACTIVE) eqn:Hactive);
    cbn [self clock bus status statusEqb negb withStatus withCurrentTask
         withMetrics touch entered id app];
    rewrite <- ?app_assoc; cbn [app];
    reflexivity.
Qed.

(** C2.  An Active agent is given a task whose body throws [e], leaving
    the agent in state [a] at time [t].  [executeTask] does not reject: it
    returns a result with [success = false], with the thrown error's
    message (its text, for a thrown value that is no [Error]) in [error]
    and with the time measured since the call began as [duration]; the
    agent is then Active and has no current task. *)
Theorem executeTask_converts_a_throwing_body
    (sub : Subclass) (task : Task) (w : World)
    (e : Js.Thrown) (a : Agent) (t : Z) :
  status (self w) = ACTIVE ->
  canHandleTask sub (entered task w) task = true ->
  performTask sub task (entered task w, clock w) = (Js.Throws e, (a, t)) ->
  exists result w',
    executeTask sub task w = (Js.Normal result, w') /\
    resSuccess result = false /\
    resError result = Some (Js.errorText e) /\
    resDuration result = t - clock w /\
    status (self w') = ACTIVE /\
    currentTask (self w') = None.
Proof.
  intros _ Hcan Hbody.
  assert (Hguarded : guardedBody sub task w = (Js.Throws e, (a, t)))
    by (unfold guardedBody; now rewrite Hcan).
  eexists. eexists. split.
  - apply (@executeTask_outcome sub task w _ _ _ Hguarded).
  - repeat split.
Qed.

(** C9, as the code has it.  Whatever the agent's status when
    [executeTask] is called, the call returns; it runs the task body
    exactly when [canHandleTask] accepts the task; and it leaves the agent
    Active with no current task, whether the task succeeded or not. *)
Theorem executeTask_from_any_status
    (sub : Subclass) (task : Task) (w : World) :
  exists result w' emitted,
    executeTask sub task w = (Js.Normal result, w') /\
    status (self w') = ACTIVE /\
    currentTask (self w') = None /\
    bus w' = bus w ++ emitted /\
    (In (PerformTaskCalled (taskId task)) emitted <->
     canHandleTask sub (entered task w) task = true).
Proof.
  destruct (guardedBody sub task w) as [outcome [a t]] eqn:Hguarded.
  eexists. eexists. eexists. split; [|split; [|split; [|split]]].
  - apply (@executeTask_outcome sub task w _ _ _ Hguarded).
  - reflexivity.
  - reflexivity.
  - reflexivity.
  - unfold eventsOf.
    destruct (canHandleTask sub (entered task w) task).
    + split; [reflexivity|]. intros _.
      apply in_or_app. right. apply in_or_app. right.
      apply in_or_app. left. now left.
    + split; [|discriminate]. intros Hin.
      repeat (apply in_app_or in Hin as [Hin|Hin]);
        repeat match goal with
               | H : In _ (if ?b then _ else _) |- _ => destruct b
               | H : In _ (_ :: _) |- _ => destruct H as [H|H]
               | H : In _ [] |- _ => destruct H
               end;
        try discriminate.
      destruct outcome; discriminate.
Qed.

End ExecuteTask.

Section ExecuteTaskConcrete.
Import Types BaseAgent.
Local Open Scope string_scope.
Local Open Scope Z_scope.

(** A feature task whose body throws "disk full" after five milliseconds. *)
Lemma executeTask_converts_a_throwing_body_witness :
  exists result w',
    executeTask Examples.throwingAgent (Examples.task "t1" FEATURE 10 [])
                (Examples.agentWorld ACTIVE) = (Js.Normal result, w') /\
    resSuccess result = false /\
    resError result = Some "disk full" /\
    resDuration result = 5 /\
    status (self w') = ACTIVE /\
    currentTask (self w') = None.
Proof.
  exact (@executeTask_converts_a_throwing_body
           Examples.throwingAgent (Examples.task "t1" FEATURE 10 [])
           (Examples.agentWorld ACTIVE) (Js.ErrorObject "disk full")
           (entered (Examples.task "t1" FEATURE 10 []) (Examples.agentWorld ACTIVE))
           1005 eq_refl eq_refl eq_refl).
Defined.

(** C9, refuted as stated: an Inactive [DevelopmentAgent] is handed a task
    of type "test", which its [canHandleTask] rejects.  The call returns a
    failed result and leaves the agent Active, but the task body was never
    run. *)
Lemma executeTask_skips_the_body_of_an_unsupported_task :
  exists result w',
    executeTask Examples.scriptedAgent Examples.testTask
                (Examples.agentWorld INACTIVE) = (Js.Normal result, w') /\
    resSuccess result = false /\
    resError result = Some "Agent frontend-001 cannot handle task of type test" /\
    status (self w') = ACTIVE /\
    ~ In (PerformTaskCalled "t9") (bus w').
Proof.
  eexists. eexists. split; [vm_compute; reflexivity|].
  repeat split.
  cbn. intros H.
  repeat (destruct H as [H|H]; [discriminate H|]). exact H.
Qed.

(** C5, on one success followed by two failures (durations 10, 20 and 30):
    the agent reports a success rate of 1/2 and an average duration of
    22.5, where one success in three attempts is 1/3 and the mean of the
    three durations is 20.  [updateMetrics] takes the number of successes
    plus the current failure for the total, so earlier failures are not
    counted. *)
Theorem metrics_forget_earlier_failures :
  exists results w',
    executeAll Examples.scriptedAgent Examples.threeTasks
               (Examples.agentWorld ACTIVE) = (Js.Normal results, w') /\
    List.map resSuccess results = [true; false; false] /\
    List.map resDuration results = [10; 20; 30] /\
    (successRate (metrics (self w')) == 1 # 2)%Q /\
    (specSuccessRate results == 1 # 3)%Q /\
    (averageTaskDuration (metrics (self w')) == 45 # 2)%Q /\
    (specAverageDuration results == 20)%Q.
Proof.
  eexists. eexists. split; [vm_compute; reflexivity|].
  repeat split; vm_compute; reflexivity.
Qed.

End ExecuteTaskConcrete.

(** ** The agent: rolling metrics *)

Section Metrics.
Import Types BaseAgent.
Local Open Scope Q_scope.

(** After a failure the total is the number of successes plus one,
    however many failures came before. *)
Lemma updatedMetrics_after_failure (m : AgentMetrics) (r : TaskResult) :
  resSuccess r = false ->
  (0 <= tasksCompleted m)%Z ->
  tasksCompleted (updatedMetrics m r) = tasksCompleted m /\
  successRate (updatedMetrics m r)
    = inject_Z (tasksCompleted m) / inject_Z (tasksCompleted m + 1).
Proof.
  intros Hfail Hpos. unfold updatedMetrics. rewrite Hfail.
  cbn [tasksCompleted successRate]. split; [reflexivity|].
  destruct (Z.gtb_spec (tasksCompleted m + 1) 0); [reflexivity|lia].
Qed.

End Metrics.

(** ** The worktree manager *)

Section Worktrees.
Import WorktreeManager.
Local Open Scope Z_scope.

(** Removing a directory never throws and touches neither the map nor the
    collaborators' behaviour; once the git client is loaded, the git
    command is the first thing sent out. *)
Lemma removeWorktreeDirectory_returns (path : string) (w : World) :
  exists r w' sent,
    removeWorktreeDirectory path w = (Js.Normal r, w') /\
    worktrees w' = worktrees w /\ host w' = host w /\
    events w' = events w /\ duration r = 0 /\
    calls w' = calls w ++ sent /\
    (importSimpleGit (host w) = None ->
     exists rest, sent = GitWorktreeRemoveForce path :: rest).
Proof.
  unfold removeWorktreeDirectory, loadGitClient, external, existsSync.
  unfold_effects.
  destruct (importSimpleGit (host w)); cbn;
    [ eexists; eexists; exists []
    | destruct (gitWorktreeRemove (host w) path); cbn;
      [ destruct (List.existsb (String.eqb path) (directories w)); cbn;
        [ destruct (fsRm (host w) path); cbn;
          eexists; eexists; exists [GitWorktreeRemoveForce path; FsRmRecursive path]
        | eexists; eexists; exists [GitWorktreeRemoveForce path] ]
      | eexists; eexists; exists [GitWorktreeRemoveForce path] ] ];
    repeat split; cbn; rewrite <- ?app_assoc, ?app_nil_r;
    try reflexivity; try discriminate; eauto.
Qed.

(** Every outcome of [removeWorktreeForAgent]. *)
Lemma removeWorktreeForAgent_cases (agentId : string) (w : World) :
  exists r w' sent,
    removeWorktreeForAgent agentId w = (Js.Normal r, w') /\
    duration r = clock w' - clock w /\
    host w' = host w /\
    worktrees w' =
      (if success r then JsMap.delete (worktrees w) agentId else worktrees w) /\
    calls w' = calls w ++ sent /\
    match JsMap.get (worktrees w) agentId with
    | None => success r = false /\ error r = Some (notFoundMessage agentId)
    | Some wt =>
        importSimpleGit (host w) = None ->
        exists rest, sent = GitWorktreeRemoveForce (wtPath wt) :: rest
    end.
Proof.
  unfold removeWorktreeForAgent, Js.bind, Js.tryCatch, now, Js.gets.
  destruct (JsMap.get (worktrees w) agentId) as [wt|] eqn:Hget.
  - destruct (removeWorktreeDirectory_returns (wtPath wt) w)
      as (r & w1 & sent & Hrm & Hmap & Hhost & _ & _ & Hcalls & Hfirst).
    rewrite Hrm.
    unfold Js.when, withWorktrees, emit, Js.modify, Js.ret, Js.bind, withDuration.
    destruct (success r) eqn:Hs; cbn; eexists; eexists; exists sent;
      repeat split; cbn; rewrite ?Hs, ?Hmap, ?Hhost; try reflexivity;
      assumption.
  - cbn. eexists; eexists; exists []. rewrite app_nil_r. repeat split.
Qed.

(** C10.  [removeWorktreeForAgent] never throws: for every agent id it
    returns a result whose [duration] is the time the call took.  The map
    loses the agent's entry exactly when the result has [success = true]
    and is unchanged otherwise; when no worktree is registered for the id
    the result has [success = false] and the "No worktree found" message. *)
Theorem removeWorktreeForAgent_never_throws (agentId : string) (w : World) :
  exists r w',
    removeWorktreeForAgent agentId w = (Js.Normal r, w') /\
    duration r = clock w' - clock w /\
    worktrees w' =
      (if success r then JsMap.delete (worktrees w) agentId else worktrees w) /\
    match JsMap.get (worktrees w) agentId with
    | None =>
        success r = false /\
        error r = Some (notFoundMessage agentId) /\
        worktrees w' = worktrees w
    | Some _ => True
    end.
Proof.
  destruct (removeWorktreeForAgent_cases agentId w)
    as (r & w' & sent & Hrun & Hd & _ & Hmap & _ & Hnone).
  exists r, w'. repeat split; try assumption.
  destruct (JsMap.get (worktrees w) agentId); [exact I|].
  destruct Hnone as [Hs He]. repeat split; try assumption.
  now rewrite Hmap, Hs.
Qed.

(** One turn of the clean-up loop never reaches its [catch] block: it
    returns, and the map is as before or has lost the entry visited.  For
    an entry strictly older than the threshold and still registered, the
    git command to remove its directory is sent. *)
Lemma cleanupEntry_cases (started : Z) (agentId : string) (wt : WorktreeInfo)
    (w : World) :
  exists w' sent,
    cleanupEntry started (agentId, wt) w = (Js.Normal tt, w') /\
    host w' = host w /\
    calls w' = calls w ++ sent /\
    (worktrees w' = worktrees w \/
     (started - wtLastActivity wt > staleThreshold /\
      worktrees w' = JsMap.delete (worktrees w) agentId)) /\
    (started - wtLastActivity wt > staleThreshold ->
     JsMap.get (worktrees w) agentId = Some wt ->
     importSimpleGit (host w) = None ->
     exists rest, sent = GitWorktreeRemoveForce (wtPath wt) :: rest).
Proof.
  unfold cleanupEntry.
  destruct (Z.gtb_spec (started - wtLastActivity wt) staleThreshold) as [Hstale|Hfresh].
  - destruct (removeWorktreeForAgent_cases agentId w)
      as (r & w' & sent & Hrun & _ & Hhost & Hmap & Hcalls & Hfirst).
    unfold Js.tryCatch, Js.bind, Js.ret. rewrite Hrun.
    exists w', sent. repeat split; try assumption.
    + destruct (success r); [right; split; [lia|assumption] | now left].
    + intros _ Hget Himport. rewrite Hget in Hfirst. auto.
  - exists w, []. rewrite app_nil_r. repeat split; [now left | lia].
Qed.

Lemma in_delete (m : JsMap.t WorktreeInfo) (k k' : string) (v : WorktreeInfo) :
  In (k, v) (JsMap.delete m k') -> In (k, v) m.
Proof.
  induction m as [|[k0 v0] m IH]; simpl; [tauto|].
  destruct (String.eqb k0 k'); simpl; tauto.
Qed.

(** The loop over any list of entries returns, and every record in the
    map afterwards was in the map before, unchanged. *)
Lemma cleanupLoop_keeps_records (started : Z)
    (entries : list (string * WorktreeInfo)) :
  forall w, exists w' sent,
    Js.forOf entries (cleanupEntry started) w = (Js.Normal tt, w') /\
    host w' = host w /\
    calls w' = calls w ++ sent /\
    forall k v, In (k, v) (worktrees w') -> In (k, v) (worktrees w).
Proof.
  induction entries as [|[agentId wt] entries IH]; intros w.
  - exists w, []. rewrite app_nil_r. repeat split. auto.
  - cbn [Js.forOf]. unfold Js.bind.
    destruct (cleanupEntry_cases started agentId wt w)
      as (w1 & sent & Hrun & Hhost & Hsent & Hmap & _).
    rewrite Hrun. destruct (IH w1) as (w' & more & Hloop & Hh & Hcalls & Hkeep).
    exists w', (sent ++ more). repeat split; try assumption.
    + congruence.
    + now rewrite Hcalls, Hsent, app_assoc.
    + intros k v Hin. apply Hkeep in Hin.
      destruct Hmap as [->|[_ ->]] in Hin; [assumption|].
      eapply in_delete; eassumption.
Qed.

(** [cleanupStaleWorktrees] never rewrites a record: whatever is in the
    map afterwards was there before with the same fields, so no record
    becomes [Corrupted] through it. *)
Lemma cleanupStaleWorktrees_keeps_records (w : World) :
  exists w',
    cleanupStaleWorktrees w = (Js.Normal tt, w') /\
    forall k v, In (k, v) (worktrees w') -> In (k, v) (worktrees w).
Proof.
  unfold cleanupStaleWorktrees, Js.bind, now, Js.gets, JsMap.entries.
  destruct (cleanupLoop_keeps_records (clock w) (worktrees w) w)
    as (w' & _ & Hloop & _ & _ & Hkeep).
  exists w'. split; assumption.
Qed.

(** The loop leaves alone every entry that is not strictly older than the
    threshold. *)
Lemma cleanupLoop_spares_recent (started : Z) (agentId : string)
    (wt : WorktreeInfo) (entries : list (string * WorktreeInfo)) :
  started - wtLastActivity wt <= staleThreshold ->
  (forall v, In (agentId, v) entries -> v = wt) ->
  forall w,
    JsMap.get (worktrees w) agentId = Some wt ->
    exists w',
      Js.forOf entries (cleanupEntry started) w = (Js.Normal tt, w') /\
      JsMap.get (worktrees w') agentId = Some wt.
Proof.
  intros Hrecent.
  induction entries as [|[k v] entries IH]; intros Hsame w Hget.
  - exists w. split; [reflexivity|assumption].
  - cbn [Js.forOf]. unfold Js.bind.
    destruct (cleanupEntry_cases started k v w)
      as (w1 & _ & Hrun & _ & _ & Hmap & _).
    rewrite Hrun.
    apply IH.
    + intros v' Hin. apply Hsame. now right.
    + destruct Hmap as [->|[Hstale ->]]; [assumption|].
      rewrite get_delete_other; [assumption|].
      intros ->. rewrite (Hsame v) in Hstale by now left. lia.
Qed.

(** [cleanupStaleWorktrees] never removes a worktree whose last activity
    lies within the last twenty-four hours. *)
Lemma cleanupStaleWorktrees_spares_recent (w : World) (agentId : string)
    (wt : WorktreeInfo) :
  JsMap.wf (worktrees w) ->
  JsMap.get (worktrees w) agentId = Some wt ->
  clock w - wtLastActivity wt <= staleThreshold ->
  exists w',
    cleanupStaleWorktrees w = (Js.Normal tt, w') /\
    JsMap.get (worktrees w') agentId = Some wt.
Proof.
  intros Hwf Hget Hrecent.
  unfold cleanupStaleWorktrees, Js.bind, now, Js.gets, JsMap.entries.
  apply cleanupLoop_spares_recent; try assumption.
  intros v Hin. apply in_get in Hin; [congruence | exact Hwf].
Qed.

(** The loop sends the git command for every entry strictly older than the
    threshold, provided the git client can be loaded. *)
Lemma cleanupLoop_attempts_stale (started : Z) (agentId : string)
    (wt : WorktreeInfo) (entries : list (string * WorktreeInfo)) :
  started - wtLastActivity wt > staleThreshold ->
  NoDup (List.map fst entries) ->
  In (agentId, wt) entries ->
  forall w,
    importSimpleGit (host w) = None ->
    JsMap.get (worktrees w) agentId = Some wt ->
    exists w',
      Js.forOf entries (cleanupEntry started) w = (Js.Normal tt, w') /\
      In (GitWorktreeRemoveForce (wtPath wt)) (calls w').
Proof.
  intros Hstale.
  induction entries as [|[k v] entries IH]; intros Hnd Hin w Himport Hget;
    [contradiction|].
  cbn [Js.forOf]. unfold Js.bind.
  destruct (cleanupEntry_cases started k v w)
    as (w1 & sent & Hrun & Hhost & Hsent & Hmap & Hfirst).
  rewrite Hrun. inversion Hnd as [|? ? Hnotin Hnd']; subst.
  destruct Hin as [Heq|Hin].
  - injection Heq as -> ->.
    destruct (Hfirst Hstale Hget Himport) as [rest ->].
    destruct (cleanupLoop_keeps_records started entries w1)
      as (w' & more & Hloop & _ & Hcalls & _).
    exists w'. split; [assumption|].
    rewrite Hcalls, Hsent. apply in_or_app. left.
    apply in_or_app. right. now left.
  - apply IH; try assumption.
    + congruence.
    + assert (Hne : k <> agentId).
      { intros ->. apply Hnotin.
        change agentId with (fst (agentId, wt)). now apply in_map. }
      destruct Hmap as [->|[_ ->]]; [assumption|].
      now rewrite get_delete_other.
Qed.

(** [cleanupStaleWorktrees] attempts the removal of every worktree whose
    inactivity strictly exceeds twenty-four hours. *)
Lemma cleanupStaleWorktrees_attempts_stale (w : World) (agentId : string)
    (wt : WorktreeInfo) :
  JsMap.wf (worktrees w) ->
  JsMap.get (worktrees w) agentId = Some wt ->
  clock w - wtLastActivity wt > staleThreshold ->
  importSimpleGit (host w) = None ->
  exists w',
    cleanupStaleWorktrees w = (Js.Normal tt, w') /\
    In (GitWorktreeRemoveForce (wtPath wt)) (calls w').
Proof.
  intros Hwf Hget Hstale Himport.
  unfold cleanupStaleWorktrees, Js.bind, now, Js.gets, JsMap.entries.
  apply cleanupLoop_attempts_stale with (agentId := agentId);
    try assumption.
  now apply get_in.
Qed.

(** C4, on a worktree idle for twenty-five hours whose removal fails (the
    git command and the recursive delete both reject).  The removal is
    attempted and the record stays in the map, but its status is still
    [Active]: [removeWorktreeForAgent] reports the failure in its result
    instead of throwing, so the [catch] block that would mark the record
    [Corrupted] is never entered. *)
Theorem stale_worktree_is_not_marked_corrupted :
  exists w',
    cleanupStaleWorktrees Examples.stubbornWorld = (Js.Normal tt, w') /\
    calls w' = [GitWorktreeRemoveForce "/repo/worktrees/agent-a1";
                FsRmRecursive "/repo/worktrees/agent-a1"] /\
    JsMap.get (worktrees w') "a1" = Some Examples.staleWorktree /\
    wtStatus Examples.staleWorktree = Active.
Proof.
  eexists. split; [vm_compute; reflexivity|].
  repeat split.
Qed.

End Worktrees.

(** ** The conflict parser *)

Section ConflictParser.
Import JsString ConflictResolver.
Local Open Scope string_scope.
Local Open Scope Z_scope.

Lemma separator_is_not_opening (line : string) :
  startsWith line "=======" = true -> startsWith line "<<<<<<<" = false.
Proof.
  unfold startsWith. intros H. apply prefix_split in H as [rest ->].
  reflexivity.
Qed.

Lemma closing_is_no_other_marker (line : string) :
  startsWith line ">>>>>>>" = true ->
  startsWith line "<<<<<<<" = false /\ startsWith line "=======" = false.
Proof.
  unfold startsWith. intros H. apply prefix_split in H as [rest ->].
  split; reflexivity.
Qed.

Lemma plain_markers (line : string) :
  plain line = true ->
  startsWith line "<<<<<<<" = false /\ startsWith line "=======" = false
  /\ startsWith line ">>>>>>>" = false.
Proof.
  unfold plain. rewrite !andb_true_iff, !negb_true_iff. tauto.
Qed.

Lemma joinLines_app (l1 l2 : list string) :
  joinLines (l1 ++ l2) = joinLines l1 ++ joinLines l2.
Proof.
  induction l1 as [|x l1 IH]; simpl; [reflexivity|].
  rewrite IH. now rewrite !append_assoc.
Qed.

(** Outside a region plain lines only advance the line counter. *)
Lemma scan_plain_outside (lines : list string) :
  forall secs n,
    List.forallb plain lines = true ->
    List.fold_left scanLine lines
      {| found := secs; currentConflict := None; lineNumber := n |}
    = {| found := secs; currentConflict := None; lineNumber := n + count lines |}.
Proof.
  induction lines as [|line lines IH]; intros secs n Hplain.
  - unfold count. simpl. now rewrite Z.add_0_r.
  - simpl in Hplain. apply andb_true_iff in Hplain as [Hline Hrest].
    destruct (plain_markers _ Hline) as (Ho & Hs & Hc).
    cbn [List.fold_left]. unfold scanLine at 2.
    cbn [found currentConflict lineNumber].
    rewrite Ho, Hs, Hc. cbn [andb isSome].
    rewrite IH by assumption. f_equal. unfold count. cbn [List.length]. lia.
Qed.

(** Inside a region, and whether or not the separator has been passed,
    plain lines are appended to [ours]. *)
Lemma scan_plain_inside (lines : list string) :
  forall secs start text n,
    List.forallb plain lines = true ->
    List.fold_left scanLine lines
      {| found := secs;
         currentConflict :=
           Some {| startLine := start; endLine := None; ours := Some text;
                   theirs := None; base := None |};
         lineNumber := n |}
    = {| found := secs;
         currentConflict :=
           Some {| startLine := start; endLine := None;
                   ours := Some (text ++ joinLines lines);
                   theirs := None; base := None |};
         lineNumber := n + count lines |}.
Proof.
  induction lines as [|line lines IH]; intros secs start text n Hplain.
  - unfold count. simpl. rewrite Z.add_0_r.
    now rewrite append_empty_r.
  - simpl in Hplain. apply andb_true_iff in Hplain as [Hline Hrest].
    destruct (plain_markers _ Hline) as (Ho & Hs & Hc).
    cbn [List.fold_left]. unfold scanLine at 2.
    cbn [found currentConflict lineNumber].
    rewrite Ho, Hs, Hc. unfold withOurs, appendLine, absent.
    cbn [andb isSome ours theirs negb startLine endLine base].
    rewrite IH by assumption.
    cbn [joinLines]. rewrite !append_assoc.
    f_equal. unfold count. cbn [List.length]. lia.
Qed.

(** One well-formed region, read from outside any region. *)
Lemma scan_region (r : Region) (secs : list ConflictSection) (n : Z) :
  wellFormed r = true ->
  List.fold_left scanLine (regionLines r)
    {| found := secs; currentConflict := None; lineNumber := n |}
  = {| found := secs ++ scannedSections n [r];
       currentConflict := None;
       lineNumber := n + count (regionLines r) |}.
Proof.
  unfold wellFormed. rewrite !andb_true_iff.
  intros [[[[[Hopen Hsep] Hclose] Hours] Htheirs] Htrail].
  pose proof (separator_is_not_opening _ Hsep) as Hsep'.
  destruct (closing_is_no_other_marker _ Hclose) as [Hc1 Hc2].
  unfold regionLines.
  cbn [List.fold_left]. unfold scanLine at 2.
  cbn [found currentConflict lineNumber]. rewrite Hopen.
  rewrite List.fold_left_app, scan_plain_inside by assumption.
  cbn [List.fold_left]. unfold scanLine at 2.
  cbn [found currentConflict lineNumber]. rewrite Hsep', Hsep.
  unfold withOurs, orEmpty.
  cbn [andb isSome option_map ours startLine endLine theirs base].
  rewrite List.fold_left_app, scan_plain_inside by assumption.
  cbn [List.fold_left]. unfold scanLine at 2.
  cbn [found currentConflict lineNumber]. rewrite Hc1, Hc2, Hclose.
  unfold withEndLine.
  cbn [andb isSome ours theirs startLine endLine base].
  rewrite scan_plain_outside by assumption.
  cbn [scannedSections]. unfold openingLine, closingLine.
  rewrite joinLines_app. cbn [append].
  f_equal.
  unfold count. cbn [List.length]. rewrite List.length_app.
  cbn [List.length]. rewrite List.length_app. cbn [List.length]. lia.
Qed.

Lemma scan_regions (regions : list Region) :
  forall secs n,
    List.forallb wellFormed regions = true ->
    found (List.fold_left scanLine (List.concat (List.map regionLines regions))
             {| found := secs; currentConflict := None; lineNumber := n |})
    = (secs ++ scannedSections n regions)%list.
Proof.
  induction regions as [|r regions IH]; intros secs n Hwf.
  - simpl. now rewrite app_nil_r.
  - simpl in Hwf. apply andb_true_iff in Hwf as [Hr Hrest].
    cbn [List.map List.concat]. rewrite List.fold_left_app.
    rewrite scan_region by assumption.
    rewrite IH by assumption.
    cbn [scannedSections]. now rewrite <- app_assoc.
Qed.

Lemma scannedSections_length (n : Z) (regions : list Region) :
  List.length (scannedSections n regions) = List.length regions.
Proof.
  revert n. induction regions as [|r regions IH]; intros n; simpl; congruence.
Qed.

Lemma scanned_bounds_agree (regions : list Region) :
  forall n,
    List.map (fun s => (startLine s, endLine s)) (scannedSections n regions)
    = List.map (fun s => (startLine s, endLine s)) (specSections n regions).
Proof.
  induction regions as [|r regions IH]; intros n; simpl; [reflexivity|].
  now rewrite IH.
Qed.

(** What the scan makes of every well-formed file with [N] regions: [N]
    sections whose line bounds are those of the opening and closing
    markers, each holding both sides, one after the other, in [ours] and
    nothing in [theirs]. *)
Lemma scanLines_well_formed (leading : list string) (regions : list Region) :
  List.forallb plain leading = true ->
  List.forallb wellFormed regions = true ->
  scanLines (fileLines leading regions) = scannedSections (count leading) regions /\
  List.length (scanLines (fileLines leading regions)) = List.length regions /\
  List.map (fun s => (startLine s, endLine s)) (scanLines (fileLines leading regions))
  = List.map (fun s => (startLine s, endLine s)) (specSections (count leading) regions).
Proof.
  intros Hlead Hwf.
  assert (Hscan : scanLines (fileLines leading regions)
                  = scannedSections (count leading) regions).
  { unfold scanLines, fileLines. rewrite List.fold_left_app.
    rewrite scan_plain_outside by assumption.
    rewrite scan_regions by assumption. reflexivity. }
  rewrite Hscan. repeat split.
  - apply scannedSections_length.
  - apply scanned_bounds_agree.
Qed.

(** C3, on a file with one region, "a" on our side and "b" on theirs.
    One section comes back, with the line numbers of the two markers, but
    its [ours] holds both sides and its [theirs] is undefined: the
    separator never sets [theirs], and an empty [theirs] would count as
    absent anyway, so every line goes to [ours]. *)
Theorem parseConflictFile_puts_both_sides_in_ours :
  sections (parseConflictFile [] "src/app.ts" Examples.oneRegion)
  = [ {| startLine := Some 1; endLine := Some 5;
         ours := Some ("a" ++ Examples.nl ++ "b" ++ Examples.nl);
         theirs := None; base := None |} ] /\
  splitLines Examples.oneRegion = fileLines [] [Examples.oneRegionLayout] /\
  wellFormed Examples.oneRegionLayout = true /\
  specSections 0 [Examples.oneRegionLayout]
  = [ {| startLine := Some 1; endLine := Some 5;
         ours := Some ("a" ++ Examples.nl);
         theirs := Some ("b" ++ Examples.nl); base := None |} ].
Proof.
  repeat split.
Qed.

End ConflictParser.

(* ===================================================================== *)
(** * Part III: further properties of the code *)
(* ===================================================================== *)

(** ** The registry: registration and removal *)

Section RegistrationFacts.
Import Types AgentRegistry Assignment.
Local Open Scope Z_scope.

Lemma has_false_get (V : Type) (m : JsMap.t V) (k : string) :
  JsMap.has m k = false <-> JsMap.get m k = None.
Proof.
  unfold JsMap.has. destruct (JsMap.get m k); split; congruence.
Qed.

Lemma delete_set_absent (V : Type) (m : JsMap.t V) (k : string) (v : V) :
  JsMap.get m k = None -> JsMap.delete (JsMap.set m k v) k = m.
Proof.
  induction m as [|[k' v'] m IH]; simpl.
  - now rewrite String.eqb_refl.
  - destruct (String.eqb k' k) eqn:E; [discriminate|].
    intros H. simpl. rewrite E. now rewrite IH.
Qed.

Lemma validateAgentConfig_run (cfg : AgentConfig) (r : Registry) :
  if validConfig cfg then validateAgentConfig cfg r = (Js.Normal tt, r)
  else exists e, validateAgentConfig cfg r = (Js.Throws e, r).
Proof.
  unfold validConfig, validateAgentConfig.
  destruct (missing (cfgId cfg)); [eexists; reflexivity|].
  destruct (missing (cfgName cfg)); [eexists; reflexivity|].
  destruct (stringIn (cfgRole cfg) roleValues); [|eexists; reflexivity].
  destruct (missing (cfgWorkingDirectory cfg)); [eexists; reflexivity|].
  destruct (cfgMaxConcurrentTasks cfg <? 1); [eexists; reflexivity|].
  reflexivity.
Qed.

(** X1.  [registerAgent] returns normally exactly when there is room, the
    agent's id is not registered yet, the configuration passes validation
    and no listener of ['agent:registered'] throws. *)
Theorem registerAgent_succeeds_exactly_when
    (heard : Listeners) (agent : IAgent) (cfg : AgentConfig) (r : Registry) :
  (exists r', registerAgent heard agent cfg r = (Js.Normal tt, r')) <->
  (JsMap.size (agents r) < maxAgents (config r) /\
   JsMap.has (agents r) (agentId agent) = false /\
   validConfig cfg = true /\
   heard (AgentRegistered agent) = None).
Proof.
  pose proof (validateAgentConfig_run cfg r) as Hval.
  unfold registerAgent. unfold_effects.
  destruct (Z.geb_spec (JsMap.size (agents r)) (maxAgents (config r))) as [Hfull|Hroom].
  - split; [intros [r' H]; discriminate H | intros (H & _); lia].
  - destruct (JsMap.has (agents r) (agentId agent)).
    + split; [intros [r' H]; discriminate H | intros (_ & H & _); discriminate H].
    + destruct (validConfig cfg).
      * rewrite Hval, emitOwn_run.
        destruct (heard (AgentRegistered agent)).
        -- split; [intros [r' H]; discriminate H
                  | intros (_ & _ & _ & H); discriminate H].
        -- split; [intros _; auto | intros _; eexists; reflexivity].
      * destruct Hval as [e ->].
        split; [intros [r' H]; discriminate H
               | intros (_ & _ & H & _); discriminate H].
Qed.

(** X2.  [registerAgent] writes both maps or neither.  When a check fails
    (no room, id taken, configuration invalid) it throws and leaves the
    registry as it was.  When the checks pass it adds the agent and its
    configuration under the agent's id, raises the population by one and
    changes no other entry; the call then returns normally unless a
    listener of ['agent:registered'] throws, and in that case it throws
    the listener's error with the agent registered. *)
Theorem registerAgent_writes_both_maps_or_neither
    (heard : Listeners) (agent : IAgent) (cfg : AgentConfig) (r : Registry) :
  exists outcome r',
    registerAgent heard agent cfg r = (outcome, r') /\
    if (JsMap.size (agents r) <? maxAgents (config r))
       && negb (JsMap.has (agents r) (agentId agent))
       && validConfig cfg
    then
      outcome = match heard (AgentRegistered agent) with
                | None => Js.Normal tt
                | Some e => Js.Throws e
                end /\
      getAgent r' (agentId agent) = Some agent /\
      JsMap.get (agentConfigs r') (agentId agent) = Some cfg /\
      JsMap.size (agents r') = JsMap.size (agents r) + 1 /\
      (forall other, other <> agentId agent ->
         getAgent r' other = getAgent r other /\
         JsMap.get (agentConfigs r') other = JsMap.get (agentConfigs r) other) /\
      assignmentHistory r' = assignmentHistory r /\
      config r' = config r
    else
      (exists e, outcome = Js.Throws e) /\ r' = r.
Proof.
  pose proof (validateAgentConfig_run cfg r) as Hval.
  unfold registerAgent. unfold_effects.
  destruct (Z.geb_spec (JsMap.size (agents r)) (maxAgents (config r))) as [Hfull|Hroom].
  - destruct (Z.ltb_spec (JsMap.size (agents r)) (maxAgents (config r)));
      [lia|].
    eexists; eexists; split; [reflexivity|]. cbn [andb].
    split; [eexists|]; reflexivity.
  - destruct (Z.ltb_spec (JsMap.size (agents r)) (maxAgents (config r)));
      [|lia].
    destruct (JsMap.has (agents r) (agentId agent)) eqn:Hnew; cbn [andb negb].
    { eexists; eexists; split; [reflexivity|].
      split; [eexists|]; reflexivity. }
    destruct (validConfig cfg).
    + rewrite Hval, emitOwn_run.
      destruct (heard (AgentRegistered agent));
        eexists; eexists; (split; [reflexivity|]);
        unfold getAgent;
        cbn [agents agentConfigs withAgents assignmentHistory config];
        rewrite !get_set_same, size_set_new by assumption;
        repeat split; try reflexivity; apply get_set_other; congruence.
    + destruct Hval as [e ->].
      eexists; eexists; split; [reflexivity|].
      split; [eexists|]; reflexivity.
Qed.

(** X3.  Registering an agent and then unregistering it (its [stop]
    resolving) restores the agent map exactly; the configuration map has
    no entry for the id and the history is untouched.  The second call
    returns normally when no listener of ['agent:unregistered'] throws;
    a listener that throws changes the way the call returns, not the
    maps. *)
Theorem register_then_unregister
    (heard heard' : Listeners) (agent : IAgent) (cfg : AgentConfig)
    (r r1 : Registry) (stop : Stop) :
  registerAgent heard agent cfg r = (Js.Normal tt, r1) ->
  fst (stop agent) = None ->
  exists outcome r2,
    unregisterAgent heard' stop (agentId agent) r1 = (outcome, r2) /\
    outcome =
      match heard' (AgentUnregistered
                      (if statusEqb (agentStatus agent) INACTIVE
                       then agent else snd (stop agent))) with
      | None => Js.Normal tt
      | Some e => Js.Throws e
      end /\
    agents r2 = agents r /\
    JsMap.get (agentConfigs r2) (agentId agent) = None /\
    assignmentHistory r2 = assignmentHistory r.
Proof.
  intros Hreg Hstop.
  destruct (registerAgent_cases heard agent cfg r)
    as [[e He]|(_ & Hnew & He)];
    rewrite He in Hreg; [discriminate|].
  injection Hreg as _ <-.
  pose proof (unregisterAgent_cases heard' stop (agentId agent)
                (withAgents r (JsMap.set (agents r) (agentId agent) agent)
                   (JsMap.set (agentConfigs r) (agentId agent) cfg))) as Hrun.
  cbn [agents agentConfigs withAgents] in Hrun.
  rewrite get_set_same in Hrun. cbv zeta in Hrun.
  destruct (statusEqb (agentStatus agent) INACTIVE);
    [|rewrite Hstop in Hrun];
    rewrite Hrun; eexists; eexists; (split; [reflexivity|]);
    cbn [agents agentConfigs withAgents assignmentHistory];
    (repeat split; [apply delete_set_absent; now apply has_false_get
                   | apply get_delete_same]).
Qed.

(** X4.  [unregisterAgent] touches no agent but the one named.  An
    unknown id throws and changes nothing.  An agent that is not Inactive
    is stopped first; if its [stop] rejects, the call throws that error
    and the agent stays registered, as [stop] left it, with its
    configuration.  Otherwise the id is removed from both maps, and the
    call returns normally unless a listener of ['agent:unregistered']
    throws, in which case it throws with the agent removed. *)
Theorem unregisterAgent_outcomes
    (heard : Listeners) (stop : Stop) (id : string) (r : Registry) :
  exists outcome r',
    unregisterAgent heard stop id r = (outcome, r') /\
    (forall other, other <> id ->
       getAgent r' other = getAgent r other /\
       JsMap.get (agentConfigs r') other = JsMap.get (agentConfigs r) other) /\
    assignmentHistory r' = assignmentHistory r /\
    config r' = config r /\
    match getAgent r id with
    | None =>
        outcome = Js.Throws (Js.ErrorObject ("Agent " ++ id ++ " not found")) /\
        r' = r
    | Some agent =>
        match (if statusEqb (agentStatus agent) INACTIVE
               then (None, agent) else stop agent) with
        | (Some e, stopped) =>
            outcome = Js.Throws e /\
            getAgent r' id = Some stopped /\
            JsMap.get (agentConfigs r') id = JsMap.get (agentConfigs r) id
        | (None, stopped) =>
            outcome = match heard (AgentUnregistered stopped) with
                      | None => Js.Normal tt
                      | Some e => Js.Throws e
                      end /\
            getAgent r' id = None /\
            JsMap.get (agentConfigs r') id = None
        end
    end.
Proof.
  pose proof (unregisterAgent_cases heard stop id r) as Hrun.
  unfold getAgent.
  destruct (JsMap.get (agents r) id) as [agent|] eqn:Hget.
  - cbv zeta in Hrun.
    destruct (statusEqb (agentStatus agent) INACTIVE).
    + rewrite Hrun. eexists; eexists; split; [reflexivity|].
      cbn [agents agentConfigs withAgents assignmentHistory config].
      rewrite !get_delete_same. repeat split;
        apply get_delete_other; congruence.
    + destruct (stop agent) as [[e|] stopped]; cbn [fst snd] in Hrun;
        rewrite Hrun; eexists; eexists; (split; [reflexivity|]);
        cbn [agents agentConfigs withAgents assignmentHistory config].
      * rewrite get_set_same. repeat split.
        apply get_set_other; congruence.
      * rewrite !get_delete_same. repeat split;
          apply get_delete_other; congruence.
  - rewrite Hrun. eexists; eexists; split; [reflexivity|].
    repeat split.
Qed.

(** The registry of scenario A after a clean-up, three registrations (one
    of them heard by a listener that throws), the removal of an agent
    whose [stop] rejects, a removal that goes through and a fourth
    registration, with [maxAgents = 2]. *)
Lemma population_bounded_witness :
  JsMap.size
    (agents
       (after [Cleanup;
               Register (fun _ => None) Examples.frontendAgent
                        (Examples.agentConfig Examples.frontendAgent);
               Register (fun _ => Some (Js.ErrorObject "listener failed"))
                        Examples.backendAgent
                        (Examples.agentConfig Examples.backendAgent);
               Register (fun _ => None) Examples.qaAgent
                        (Examples.agentConfig Examples.qaAgent);
               Unregister (fun _ => None)
                          (fun a => (Some (Js.ErrorObject "busy"), a))
                          "backend-001";
               Unregister (fun _ => None) (fun a => (None, a)) "frontend-001";
               Register (fun _ => None) Examples.qaAgent
                        (Examples.agentConfig Examples.qaAgent)]
              (create (Examples.registryConfig 2))))
  <= 2.
Proof.
  apply (@population_bounded (Examples.registryConfig 2)).
  simpl. lia.
Defined.

Lemma register_then_unregister_witness :
  exists outcome r2,
    unregisterAgent (fun _ => None) (fun a => (None, a)) "agent-7"
      (snd (registerAgent (fun _ => None) Examples.polyglot
              (Examples.agentConfig Examples.polyglot) Examples.scenarioA))
      = (outcome, r2) /\
    outcome = Js.Normal tt /\
    agents r2 = agents Examples.scenarioA /\
    JsMap.get (agentConfigs r2) "agent-7" = None /\
    assignmentHistory r2 = assignmentHistory Examples.scenarioA.
Proof.
  apply (@register_then_unregister (fun _ => None) (fun _ => None)
           Examples.polyglot
           (Examples.agentConfig Examples.polyglot) Examples.scenarioA
           (snd (registerAgent (fun _ => None) Examples.polyglot
                   (Examples.agentConfig Examples.polyglot) Examples.scenarioA))
           (fun a => (None, a)));
    reflexivity.
Defined.

End RegistrationFacts.

(** ** The registry: matching *)

Section MatchingFacts.
Import Types AgentRegistry Assignment JsString.
Local Open Scope Q_scope.

Lemma statusEqb_eq (a b : AgentStatus) : statusEqb a b = true <-> a = b.
Proof. destruct a, b; simpl; split; congruence. Qed.

Lemma availableAgents_spec (r : Registry) (task : Task) (a : IAgent) :
  In a (availableAgents r task) <->
  In a (getActiveAgents r) /\ canAgentHandleTask a task = true.
Proof.
  unfold availableAgents, getActiveAgents, getAgentsByStatus.
  rewrite !filter_In, andb_true_iff. tauto.
Qed.

(** The agent [findBestAgentForTask] returns is one of the candidates, with
    the match computed for it. *)
Lemma findBestAgentForTask_member (r : Registry) (task : Task)
    (best : AgentMatchResult) :
  findBestAgentForTask r task = Some best ->
  In (matchAgent best) (availableAgents r task) /\
  best = calculateAgentTaskMatch (matchAgent best) task.
Proof.
  unfold findBestAgentForTask.
  destruct (availableAgents r task) as [|a l] eqn:Havail; [discriminate|].
  cbn [List.length Nat.eqb List.fold_left consider].
  destruct (selection_loop task l [] a []) as (w & b' & a' & Hf & Hl & _ & _);
    try (intros x []).
  rewrite Hf. intros [= <-]. cbn [matchAgent calculateAgentTaskMatch].
  split; [|reflexivity].
  cbn [app] in Hl. rewrite Hl. apply in_or_app. right. now left.
Qed.

(** X6.  [findBestAgentForTask] returns [null] exactly when no registered
    agent is both Active and able to handle the task; otherwise the agent
    it returns is registered, Active and able to handle the task. *)
Theorem findBestAgentForTask_selects_a_capable_active_agent
    (r : Registry) (task : Task) :
  match findBestAgentForTask r task with
  | None =>
      forall a, In a (getAllAgents r) -> agentStatus a = ACTIVE ->
                canAgentHandleTask a task = false
  | Some best =>
      In (matchAgent best) (getAllAgents r) /\
      agentStatus (matchAgent best) = ACTIVE /\
      canAgentHandleTask (matchAgent best) task = true
  end.
Proof.
  destruct (findBestAgentForTask r task) as [best|] eqn:Hbest.
  - apply findBestAgentForTask_member in Hbest as [Hin _].
    unfold availableAgents in Hin. apply filter_In in Hin as [Hin Hok].
    apply andb_true_iff in Hok as [Hs Hc]. apply statusEqb_eq in Hs. auto.
  - intros a Hin Hs.
    destruct (canAgentHandleTask a task) eqn:Hc; [|reflexivity].
    unfold findBestAgentForTask in Hbest.
    assert (Ha : In a (availableAgents r task)).
    { unfold availableAgents. apply filter_In. split; [assumption|].
      rewrite Hc, Hs. reflexivity. }
    destruct (availableAgents r task) as [|x l]; [contradiction|].
    cbn [List.length Nat.eqb List.fold_left consider] in Hbest.
    destruct (selection_loop task l [] x []) as (w & _ & _ & Hf & _);
      try (intros y []).
    rewrite Hf in Hbest. discriminate.
Qed.

Lemma getRoleTaskBonus_range (role : AgentRole) (type : string) :
  0 <= getRoleTaskBonus role type <= 3 # 10.
Proof.
  unfold getRoleTaskBonus.
  destruct (List.existsb _ _); split; discriminate.
Qed.

Lemma calculateLoadScore_range (a : IAgent) :
  0 <= calculateLoadScore a <= 2 # 10.
Proof.
  unfold calculateLoadScore. destruct (agentStatus a); split; discriminate.
Qed.

Lemma calculatePerformanceScore_range (a : IAgent) :
  metricsNonNegative a -> 0 <= calculatePerformanceScore a <= 2 # 10.
Proof.
  unfold metricsNonNegative, calculatePerformanceScore.
  destruct (agentMetrics a) as [m|]; [|split; discriminate].
  intros [Hs Hq]. split; [|apply Q.le_min_l].
  apply Q.min_glb; [discriminate|].
  assert (0 <= codeQualityScore m / 100).
  { apply Qle_shift_div_l; [reflexivity|]. now rewrite Qmult_0_l. }
  assert (0 <= (successRate m + codeQualityScore m / 100) / 2).
  { apply Qle_shift_div_l; [reflexivity|]. rewrite Qmult_0_l. lra. }
  apply Qmult_le_0_compat; [assumption|discriminate].
Qed.

(** X7.  For an agent whose metrics, if any, are not negative, the
    confidence lies in [0, 1], and the final clip at 1.0 never cuts
    anything off: the confidence is the plain sum of the four signals. *)
Theorem confidence_is_the_sum_of_the_signals (agent : IAgent) (task : Task) :
  metricsNonNegative agent ->
  0 <= score task agent <= 1 /\
  score task agent ==
    getRoleTaskBonus (agentRole agent) (taskTypeValue (taskType task))
    + calculateCapabilityScore agent task
    + calculateLoadScore agent
    + calculatePerformanceScore agent.
Proof.
  intros Hm. unfold score, calculateAgentTaskMatch. cbn [confidence].
  pose proof (getRoleTaskBonus_range (agentRole agent)
                (taskTypeValue (taskType task))) as [Hr0 Hr1].
  pose proof (calculateCapabilityScore_bounds agent task) as [Hc0 Hc1].
  pose proof (calculateLoadScore_range agent) as [Hl0 Hl1].
  pose proof (calculatePerformanceScore_range agent Hm) as [Hp0 Hp1].
  set (role := getRoleTaskBonus _ _) in *.
  set (cap := calculateCapabilityScore _ _) in *.
  set (load := calculateLoadScore _) in *.
  set (perf := calculatePerformanceScore _) in *.
  assert (Hsum : 0 + role + cap + load + perf <= 1) by lra.
  rewrite (Q.min_r _ _ Hsum). split; [split|]; lra.
Qed.

Lemma confidence_is_the_sum_of_the_signals_witness :
  0 <= score Examples.featureTask
         (Examples.withConstructorMetrics Examples.frontendAgent) <= 1.
Proof.
  apply (@confidence_is_the_sum_of_the_signals
           (Examples.withConstructorMetrics Examples.frontendAgent)
           Examples.featureTask).
  simpl. split; discriminate.
Defined.

(** A task without technical requirements: every agent can handle
    it, its capability signal is the flat 0.2 whatever the agent's
    capabilities, and every Active registered agent is a candidate. *)
Theorem no_technical_requirement_admits_every_active_agent
    (r : Registry) (agent : IAgent) (task : Task) :
  technicalRequirements task = [] ->
  canAgentHandleTask agent task = true /\
  calculateCapabilityScore agent task = 2 # 10 /\
  (In agent (getActiveAgents r) <-> In agent (availableAgents r task)).
Proof.
  intros Hnone.
  assert (Hcan : canAgentHandleTask agent task = true)
    by (unfold canAgentHandleTask; now rewrite Hnone).
  repeat split.
  - exact Hcan.
  - unfold calculateCapabilityScore. now rewrite Hnone.
  - intros H. apply availableAgents_spec. auto.
  - intros H. now apply availableAgents_spec in H.
Qed.

Lemma no_technical_requirement_admits_every_active_agent_witness :
  canAgentHandleTask Examples.qaAgent (Examples.task "t1" FEATURE 10 []) = true.
Proof.
  exact (proj1 (@no_technical_requirement_admits_every_active_agent
                  Examples.scenarioA Examples.qaAgent
                  (Examples.task "t1" FEATURE 10 []) eq_refl)).
Defined.

(** Over the task types of the enum, role affinity is earned by two
    pairs only: a QA agent on a "bug_fix" task and a DevOps agent on a
    "deployment" task.  Every other role and type gets 0. *)
Theorem role_affinity_table (role : AgentRole) (type : TaskType) :
  getRoleTaskBonus role (taskTypeValue type) =
  match role, type with
  | QA, BUG_FIX => 3 # 10
  | DEVOPS, DEPLOYMENT => 3 # 10
  | _, _ => 0
  end.
Proof. destruct role, type; reflexivity. Qed.

End MatchingFacts.

(** ** The registry: assigning a task *)

Section AssignmentFacts.
Import Types AgentRegistry Assignment JsString.
Local Open Scope string_scope.

(** The agent an assignment goes to: an Active registered agent, found
    without any change of state. *)
Lemma targetAgent_cases (task : Task) (agentId : option string) (w : World) :
  (exists e, targetAgent task agentId w = (Js.Throws e, w)) \/
  (exists target,
     targetAgent task agentId w = (Js.Normal target, w) /\
     In target (getActiveAgents (registry w))).
Proof.
  unfold targetAgent. unfold_effects.
  destruct (given agentId).
  - destruct (getAgent (registry w) _) as [agent|] eqn:Hget;
      [|left; eexists; reflexivity].
    destruct (statusEqb (agentStatus agent) ACTIVE) eqn:Hs; cbn [negb];
      [|left; eexists; reflexivity].
    right. exists agent. split; [reflexivity|].
    unfold getActiveAgents, getAgentsByStatus. apply filter_In.
    split; [|assumption].
    unfold getAgent in Hget. apply get_in in Hget.
    unfold getAllAgents, JsMap.values.
    change agent with (snd (match agentId with Some id => id | None => "" end, agent)).
    now apply in_map.
  - destruct (findBestAgentForTask (registry w) task) as [best|] eqn:Hbest;
      [|left; eexists; reflexivity].
    right. exists (matchAgent best). split; [reflexivity|].
    apply findBestAgentForTask_member in Hbest as [Hin _].
    now apply availableAgents_spec in Hin.
Qed.

Lemma calculateEstimatedCompletion_cases (task : Task) (agent : IAgent)
    (w : World) :
  match agentMetrics agent with
  | None => calculateEstimatedCompletion task agent w = (Js.Throws noMetrics, w)
  | Some _ => exists t, calculateEstimatedCompletion task agent w = (Js.Normal t, w)
  end.
Proof.
  unfold calculateEstimatedCompletion.
  destruct (agentMetrics agent); [eexists|]; reflexivity.
Qed.

(** X8.  [assignTaskToAgent] is all or nothing.  A call that throws
    changes nothing.  A call that returns has appended the returned
    assignment, and only it, to the history and announced it once; the
    agent and configuration maps are untouched; the assignment names the
    task, the time of the call and an Active registered agent. *)
Theorem assignTaskToAgent_all_or_nothing
    (task : Task) (agentId : option string) (w : World) :
  match assignTaskToAgent task agentId w with
  | (Js.Throws _, w') => w' = w
  | (Js.Normal a, w') =>
      assignmentHistory (registry w')
        = (assignmentHistory (registry w) ++ [a])%list /\
      assigned w' = (assigned w ++ [a])%list /\
      agents (registry w') = agents (registry w) /\
      agentConfigs (registry w') = agentConfigs (registry w) /\
      asgTaskId a = taskId task /\
      asgAssignedAt a = clock w /\
      exists target,
        In target (getActiveAgents (registry w)) /\
        asgAgentId a = Types.agentId target
  end.
Proof.
  unfold assignTaskToAgent. unfold Js.tryCatch at 1. unfold Js.bind at 1.
  destruct (targetAgent_cases task agentId w) as [[e ->]|(target & -> & Hin)];
    [reflexivity|].
  unfold Js.bind at 1. unfold now at 1. unfold Js.gets at 1.
  unfold Js.bind at 1.
  pose proof (calculateEstimatedCompletion_cases task target w) as Hest.
  destruct (agentMetrics target); [destruct Hest as [t ->]|rewrite Hest];
    [|reflexivity].
  cbn. repeat split. exists target. auto.
Qed.

(** X9.  An explicit agent id forces the assignment: for a registered
    Active agent with a metrics object the call succeeds with confidence
    1.0, whether or not the agent can handle the task. *)
Theorem explicit_assignment_is_forced
    (task : Task) (id : string) (agent : IAgent) (m : AgentMetrics) (w : World) :
  id <> "" ->
  getAgent (registry w) id = Some agent ->
  agentStatus agent = ACTIVE ->
  agentMetrics agent = Some m ->
  exists a w',
    assignTaskToAgent task (Some id) w = (Js.Normal a, w') /\
    asgAgentId a = Types.agentId agent /\
    (asgConfidence a = 1)%Q.
Proof.
  intros Hid Hget Hs Hm.
  unfold assignTaskToAgent, targetAgent, calculateEstimatedCompletion.
  unfold_effects. unfold now, Js.gets.
  assert (Hgiven : given (Some id) = true)
    by (destruct id; [congruence|reflexivity]).
  rewrite !Hgiven, Hget, Hs. cbn [statusEqb negb]. rewrite Hm.
  eexists. eexists. repeat split.
Qed.

(** The QA agent of the scenario, started, is given the "javascript" task
    it could not have been matched with. *)
Lemma explicit_assignment_is_forced_witness :
  canAgentHandleTask (Examples.withConstructorMetrics Examples.qaAgent)
                     Examples.featureTask = false /\
  exists a w',
    assignTaskToAgent Examples.featureTask (Some "qa-001")
      {| registry := Examples.scenarioAStarted; clock := 5000; assigned := [] |}
    = (Js.Normal a, w') /\
    asgAgentId a = "qa-001" /\
    (asgConfidence a = 1)%Q.
Proof.
  split; [reflexivity|].
  apply (@explicit_assignment_is_forced Examples.featureTask "qa-001"
           (Examples.withConstructorMetrics Examples.qaAgent)
           {| tasksCompleted := 0; averageTaskDuration := 0;
              successRate := 0; codeQualityScore := 85;
              collaborationScore := 0; lastActivityTime := 0 |});
    try reflexivity.
  discriminate.
Defined.

(** X10.  The rejections of [assignTaskToAgent], each leaving everything
    as it was: an explicit id that is not registered ("not found"), an
    explicit id of an agent that is not Active ("is not active", with the
    status), and no id, or the empty string, when no Active agent can
    handle the task ("No suitable agent"). *)
Theorem assignTaskToAgent_rejections (task : Task) (id : string) (w : World) :
  (id <> "" -> getAgent (registry w) id = None ->
   assignTaskToAgent task (Some id) w
   = (Js.Throws (Js.ErrorObject (notFoundMessage id)), w)) /\
  (forall agent,
     id <> "" -> getAgent (registry w) id = Some agent ->
     agentStatus agent <> ACTIVE ->
     assignTaskToAgent task (Some id) w
     = (Js.Throws (Js.ErrorObject (notActiveMessage id (agentStatus agent))), w)) /\
  (findBestAgentForTask (registry w) task = None ->
   assignTaskToAgent task None w
   = (Js.Throws (Js.ErrorObject noSuitableAgent), w)) /\
  assignTaskToAgent task (Some "") w = assignTaskToAgent task None w.
Proof.
  unfold assignTaskToAgent, targetAgent. unfold_effects.
  repeat split.
  - intros Hid Hget.
    replace (given (Some id)) with true by (destruct id; [congruence|reflexivity]).
    now rewrite Hget.
  - intros agent Hid Hget Hs.
    replace (given (Some id)) with true by (destruct id; [congruence|reflexivity]).
    rewrite Hget.
    destruct (statusEqb (agentStatus agent) ACTIVE) eqn:E;
      [apply statusEqb_eq in E; contradiction | reflexivity].
  - intros Hnone. cbn [given]. now rewrite Hnone.
Qed.

(** X11.  Automatic assignment to an agent that has no [metrics] object
    throws and records nothing, although the matcher provides for such an
    agent (default performance 0.1) and selects it. *)
Theorem automatic_assignment_needs_metrics
    (task : Task) (best : AgentMatchResult) (w : World) :
  findBestAgentForTask (registry w) task = Some best ->
  agentMetrics (matchAgent best) = None ->
  calculatePerformanceScore (matchAgent best) = 1 # 10 /\
  assignTaskToAgent task None w = (Js.Throws noMetrics, w).
Proof.
  intros Hbest Hm. split.
  - unfold calculatePerformanceScore. now rewrite Hm.
  - unfold assignTaskToAgent, targetAgent, calculateEstimatedCompletion.
    unfold_effects. unfold now, Js.gets. cbn [given].
    now rewrite Hbest, Hm.
Qed.

(** Scenario A: the frontend agent is selected, and the assignment
    fails. *)
Lemma automatic_assignment_needs_metrics_witness :
  assignTaskToAgent Examples.featureTask None
    {| registry := Examples.scenarioA; clock := 5000; assigned := [] |}
  = (Js.Throws noMetrics,
     {| registry := Examples.scenarioA; clock := 5000; assigned := [] |}).
Proof.
  exact (proj2 (@automatic_assignment_needs_metrics Examples.featureTask
                  (calculateAgentTaskMatch Examples.frontendAgent
                                           Examples.featureTask)
                  {| registry := Examples.scenarioA; clock := 5000;
                     assigned := [] |}
                  eq_refl eq_refl)).
Defined.

End AssignmentFacts.

(** ** The agent: start, stop and restart *)

Section LifecycleFacts.
Import Types BaseAgent AgentLifecycle.
Local Open Scope Z_scope.

Ltac simp_world :=
  cbn [base self BaseAgent.clock bus healthCheckInterval runningTimers
       nextTimer startTime announced id name role capabilities status
       workingDirectory lastActivity metrics currentTask maxConcurrentTasks
       tasksCompleted averageTaskDuration successRate codeQualityScore
       collaborationScore lastActivityTime].

Ltac unfold_lifecycle :=
  unfold start, stop, restart, cancelCurrentTask, callHook, lift, announce,
    setStartTime, startHealthMonitoring, stopHealthMonitoring, getUptime,
    updateStatus, updateLastActivity, onSelf, emit, now, onBase;
  unfold_effects; unfold Js.ret.

(** The agent as [initialize] finds it. *)
Lemma start_run (hooks : Hooks) (w : World) :
  forall outcome a t,
    initialize hooks
      (touch (BaseAgent.clock (base w)) (withStatus STARTING (self (base w))),
       BaseAgent.clock (base w)) = (outcome, (a, t)) ->
    exists w',
      start hooks w = (outcome, w') /\
      self (base w') =
        touch t (withStatus (match outcome with
                             | Js.Normal _ => ACTIVE
                             | Js.Throws _ => ERROR
                             end) a) /\
      BaseAgent.clock (base w') = t /\
      startTime w' = Some (BaseAgent.clock (base w)) /\
      match outcome with
      | Js.Normal _ =>
          healthCheckInterval w' = Some (nextTimer w) /\
          runningTimers w' = runningTimers w ++ [nextTimer w] /\
          nextTimer w' = S (nextTimer w) /\
          announced w' =
            announced w
              ++ [AgentStarted (role a) (List.map capName (capabilities a))]
      | Js.Throws _ =>
          healthCheckInterval w' = healthCheckInterval w /\
          runningTimers w' = runningTimers w /\
          nextTimer w' = nextTimer w /\
          announced w' = announced w
      end.
Proof.
  intros outcome a t Hinit. unfold_lifecycle.
  cbn [base self BaseAgent.clock bus healthCheckInterval runningTimers
       nextTimer startTime announced status withStatus touch].
  destruct (negb (statusEqb (status (self (base w))) STARTING));
    cbn [base self BaseAgent.clock bus healthCheckInterval runningTimers
         nextTimer startTime announced status withStatus touch];
    rewrite Hinit; destruct outcome as [[]|e];
    cbn [base self BaseAgent.clock bus healthCheckInterval runningTimers
         nextTimer startTime announced status withStatus touch];
    match goal with
    | |- context [negb (statusEqb (status a) ?s)] =>
        destruct (negb (statusEqb (status a) s))
    end;
    cbn [base self BaseAgent.clock bus healthCheckInterval runningTimers
         nextTimer startTime announced status withStatus touch role
         capabilities];
    eexists; repeat split.
Qed.

(** X12.  [start] asks for no particular status.  It records the start
    time and runs the subclass's [initialize] on a Starting agent.  When
    [initialize] returns, [start] returns with the agent Active, a new
    health timer running and the start announced; when it throws, [start]
    throws the same value with the agent in Error, no timer started and
    nothing announced. *)
Theorem start_ends_active_or_in_error (hooks : Hooks) (w : World) :
  exists outcome w',
    start hooks w = (outcome, w') /\
    fst (initialize hooks
           (touch (BaseAgent.clock (base w))
                  (withStatus STARTING (self (base w))),
            BaseAgent.clock (base w))) = outcome /\
    startTime w' = Some (BaseAgent.clock (base w)) /\
    match outcome with
    | Js.Normal _ =>
        status (self (base w')) = ACTIVE /\
        healthCheckInterval w' = Some (nextTimer w) /\
        runningTimers w' = runningTimers w ++ [nextTimer w] /\
        exists role caps, announced w' = announced w ++ [AgentStarted role caps]
    | Js.Throws _ =>
        status (self (base w')) = ERROR /\
        runningTimers w' = runningTimers w /\
        announced w' = announced w
    end.
Proof.
  destruct (initialize hooks
              (touch (BaseAgent.clock (base w))
                     (withStatus STARTING (self (base w))),
               BaseAgent.clock (base w))) as [outcome [a t]] eqn:Hinit.
  destruct (start_run hooks w Hinit)
    as (w' & Hrun & Hself & _ & Hstart & Hrest).
  exists outcome, w'. repeat split; try assumption.
  destruct outcome; rewrite Hself;
    destruct Hrest as (Hh & Hr & _ & Ha); repeat split; eauto.
Qed.

(** The agent as [cleanup] finds it: Stopping, without current task. *)
Lemma stop_run (hooks : Hooks) (w : World) :
  forall outcome a t,
    cleanup hooks
      (withCurrentTask None
         (touch (BaseAgent.clock (base w)) (withStatus STOPPING (self (base w)))),
       BaseAgent.clock (base w)) = (outcome, (a, t)) ->
    exists w',
      stop hooks w = (outcome, w') /\
      BaseAgent.clock (base w') = t /\
      healthCheckInterval w' = None /\
      runningTimers w' =
        match healthCheckInterval w with
        | Some handle =>
            List.filter (fun x => negb (Nat.eqb x handle)) (runningTimers w)
        | None => runningTimers w
        end /\
      nextTimer w' = nextTimer w /\
      startTime w' = startTime w /\
      self (base w') =
        match outcome with
        | Js.Normal _ => touch t (withStatus INACTIVE a)
        | Js.Throws _ => a
        end /\
      announced w' =
        announced w
        ++ match currentTask (self (base w)) with
           | Some task => [TaskCancelled (taskId task) "Agent shutdown"]
           | None => []
           end
        ++ match outcome with
           | Js.Normal _ =>
               [AgentStopped (role a)
                  match startTime w with
                  | Some started => t - started
                  | None => 0
                  end]
           | Js.Throws _ => []
           end.
Proof.
  intros outcome a t Hclean. unfold_lifecycle.
  unfold withCurrentTask, touch, withStatus in *.
  cbn [id name role capabilities status workingDirectory lastActivity metrics
       currentTask maxConcurrentTasks] in Hclean.
  destruct (negb (statusEqb (status (self (base w))) STOPPING));
    destruct (healthCheckInterval w) as [handle|];
    destruct (currentTask (self (base w))) as [task|] eqn:Hcur;
    simp_world; rewrite ?Hcur; simp_world;
    rewrite Hclean; destruct outcome as [[]|e];
    simp_world;
    try (destruct (negb (statusEqb (status a) INACTIVE)));
    simp_world;
    eexists; repeat split;
    rewrite <- ?app_assoc, ?app_nil_r; reflexivity.
Qed.

(** X13.  [stop] clears the health timer and, when a task is in flight,
    announces its failure with the reason "Agent shutdown", before it
    runs the subclass's [cleanup].  When [cleanup] returns, the agent ends
    Inactive and the stop is announced.  When [cleanup] throws, [stop]
    throws the same value, the agent stays as [cleanup] left it (it is
    not set Inactive), no stop is announced, and [restart] fails in the
    same way without ever starting the agent again. *)
Theorem stop_ends_inactive_or_stuck
    (hooks : Hooks) (w : World) (outcome : Js.Completion unit)
    (a : Agent) (t : Z) :
  cleanup hooks
    (withCurrentTask None
       (touch (BaseAgent.clock (base w)) (withStatus STOPPING (self (base w)))),
     BaseAgent.clock (base w)) = (outcome, (a, t)) ->
  exists w',
    stop hooks w = (outcome, w') /\
    healthCheckInterval w' = None /\
    (forall task,
       currentTask (self (base w)) = Some task ->
       In (TaskCancelled (taskId task) "Agent shutdown") (announced w')) /\
    match outcome with
    | Js.Normal _ =>
        status (self (base w')) = INACTIVE /\
        exists uptime,
          announced w' =
            announced w
            ++ match currentTask (self (base w)) with
               | Some task => [TaskCancelled (taskId task) "Agent shutdown"]
               | None => []
               end
            ++ [AgentStopped (role a) uptime]
    | Js.Throws e =>
        self (base w') = a /\
        announced w' =
          announced w
          ++ match currentTask (self (base w)) with
             | Some task => [TaskCancelled (taskId task) "Agent shutdown"]
             | None => []
             end /\
        restart hooks w = (Js.Throws e, w')
    end.
Proof.
  intros Hclean.
  destruct (stop_run hooks w Hclean)
    as (w' & Hrun & _ & Hh & _ & _ & _ & Hself & Hann).
  exists w'. repeat split; try assumption.
  - intros task Hcur. rewrite Hann, Hcur.
    apply in_or_app. right. apply in_or_app. left. now left.
  - destruct outcome as [[]|e].
    + rewrite Hself. split; [reflexivity|]. eexists. rewrite Hann.
      reflexivity.
    + repeat split; try assumption.
      * rewrite Hann. now rewrite app_nil_r.
      * unfold restart, Js.bind. now rewrite Hrun.
Qed.

(** An agent stopped in the middle of a task, its tear-down failing. *)
Lemma stop_ends_inactive_or_stuck_witness :
  exists w',
    stop MoreExamples.failingCleanup MoreExamples.busyWorld
      = (Js.Throws (Js.ErrorObject "worktree busy"), w') /\
    status (self (base w')) = STOPPING /\
    currentTask (self (base w')) = None /\
    announced w' = [TaskCancelled "t9" "Agent shutdown"].
Proof.
  destruct (@stop_ends_inactive_or_stuck
              MoreExamples.failingCleanup MoreExamples.busyWorld
              (Js.Throws (Js.ErrorObject "worktree busy"))
              (withCurrentTask None
                 (touch 9000 (withStatus STOPPING
                    (self (base MoreExamples.busyWorld)))))
              9000 eq_refl)
    as (w' & Hrun & _ & _ & Hself & Hann & _).
  exists w'. rewrite Hself, Hann. repeat split. exact Hrun.
Defined.

(** X14.  With hooks that return, [start] followed by [stop] leaves no
    timer of its own running, but a second [start] before the [stop]
    leaks one: it overwrites the stored handle, [stop] clears the second
    timer only, and the first keeps running with no handle left to clear
    it.  [restart] does not leak: after [start] and [restart] the one
    timer running for the agent is the new one, whose handle is stored. *)
Theorem second_start_leaks_a_timer (hooks : Hooks) (w : World) :
  reliable (initialize hooks) -> reliable (cleanup hooks) ->
  healthCheckInterval w = None ->
  Forall (fun x => (x < nextTimer w)%nat) (runningTimers w) ->
  (exists w1 w2,
     start hooks w = (Js.Normal tt, w1) /\
     stop hooks w1 = (Js.Normal tt, w2) /\
     runningTimers w2 = runningTimers w) /\
  (exists w1 w2 w3,
     start hooks w = (Js.Normal tt, w1) /\
     start hooks w1 = (Js.Normal tt, w2) /\
     stop hooks w2 = (Js.Normal tt, w3) /\
     healthCheckInterval w3 = None /\
     runningTimers w3 = runningTimers w ++ [nextTimer w]) /\
  (exists w1 w2,
     start hooks w = (Js.Normal tt, w1) /\
     restart hooks w1 = (Js.Normal tt, w2) /\
     healthCheckInterval w2 = Some (S (nextTimer w)) /\
     runningTimers w2 = runningTimers w ++ [S (nextTimer w)]).
Proof.
  intros Hinit Hclean Hnone Hfresh.
  assert (Hkeep : forall n l,
             Forall (fun x => (x < n)%nat) l ->
             List.filter (fun x => negb (Nat.eqb x n)) l = l).
  { intros n l Hl. induction Hl as [|x l Hx _ IH]; [reflexivity|].
    simpl. rewrite IH.
    destruct (Nat.eqb_spec x n); [lia|reflexivity]. }
  assert (Hstart : forall v, exists v',
             start hooks v = (Js.Normal tt, v') /\
             healthCheckInterval v' = Some (nextTimer v) /\
             runningTimers v' = runningTimers v ++ [nextTimer v] /\
             nextTimer v' = S (nextTimer v)).
  { intros v.
    destruct (Hinit (touch (BaseAgent.clock (base v))
                           (withStatus STARTING (self (base v))),
                     BaseAgent.clock (base v))) as [[a t] Ha].
    destruct (start_run hooks v Ha) as (v' & Hrun & _ & _ & _ & Hh & Hr & Hn & _).
    exists v'. auto. }
  assert (Hstop : forall v handle, healthCheckInterval v = Some handle ->
             exists v',
               stop hooks v = (Js.Normal tt, v') /\
               healthCheckInterval v' = None /\
               runningTimers v' =
                 List.filter (fun x => negb (Nat.eqb x handle)) (runningTimers v) /\
               nextTimer v' = nextTimer v).
  { intros v handle Hv.
    destruct (Hclean (withCurrentTask None
                        (touch (BaseAgent.clock (base v))
                               (withStatus STOPPING (self (base v)))),
                      BaseAgent.clock (base v))) as [[a t] Ha].
    destruct (stop_run hooks v Ha) as (v' & Hrun & _ & Hh & Hr & Hn & _).
    exists v'. rewrite Hv in Hr. auto. }
  destruct (Hstart w) as (w1 & Hs1 & Hh1 & Hr1 & Hn1).
  assert (Hback : forall w2,
             runningTimers w2 =
               List.filter (fun x => negb (Nat.eqb x (nextTimer w)))
                 (runningTimers w1) ->
             runningTimers w2 = runningTimers w).
  { intros w2 ->.
    rewrite Hr1, List.filter_app, Hkeep by assumption.
    simpl. rewrite Nat.eqb_refl. apply app_nil_r. }
  split; [|split].
  - destruct (Hstop w1 _ Hh1) as (w2 & Hs2 & _ & Hr2 & _).
    exists w1, w2. repeat split; try assumption. now apply Hback.
  - destruct (Hstart w1) as (w2 & Hs2 & Hh2 & Hr2 & _).
    destruct (Hstop w2 _ Hh2) as (w3 & Hs3 & Hh3 & Hr3 & _).
    exists w1, w2, w3. repeat split; try assumption.
    rewrite Hr3, Hr2, Hr1, Hn1, !List.filter_app.
    rewrite Hkeep by (eapply Forall_impl; [|exact Hfresh]; simpl; lia).
    simpl. rewrite Nat.eqb_refl.
    destruct (Nat.eqb_spec (nextTimer w) (S (nextTimer w))); [lia|].
    simpl. now rewrite app_nil_r.
  - destruct (Hstop w1 _ Hh1) as (w2 & Hs2 & _ & Hr2 & Hn2).
    destruct (Hstart w2) as (w3 & Hs3 & Hh3 & Hr3 & _).
    exists w1, w3. split; [assumption|]. split.
    + unfold restart, Js.bind. now rewrite Hs2.
    + rewrite Hh3, Hr3, Hn2, Hn1, (Hback w2 Hr2). split; reflexivity.
Qed.

Lemma second_start_leaks_a_timer_witness :
  exists w1 w2 w3,
    start MoreExamples.quietHooks MoreExamples.newWorld = (Js.Normal tt, w1) /\
    start MoreExamples.quietHooks w1 = (Js.Normal tt, w2) /\
    stop MoreExamples.quietHooks w2 = (Js.Normal tt, w3) /\
    healthCheckInterval w3 = None /\
    runningTimers w3 = [0%nat].
Proof.
  apply (@second_start_leaks_a_timer MoreExamples.quietHooks
           MoreExamples.newWorld).
  - intros s. eexists. reflexivity.
  - intros s. eexists. reflexivity.
  - reflexivity.
  - constructor.
Defined.

End LifecycleFacts.

(** ** The agent: what the metrics record *)

Section MetricsFacts.
Import Types BaseAgent AgentLifecycle.
Local Open Scope Q_scope.

Lemma inject_Z_pos (z : Z) : (0 < z)%Z -> ~ inject_Z z == 0.
Proof.
  intros Hz H. unfold Qeq in H. simpl in H. lia.
Qed.

Lemma updatedMetrics_after_success (m : AgentMetrics) (r : TaskResult) :
  resSuccess r = true ->
  (0 <= tasksCompleted m)%Z ->
  tasksCompleted (updatedMetrics m r) = (tasksCompleted m + 1)%Z /\
  successRate (updatedMetrics m r) == 1.
Proof.
  intros Hs Hpos. unfold updatedMetrics. rewrite Hs.
  cbn [tasksCompleted successRate].
  rewrite Z.add_0_r.
  assert (Hnz : ~ inject_Z (tasksCompleted m + 1) == 0)
    by (apply inject_Z_pos; lia).
  split; [reflexivity|].
  destruct (Z.gtb_spec (tasksCompleted m + 1) 0); [|lia].
  now field.
Qed.

(** X15.  A task that the body completes successfully sets the success
    rate to exactly 1, whatever failed before, and raises the count of
    completed tasks by one. *)
Theorem a_success_resets_the_success_rate
    (sub : Subclass) (task : Task) (w : BaseAgent.World)
    (r : TaskResult) (a : Agent) (t : Z) :
  canHandleTask sub (entered task w) task = true ->
  performTask sub task (entered task w, BaseAgent.clock w)
    = (Js.Normal r, (a, t)) ->
  resSuccess r = true ->
  (0 <= tasksCompleted (metrics a))%Z ->
  exists result w',
    executeTask sub task w = (Js.Normal result, w') /\
    resSuccess result = true /\
    tasksCompleted (metrics (self w')) = (tasksCompleted (metrics a) + 1)%Z /\
    successRate (metrics (self w')) == 1.
Proof.
  intros Hcan Hbody Hs Hpos.
  assert (Hguarded : guardedBody sub task w = (Js.Normal r, (a, t)))
    by (unfold guardedBody; now rewrite Hcan).
  eexists. eexists. split.
  - apply (@executeTask_outcome sub task w _ _ _ Hguarded).
  - cbn [self settled resultOf touch withStatus withCurrentTask withMetrics
         metrics tasksCompleted successRate].
    assert (Hs' : resSuccess (timed r (t - BaseAgent.clock w) t) = true)
      by exact Hs.
    destruct (updatedMetrics_after_success (metrics a) _ Hs' Hpos)
      as (Htc & Hrate).
    repeat split; assumption.
Qed.

(** The agent of the metrics example, after one success and two
    failures, is given a fourth task, which succeeds. *)
Lemma a_success_resets_the_success_rate_witness :
  exists result w',
    executeTask Examples.scriptedAgent (Examples.task "t4" FEATURE 10 [])
      (snd (executeAll Examples.scriptedAgent Examples.threeTasks
              (Examples.agentWorld ACTIVE)))
      = (Js.Normal result, w') /\
    resSuccess result = true /\
    tasksCompleted (metrics (self w'))
      = (tasksCompleted
           (metrics
              (entered (Examples.task "t4" FEATURE 10 [])
                 (snd (executeAll Examples.scriptedAgent Examples.threeTasks
                         (Examples.agentWorld ACTIVE))))) + 1)%Z /\
    successRate (metrics (self w')) == 1.
Proof.
  eapply (@a_success_resets_the_success_rate Examples.scriptedAgent
            (Examples.task "t4" FEATURE 10 [])
            (snd (executeAll Examples.scriptedAgent Examples.threeTasks
                    (Examples.agentWorld ACTIVE)))).
  - reflexivity.
  - reflexivity.
  - reflexivity.
  - vm_compute. discriminate.
Defined.

Lemma recordAll_successes (results : list TaskResult) :
  forall m,
    (0 <= tasksCompleted m)%Z ->
    Forall (fun r => resSuccess r = true) results ->
    tasksCompleted (recordAll m results)
      = (tasksCompleted m + Z.of_nat (List.length results))%Z.
Proof.
  induction results as [|r results IH]; intros m Hpos Hall.
  - cbn. lia.
  - inversion Hall as [|? ? Hr Hrest]; subst.
    destruct (updatedMetrics_after_success m r Hr Hpos) as (Htc & _).
    unfold recordAll in *. cbn [List.fold_left].
    rewrite IH by (try assumption; lia).
    rewrite Htc. cbn [List.length]. lia.
Qed.

(** X16.  For an agent whose tasks all succeed the two counters are
    right: after [n >= 1] successful results, [tasksCompleted] has risen
    by [n] and the success rate is 1, whatever was recorded before. *)
Theorem metrics_of_an_unfailing_agent (m : AgentMetrics) (results : list TaskResult) :
  (0 <= tasksCompleted m)%Z ->
  results <> [] ->
  Forall (fun r => resSuccess r = true) results ->
  tasksCompleted (recordAll m results)
    = (tasksCompleted m + Z.of_nat (List.length results))%Z /\
  successRate (recordAll m results) == 1.
Proof.
  intros Hpos Hne Hall.
  split; [now apply recordAll_successes|].
  destruct (exists_last Hne) as (front & r & ->).
  unfold recordAll. rewrite List.fold_left_app. cbn [List.fold_left].
  apply Forall_app in Hall as [Hfront Hr].
  inversion Hr as [|? ? Hlast _]; subst.
  pose proof (@recordAll_successes front m Hpos Hfront) as Hk.
  apply updatedMetrics_after_success; [assumption|].
  unfold recordAll in Hk. rewrite Hk. lia.
Qed.

(** The agent of the metrics example, after one success and two
    failures, records two more successes. *)
Lemma metrics_of_an_unfailing_agent_witness :
  tasksCompleted
    (recordAll
       (metrics (self (snd (executeAll Examples.scriptedAgent
                              Examples.threeTasks
                              (Examples.agentWorld ACTIVE)))))
       [MoreExamples.done "a" 10 1070; MoreExamples.done "b" 25 1095])
  = 3%Z /\
  successRate
    (recordAll
       (metrics (self (snd (executeAll Examples.scriptedAgent
                              Examples.threeTasks
                              (Examples.agentWorld ACTIVE)))))
       [MoreExamples.done "a" 10 1070; MoreExamples.done "b" 25 1095])
  == 1.
Proof.
  apply (@metrics_of_an_unfailing_agent
           (metrics (self (snd (executeAll Examples.scriptedAgent
                                  Examples.threeTasks
                                  (Examples.agentWorld ACTIVE)))))
           [MoreExamples.done "a" 10 1070; MoreExamples.done "b" 25 1095]).
  - vm_compute. discriminate.
  - discriminate.
  - repeat constructor.
Defined.

End MetricsFacts.

Section ErrorRateFacts.
Import Types BaseAgent AgentLifecycle.
Local Open Scope Q_scope.

Lemma updatedMetrics_keeps_zero (m : AgentMetrics) (r : TaskResult) :
  tasksCompleted m = 0%Z ->
  resSuccess r = false ->
  tasksCompleted (updatedMetrics m r) = 0%Z /\
  successRate (updatedMetrics m r) == 0.
Proof.
  intros Hzero Hfail. unfold updatedMetrics. rewrite Hfail, Hzero.
  cbn. split; reflexivity.
Qed.

(** X17.  The error rate of the health report is 0 for an agent that has
    failed every task it was given: [tasksCompleted] counts successes
    only, so [calculateErrorRate] takes it for an agent that has not
    worked yet, while its success rate is 0. *)
Theorem an_agent_that_only_fails_reports_no_errors
    (m : AgentMetrics) (results : list TaskResult) :
  tasksCompleted m = 0%Z ->
  results <> [] ->
  Forall (fun r => resSuccess r = false) results ->
  calculateErrorRate (recordAll m results) == 0 /\
  successRate (recordAll m results) == 0.
Proof.
  intros Hzero Hne Hall.
  assert (Hfront : forall rs m0,
             tasksCompleted m0 = 0%Z ->
             Forall (fun r => resSuccess r = false) rs ->
             tasksCompleted (recordAll m0 rs) = 0%Z).
  { induction rs as [|r rs IH]; intros m0 H0 Hrs; [exact H0|].
    inversion Hrs; subst. unfold recordAll in *. cbn [List.fold_left].
    apply IH; [|assumption].
    now apply updatedMetrics_keeps_zero. }
  split.
  - unfold calculateErrorRate. rewrite (Hfront results m Hzero Hall).
    reflexivity.
  - destruct (exists_last Hne) as (front & r & ->).
    apply Forall_app in Hall as [Hf Hr]. inversion Hr; subst.
    unfold recordAll. rewrite List.fold_left_app. cbn [List.fold_left].
    apply updatedMetrics_keeps_zero; [|assumption].
    now apply Hfront.
Qed.

Lemma an_agent_that_only_fails_reports_no_errors_witness :
  calculateErrorRate
    (recordAll (metrics (Examples.freshAgent ACTIVE))
       [errorResultOf Examples.testTask (Js.ErrorObject "disk full") 5 1005;
        errorResultOf Examples.testTask (Js.OtherValue "timeout") 7 1012]) == 0 /\
  successRate
    (recordAll (metrics (Examples.freshAgent ACTIVE))
       [errorResultOf Examples.testTask (Js.ErrorObject "disk full") 5 1005;
        errorResultOf Examples.testTask (Js.OtherValue "timeout") 7 1012]) == 0.
Proof.
  apply (@an_agent_that_only_fails_reports_no_errors
           (metrics (Examples.freshAgent ACTIVE))
           [errorResultOf Examples.testTask (Js.ErrorObject "disk full") 5 1005;
            errorResultOf Examples.testTask (Js.OtherValue "timeout") 7 1012]).
  - reflexivity.
  - discriminate.
  - repeat constructor.
Defined.

End ErrorRateFacts.

(** ** The agent: its capabilities *)

Section CapabilityFacts.
Import Types BaseAgent AgentLifecycle.

Lemma eqb_names_other (a b n : string) :
  a = b -> n <> b -> String.eqb a n = false.
Proof.
  intros -> Hne. apply String.eqb_neq. congruence.
Qed.

Lemma addCapability_names (caps : list AgentCapability) (c : AgentCapability) :
  forall n,
    In n (List.map capName (addCapability caps c)) ->
    n = capName c \/ In n (List.map capName caps).
Proof.
  induction caps as [|cap rest IH]; intros n; cbn [addCapability].
  - cbn. intuition.
  - destruct (String.eqb (capName cap) (capName c)) eqn:E; cbn [List.map In].
    + intros [<-|H]; auto.
    + intros [<-|H]; auto. destruct (IH n H); auto.
Qed.

Lemma addCapability_keeps_names_distinct
    (caps : list AgentCapability) (c : AgentCapability) :
  NoDup (List.map capName caps) ->
  NoDup (List.map capName (addCapability caps c)).
Proof.
  induction caps as [|cap rest IH]; intros Hnd; cbn [addCapability].
  - cbn. constructor; [intros []|constructor].
  - inversion Hnd as [|? ? Hnot Hrest]; subst.
    destruct (String.eqb (capName cap) (capName c)) eqn:E; cbn [List.map].
    + apply String.eqb_eq in E. rewrite <- E. now constructor.
    + constructor; [|auto].
      intros Hin. apply addCapability_names in Hin as [Heq|Hin]; [|auto].
      apply String.eqb_neq in E. congruence.
Qed.

(** X18.  [addCapability] is an upsert by name: afterwards the agent has
    the capability at the new level, every other name answers as before,
    the list grows by one exactly when the name was new, and names that
    were distinct stay distinct. *)
Theorem addCapability_is_an_upsert
    (caps : list AgentCapability) (c : AgentCapability) :
  hasCapability (addCapability caps c) (capName c) = true /\
  getCapabilityLevel (addCapability caps c) (capName c) = capLevel c /\
  (forall n, n <> capName c ->
     hasCapability (addCapability caps c) n = hasCapability caps n /\
     getCapabilityLevel (addCapability caps c) n = getCapabilityLevel caps n) /\
  List.length (addCapability caps c)
    = (if hasCapability caps (capName c) then List.length caps
       else S (List.length caps)) /\
  (NoDup (List.map capName caps) ->
   NoDup (List.map capName (addCapability caps c))).
Proof.
  unfold hasCapability, getCapabilityLevel.
  repeat split.
  - induction caps as [|cap rest IH]; cbn [addCapability].
    + cbn. now rewrite String.eqb_refl.
    + destruct (String.eqb (capName cap) (capName c)) eqn:E;
        cbn [List.existsb]; [now rewrite String.eqb_refl|].
      now rewrite E, IH.
  - induction caps as [|cap rest IH]; cbn [addCapability].
    + cbn. now rewrite String.eqb_refl.
    + destruct (String.eqb (capName cap) (capName c)) eqn:E;
        cbn [List.find]; [now rewrite String.eqb_refl|].
      now rewrite E.
  - induction caps as [|cap rest IH]; cbn [addCapability].
    + cbn. now rewrite (@eqb_names_other (capName c) (capName c) n).
    + destruct (String.eqb (capName cap) (capName c)) eqn:E;
        cbn [List.existsb].
      * apply String.eqb_eq in E.
        rewrite (@eqb_names_other (capName c) (capName c) n) by auto.
        now rewrite (@eqb_names_other (capName cap) (capName c) n) by auto.
      * now rewrite IH.
  - induction caps as [|cap rest IH]; cbn [addCapability].
    + cbn. now rewrite (@eqb_names_other (capName c) (capName c) n).
    + destruct (String.eqb (capName cap) (capName c)) eqn:E;
        cbn [List.find].
      * apply String.eqb_eq in E.
        rewrite (@eqb_names_other (capName c) (capName c) n) by auto.
        now rewrite (@eqb_names_other (capName cap) (capName c) n) by auto.
      * destruct (String.eqb (capName cap) n); [reflexivity|exact IH].
  - induction caps as [|cap rest IH]; cbn [addCapability]; [reflexivity|].
    destruct (String.eqb (capName cap) (capName c)) eqn:E;
      cbn [List.existsb List.length]; rewrite E; cbn [orb]; [reflexivity|].
    rewrite IH. now destruct (List.existsb _ rest).
  - apply addCapability_keeps_names_distinct.
Qed.

(** X19.  [removeCapability] removes every capability of that name and
    nothing else, and undoes the [addCapability] of a name the agent did
    not have. *)
Theorem removeCapability_forgets_the_name
    (caps : list AgentCapability) (n : string) :
  hasCapability (removeCapability caps n) n = false /\
  getCapabilityLevel (removeCapability caps n) n = 0%Z /\
  (forall other, other <> n ->
     hasCapability (removeCapability caps n) other = hasCapability caps other /\
     getCapabilityLevel (removeCapability caps n) other
       = getCapabilityLevel caps other) /\
  (forall c, capName c = n -> hasCapability caps n = false ->
     removeCapability (addCapability caps c) n = caps).
Proof.
  unfold hasCapability, getCapabilityLevel, removeCapability.
  repeat split.
  - induction caps as [|cap rest IH]; [reflexivity|]. cbn [List.filter].
    destruct (String.eqb (capName cap) n) eqn:E; cbn [negb]; [exact IH|].
    cbn [List.existsb]. now rewrite E.
  - induction caps as [|cap rest IH]; [reflexivity|]. cbn [List.filter].
    destruct (String.eqb (capName cap) n) eqn:E; cbn [negb]; [exact IH|].
    cbn [List.find]. now rewrite E.
  - induction caps as [|cap rest IH]; [reflexivity|]. cbn [List.filter].
    destruct (String.eqb (capName cap) n) eqn:E; cbn [negb List.existsb].
    + apply String.eqb_eq in E.
      now rewrite (@eqb_names_other (capName cap) n other) by auto.
    + now rewrite IH.
  - induction caps as [|cap rest IH]; [reflexivity|]. cbn [List.filter].
    destruct (String.eqb (capName cap) n) eqn:E; cbn [negb List.find].
    + apply String.eqb_eq in E.
      now rewrite (@eqb_names_other (capName cap) n other) by auto.
    + destruct (String.eqb (capName cap) other); [reflexivity|exact IH].
  - intros c <-. induction caps as [|cap rest IH]; intros Hnot.
    + cbn. now rewrite String.eqb_refl.
    + cbn [List.existsb] in Hnot. apply Bool.orb_false_iff in Hnot as [E Hrest].
      cbn [addCapability]. rewrite E. cbn [List.filter]. rewrite E.
      cbn [negb]. now rewrite IH.
Qed.

End CapabilityFacts.

(** ** The agent's own check and the registry's *)

Section AcceptanceFacts.
Import Types JsString AgentRegistry BaseAgent AgentLifecycle.

(** X20.  A task a development agent accepts is one the registry finds
    it capable of: the agent's check asks, for every technical
    requirement, for the same name match as the registry's and for
    level 5 on top, and for a supported task type.  The converse fails:
    the registry can hand an agent a task the agent turns down. *)
Theorem the_agent_is_stricter_than_the_registry :
  (forall a task,
     devCanHandleTask a task = true ->
     canAgentHandleTask (asIAgent a) task = true) /\
  (exists a task,
     canAgentHandleTask (asIAgent a) task = true /\
     devCanHandleTask a task = false).
Proof.
  split.
  - intros a task. unfold devCanHandleTask, canAgentHandleTask,
      technicalRequirements.
    destruct (negb (List.existsb (taskTypeEqb (taskType task))
                      supportedTaskTypes)); [discriminate|].
    cbn [asIAgent agentCapabilities].
    rewrite !List.forallb_forall. intros Hdev capability Hin.
    apply List.in_map_iff in Hin as (req & <- & Hreq).
    specialize (Hdev (toLowerCase (reqDescription req))).
    rewrite List.existsb_exists in *.
    destruct Hdev as (cap & Hcap & Hmatch).
    + apply List.in_map_iff. now exists req.
    + exists cap. split; [assumption|].
      now apply Bool.andb_true_iff in Hmatch as [Hname _].
  - exists (Examples.freshAgent ACTIVE), Examples.testTask.
    split; reflexivity.
Qed.

End AcceptanceFacts.

(** ** The worktree manager: removal, activity and start-up *)

Section UpkeepFacts.
Import JsString WorktreeManager WorktreeUpkeep.
Local Open Scope Z_scope.

Lemma wf_set (V : Type) (m : JsMap.t V) (k : string) (v : V) :
  JsMap.wf m -> JsMap.wf (JsMap.set m k v).
Proof.
  unfold JsMap.wf, JsMap.keys.
  induction m as [|[k' v'] m IH]; cbn [JsMap.set List.map fst]; intros Hnd.
  - constructor; [intros []|constructor].
  - inversion Hnd as [|? ? Hnot Hrest]; subst.
    destruct (String.eqb_spec k' k) as [->|Hne]; cbn [List.map fst].
    + now constructor.
    + constructor; [|auto].
      intros Hin. apply Hnot.
      clear - Hin Hne. induction m as [|[k0 v0] m IH]; cbn in *.
      * destruct Hin as [->|[]]. congruence.
      * destruct (String.eqb_spec k0 k) as [->|Hk]; cbn in *.
        -- destruct Hin as [->|Hin]; [congruence|now right].
        -- destruct Hin as [->|Hin]; [now left|right; auto].
Qed.

(** X21.  Removing the worktree of an agent that has one succeeds exactly
    when the git client loads and either the git command succeeds, or the
    directory is not on the disk, or the recursive delete succeeds; the
    record is dropped and the event sent exactly on success. *)
Theorem removal_succeeds_exactly_when
    (agentId : string) (w : World) (wt : WorktreeInfo) :
  JsMap.get (worktrees w) agentId = Some wt ->
  exists r w',
    removeWorktreeForAgent agentId w = (Js.Normal r, w') /\
    (success r = true <->
       importSimpleGit (host w) = None /\
       (gitWorktreeRemove (host w) (wtPath wt) = None \/
        List.existsb (String.eqb (wtPath wt)) (directories w) = false \/
        fsRm (host w) (wtPath wt) = None)) /\
    JsMap.get (worktrees w') agentId = (if success r then None else Some wt) /\
    events w' =
      (if success r
       then events w ++ [WorktreeRemoved agentId (wtPath wt) (wtBranch wt)]
       else events w)%list.
Proof.
  intros Hget.
  unfold removeWorktreeForAgent, removeWorktreeDirectory, loadGitClient,
    external, existsSync, withWorktrees, emit, now, withDuration.
  unfold_effects. unfold Js.ret. cbn. rewrite Hget.
  destruct (importSimpleGit (host w)) eqn:Himport; cbn.
  { eexists; eexists; split; [reflexivity|]. cbn.
    repeat split; try assumption; try discriminate.
    intros [? _]; discriminate. }
  destruct (gitWorktreeRemove (host w) (wtPath wt)) eqn:Hgit; cbn.
  2:{ eexists; eexists; split; [reflexivity|]. cbn.
      rewrite get_delete_same. repeat split; auto. }
  destruct (List.existsb (String.eqb (wtPath wt)) (directories w)) eqn:Hdir; cbn.
  2:{ eexists; eexists; split; [reflexivity|]. cbn.
      rewrite get_delete_same. repeat split; auto. }
  destruct (fsRm (host w) (wtPath wt)) eqn:Hrm; cbn.
  - eexists; eexists; split; [reflexivity|]. cbn.
    repeat split; try assumption; try discriminate.
    intros [_ [H|[H|H]]]; discriminate.
  - eexists; eexists; split; [reflexivity|]. cbn.
    rewrite get_delete_same. repeat split; auto.
Qed.

(** The git command fails, but the directory is no longer on the disk:
    the removal succeeds. *)
Lemma removal_succeeds_exactly_when_witness :
  exists r w',
    removeWorktreeForAgent "a1" WorktreeExamples.emptyDiskWorld
      = (Js.Normal r, w') /\
    success r = true /\
    JsMap.get (worktrees w') "a1" = None.
Proof.
  destruct (@removal_succeeds_exactly_when "a1"
              WorktreeExamples.emptyDiskWorld Examples.staleWorktree)
    as (r & w' & Hrun & Hiff & Hmap & _); [reflexivity|].
  assert (Hs : success r = true).
  { apply Hiff. split; [reflexivity|]. right. left. reflexivity. }
  exists r, w'. rewrite Hs in Hmap. repeat split; assumption.
Defined.

(** Once a removal has succeeded, removing the same agent's
    worktree again changes nothing: no command is sent, and the answer is
    the failure "No worktree found for agent ...". *)
Theorem second_removal_finds_nothing
    (agentId : string) (w w1 : World) (r : GitOperationResult) :
  removeWorktreeForAgent agentId w = (Js.Normal r, w1) ->
  success r = true ->
  removeWorktreeForAgent agentId w1 =
    (Js.Normal {| success := false; output := None;
                  error := Some (notFoundMessage agentId);
                  duration := 0 |}, w1).
Proof.
  intros Hrun Hs.
  destruct (removeWorktreeForAgent_cases agentId w)
    as (r' & w' & sent & Hrun' & _ & _ & Hmap & _).
  rewrite Hrun in Hrun'. injection Hrun' as <- <-.
  rewrite Hs in Hmap.
  unfold removeWorktreeForAgent, now. unfold_effects. cbn.
  rewrite Hmap, get_delete_same. cbn. now rewrite Z.sub_diag.
Qed.

Lemma second_removal_finds_nothing_witness :
  error
    (match removeWorktreeForAgent "a1"
             (snd (removeWorktreeForAgent "a1" WorktreeExamples.emptyDiskWorld))
     with
     | (Js.Normal r, _) => r
     | (Js.Throws _, _) =>
         {| success := true; output := None; error := None; duration := 0 |}
     end)
  = Some (notFoundMessage "a1").
Proof.
  rewrite (@second_removal_finds_nothing "a1" WorktreeExamples.emptyDiskWorld
             (snd (removeWorktreeForAgent "a1" WorktreeExamples.emptyDiskWorld))
             {| success := true;
                output := Some "Worktree removed from /repo/worktrees/agent-a1"%string;
                error := None; duration := 3 |}).
  - reflexivity.
  - reflexivity.
  - reflexivity.
Defined.

Lemma cleanup_of_recent_worktrees (started : Z)
    (entries : list (string * WorktreeInfo)) (w : World) :
  (forall k v, In (k, v) entries -> started - wtLastActivity v <= staleThreshold) ->
  Js.forOf entries (cleanupEntry started) w = (Js.Normal tt, w).
Proof.
  induction entries as [|[k v] entries IH]; intros Hrecent; [reflexivity|].
  cbn [Js.forOf]. unfold Js.bind, cleanupEntry at 1.
  destruct (Z.gtb_spec (started - wtLastActivity v) staleThreshold) as [Hstale|_].
  - specialize (Hrecent k v (or_introl eq_refl)). lia.
  - unfold Js.ret. apply IH. intros k' v' Hin. apply (Hrecent k' v'). now right.
Qed.

(** X22.  A worktree whose activity has just been recorded survives the
    next clean-up, however long it had been idle before. *)
Theorem recorded_activity_protects_from_cleanup
    (agentId : string) (w : World) (wt : WorktreeInfo) :
  JsMap.wf (worktrees w) ->
  JsMap.get (worktrees w) agentId = Some wt ->
  exists w1 w2,
    updateWorktreeActivity agentId w = (Js.Normal tt, w1) /\
    cleanupStaleWorktrees w1 = (Js.Normal tt, w2) /\
    JsMap.get (worktrees w2) agentId = Some (withLastActivity wt (clock w)).
Proof.
  intros Hwf Hget.
  unfold updateWorktreeActivity, withWorktrees, now. unfold_effects.
  rewrite Hget. cbn.
  destruct (@cleanupStaleWorktrees_spares_recent
              {| worktrees := JsMap.set (worktrees w) agentId
                                (withLastActivity wt (clock w));
                 host := host w; directories := directories w;
                 clock := clock w; calls := calls w; events := events w |}
              agentId (withLastActivity wt (clock w)))
    as (w2 & Hrun & Hkept).
  - cbn. now apply wf_set.
  - cbn. apply get_set_same.
  - cbn. unfold staleThreshold. lia.
  - eexists. exists w2. split; [reflexivity|]. split; assumption.
Qed.

Lemma recorded_activity_protects_from_cleanup_witness :
  exists w1 w2,
    updateWorktreeActivity "a1" Examples.stubbornWorld = (Js.Normal tt, w1) /\
    cleanupStaleWorktrees w1 = (Js.Normal tt, w2) /\
    JsMap.get (worktrees w2) "a1"
      = Some (withLastActivity Examples.staleWorktree (25 * Examples.hour)).
Proof.
  apply (@recorded_activity_protects_from_cleanup "a1" Examples.stubbornWorld
           Examples.staleWorktree).
  - repeat constructor. intros [].
  - reflexivity.
Defined.

(** The three counts of [getWorktreeStats] add up to the total. *)
Lemma getWorktreeStats_partition (w : World) :
  total (getWorktreeStats w)
  = active (getWorktreeStats w) + inactive (getWorktreeStats w)
    + corrupted (getWorktreeStats w).
Proof.
  unfold getWorktreeStats. cbn [total active inactive corrupted].
  induction (getAllWorktrees w) as [|wt all IH]; [reflexivity|].
  cbn [List.filter].
  assert (Hone :
    (statusIs Active wt = true /\ statusIs Inactive wt = false
     /\ statusIs Corrupted wt = false) \/
    (statusIs Active wt = false /\ statusIs Inactive wt = true
     /\ statusIs Corrupted wt = false) \/
    (statusIs Active wt = false /\ statusIs Inactive wt = false
     /\ statusIs Corrupted wt = true))
    by (unfold statusIs; destruct (wtStatus wt); auto).
  destruct Hone as [(-> & -> & ->)|[(-> & -> & ->)|(-> & -> & ->)]];
    cbn [List.length]; rewrite !Nat2Z.inj_succ; lia.
Qed.

End UpkeepFacts.

Section DiscoveryFacts.
Import JsString WorktreeManager WorktreeUpkeep.
Local Open Scope Z_scope.

Lemma in_set (V : Type) (m : JsMap.t V) (k k' : string) (v v' : V) :
  In (k', v') (JsMap.set m k v) -> (k', v') = (k, v) \/ In (k', v') m.
Proof.
  induction m as [|[k0 v0] m IH]; cbn [JsMap.set].
  - intros [H|[]]. now left.
  - destruct (String.eqb k0 k); cbn [In].
    + intros [H|H]; [now left|right; now right].
    + intros [H|H]; [right; now left|].
      destruct (IH H); [now left|right; now right].
Qed.

Lemma falsy_false (s : string) : negb (falsy s) = true -> s <> EmptyString.
Proof.
  destruct s; [discriminate|congruence].
Qed.

Lemma discoverLine_step (today : Z) (m : JsMap.t WorktreeInfo)
    (current : Current) (line : string) :
  match current with
  | Blank => True
  | Seeded agentId path t =>
      t = today /\ dirNameOf path = ("agent-" ++ agentId)%string
  end ->
  match snd (discoverLine today (m, current) line) with
  | Blank => True
  | Seeded agentId path t =>
      t = today /\ dirNameOf path = ("agent-" ++ agentId)%string
  end /\
  forall k wt,
    In (k, wt) (fst (discoverLine today (m, current) line)) ->
    In (k, wt) m \/ Discovered today k wt.
Proof.
  intros Hseed. unfold discoverLine.
  destruct (startsWith line "worktree ").
  - destruct (startsWith (dirNameOf (substring 9 line)) "agent-") eqn:Hdir;
      cbn [fst snd]; [|split; [assumption|now left]].
    split; [|now left]. split; [reflexivity|].
    apply prefix_split in Hdir as [rest ->]. reflexivity.
  - destruct current as [|agentId path t]; cbn [fst snd];
      [split; [exact I|now left]|].
    destruct Hseed as [-> Hpath].
    destruct (startsWith line "branch " && negb (falsy agentId))%bool;
      cbn [fst snd]; [|split; [now split|now left]].
    split; [exact I|].
    destruct (negb (falsy agentId) && negb (falsy path)
              && negb (falsy (substring 7 line)))%bool eqn:Hall;
      [|now left].
    apply Bool.andb_true_iff in Hall as [Hall Hbranch].
    apply Bool.andb_true_iff in Hall as [Hid _].
    intros k wt Hin. apply in_set in Hin as [Heq|Hin]; [|now left].
    injection Heq as -> ->. right.
    unfold Discovered, discovered; cbn.
    repeat split; try reflexivity; try assumption;
      now apply falsy_false.
Qed.

Lemma discoverLines_in (today : Z) (lines : list string) :
  forall m current,
    match current with
    | Blank => True
    | Seeded agentId path t =>
        t = today /\ dirNameOf path = ("agent-" ++ agentId)%string
    end ->
    forall k wt,
      In (k, wt) (fst (List.fold_left (discoverLine today) lines (m, current))) ->
      In (k, wt) m \/ Discovered today k wt.
Proof.
  induction lines as [|line lines IH]; intros m current Hseed k wt;
    cbn [List.fold_left]; [now left|].
  destruct (@discoverLine_step today m current line Hseed) as [Hnext Hmap].
  destruct (discoverLine today (m, current) line) as [m' current'].
  cbn [fst snd] in *.
  intros Hin. apply (IH m' current' Hnext) in Hin as [Hin|Hnew]; [|now right].
  now apply Hmap.
Qed.

Lemma discoverExistingWorktrees_returns
    (listing : Listing) (w : World) :
  exists w',
    discoverExistingWorktrees listing w = (Js.Normal tt, w') /\
    calls w' = calls w /\ events w' = events w /\
    forall k wt,
      In (k, wt) (JsMap.entries (worktrees w')) ->
      In (k, wt) (JsMap.entries (worktrees w)) \/ Discovered (clock w') k wt.
Proof.
  unfold discoverExistingWorktrees, loadGitClient, gitWorktreeList,
    withWorktrees, now.
  unfold_effects.
  destruct (importSimpleGit (host w)); cbn.
  { exists w. repeat split. now left. }
  destruct listing as [text|e]; cbn.
  - eexists. split; [reflexivity|]. cbn. repeat split.
    intros k wt Hin. unfold discoverLines, JsMap.entries in *.
    now apply (@discoverLines_in _ _ _ Blank I) in Hin.
  - eexists. split; [reflexivity|]. cbn. repeat split. now left.
Qed.

Lemma discoverLine_keeps (today : Z) (m : JsMap.t WorktreeInfo)
    (current : Current) (line : string) :
  match current with
  | Blank => True
  | Seeded agentId path t =>
      t = today /\ dirNameOf path = ("agent-" ++ agentId)%string
  end ->
  forall k wt,
    JsMap.get m k = Some wt ->
    exists wt',
      JsMap.get (fst (discoverLine today (m, current) line)) k = Some wt' /\
      (wt' = wt \/ Discovered today k wt').
Proof.
  intros Hseed k wt Hget. unfold discoverLine.
  destruct (startsWith line "worktree ").
  { destruct (startsWith (dirNameOf (substring 9 line)) "agent-");
      cbn [fst]; eauto. }
  destruct current as [|agentId path t]; cbn [fst]; [eauto|].
  destruct Hseed as [-> Hpath].
  destruct (startsWith line "branch " && negb (falsy agentId))%bool;
    cbn [fst]; [|eauto].
  destruct (negb (falsy agentId) && negb (falsy path)
            && negb (falsy (substring 7 line)))%bool eqn:Hall; [|eauto].
  apply Bool.andb_true_iff in Hall as [Hall Hbranch].
  apply Bool.andb_true_iff in Hall as [Hid _].
  destruct (String.eqb_spec agentId k) as [->|Hne].
  - rewrite get_set_same. eexists. split; [reflexivity|]. right.
    unfold Discovered, discovered; cbn.
    repeat split; try reflexivity; try assumption; now apply falsy_false.
  - rewrite get_set_other by assumption. eauto.
Qed.

Lemma discoverLines_keep (today : Z) (lines : list string) :
  forall m current,
    match current with
    | Blank => True
    | Seeded agentId path t =>
        t = today /\ dirNameOf path = ("agent-" ++ agentId)%string
    end ->
    forall k wt,
      JsMap.get m k = Some wt ->
      exists wt',
        JsMap.get (fst (List.fold_left (discoverLine today) lines (m, current))) k
          = Some wt' /\
        (wt' = wt \/ Discovered today k wt').
Proof.
  induction lines as [|line lines IH]; intros m current Hseed k wt Hget;
    cbn [List.fold_left]; [eauto|].
  destruct (@discoverLine_step today m current line Hseed) as [Hnext _].
  destruct (@discoverLine_keeps today m current line Hseed k wt Hget)
    as (wt1 & Hget1 & Hwt1).
  destruct (discoverLine today (m, current) line) as [m' current'].
  cbn [fst snd] in *.
  destruct (IH m' current' Hnext k wt1 Hget1) as (wt' & Hget' & Hwt').
  exists wt'. split; [assumption|].
  destruct Hwt' as [->|Hd]; [assumption|now right].
Qed.

(** Lines that open no block and close none leave a block as it is. *)
Lemma discoverLines_skip (today : Z) (lines : list string)
    (m : JsMap.t WorktreeInfo) (current : Current) :
  Forall (fun line => startsWith line "worktree " = false /\
                      (current = Blank \/ startsWith line "branch " = false))
         lines ->
  List.fold_left (discoverLine today) lines (m, current) = (m, current).
Proof.
  induction 1 as [|line lines [Hw Hb] _ IH]; [reflexivity|].
  cbn [List.fold_left]. unfold discoverLine at 2. rewrite Hw.
  destruct current as [|agentId path t]; [exact IH|].
  destruct Hb as [Hb|Hb]; [discriminate|]. rewrite Hb. exact IH.
Qed.

Lemma dirNameOf_not_empty (path id : string) :
  dirNameOf path = ("agent-" ++ id)%string -> negb (falsy path) = true.
Proof.
  destruct path; [discriminate|reflexivity].
Qed.

(** A block of the listing: a [worktree] line for a directory
    [agent-<id>], lines of other kinds, a [branch] line. *)
Lemma discoverLines_block (today : Z) (m : JsMap.t WorktreeInfo)
    (current : Current) (path branch id : string) (middle : list string) :
  dirNameOf path = ("agent-" ++ id)%string ->
  id <> EmptyString -> branch <> EmptyString ->
  Forall (fun line => startsWith line "worktree " = false /\
                      startsWith line "branch " = false) middle ->
  List.fold_left (discoverLine today)
    (("worktree " ++ path)%string :: middle ++ [("branch " ++ branch)%string])
    (m, current)
  = (JsMap.set m id (discovered id path branch today), Blank).
Proof.
  intros Hdir Hid Hbranch Hmiddle.
  cbn [List.fold_left]. rewrite List.fold_left_app.
  assert (Hopen : discoverLine today (m, current) ("worktree " ++ path)%string
                  = (m, Seeded id path today)).
  { unfold discoverLine.
    replace (startsWith ("worktree " ++ path) "worktree ") with true
      by (symmetry; apply prefix_split; now exists path).
    change (substring 9 ("worktree " ++ path)) with path.
    rewrite Hdir.
    replace (startsWith ("agent-" ++ id) "agent-") with true
      by (symmetry; apply prefix_split; now exists id).
    reflexivity. }
  rewrite Hopen, discoverLines_skip.
  - cbn [List.fold_left]. unfold discoverLine.
    change (startsWith ("branch " ++ branch) "worktree ") with false.
    replace (startsWith ("branch " ++ branch) "branch ") with true
      by (symmetry; apply prefix_split; now exists branch).
    change (substring 7 ("branch " ++ branch)) with branch.
    rewrite (@dirNameOf_not_empty path id Hdir).
    destruct id; [congruence|]. destruct branch; [congruence|]. reflexivity.
  - eapply Forall_impl; [|exact Hmiddle]. intros line [Hw Hb]. auto.
Qed.

Lemma discoverLines_records (today : Z) (text : string)
    (m : JsMap.t WorktreeInfo)
    (before : list string) (path : string) (middle : list string)
    (branch : string) (after : list string) (id : string) :
  splitLines text
    = (before ++ ("worktree " ++ path)%string
         :: middle ++ ("branch " ++ branch)%string :: after)%list ->
  dirNameOf path = ("agent-" ++ id)%string ->
  id <> EmptyString -> branch <> EmptyString ->
  Forall (fun line => startsWith line "worktree " = false /\
                      startsWith line "branch " = false) middle ->
  exists wt,
    JsMap.get (discoverLines today text m) id = Some wt /\
    Discovered today id wt /\
    (Forall (fun line => startsWith line "worktree " = false) after ->
     wt = discovered id path branch today).
Proof.
  intros Hlines Hdir Hid Hbranch Hmiddle.
  unfold discoverLines. rewrite Hlines.
  replace (before ++ ("worktree " ++ path)%string
             :: middle ++ ("branch " ++ branch)%string :: after)%list
    with (before ++ (("worktree " ++ path)%string
                       :: middle ++ [("branch " ++ branch)%string])
                 ++ after)%list
    by (cbn [app]; now rewrite <- app_assoc).
  rewrite !List.fold_left_app.
  destruct (List.fold_left (discoverLine today) before (m, Blank)) as [m1 c1].
  rewrite (@discoverLines_block today m1 c1 path branch id middle)
    by assumption.
  assert (Hrecord : Discovered today id (discovered id path branch today)).
  { unfold Discovered, discovered; cbn. repeat split; assumption. }
  destruct (@discoverLines_keep today after
              (JsMap.set m1 id (discovered id path branch today)) Blank I
              id (discovered id path branch today) (get_set_same _ _ _))
    as (wt & Hget & Hwt).
  exists wt. split; [assumption|]. split.
  - destruct Hwt as [->|Hd]; assumption.
  - intros Hlast. rewrite discoverLines_skip in Hget.
    + cbn [fst] in Hget. rewrite get_set_same in Hget. congruence.
    + eapply Forall_impl; [|exact Hlast]. intros line Hw. auto.
Qed.

(** X23.  Discovery never fails, sends no command and emits no event.
    It drops no key: a record that was there is still there, or has been
    replaced by one discovered under the same agent id.  Every record it
    adds is filed under the agent id read off the directory name
    [agent-<id>] of its path, with that id not empty, a branch that is
    not empty, the status active and the time of the discovery as its
    last activity.  And every block of the listing that names such a
    directory and a branch is recorded: afterwards the map holds a
    discovered record under that id, and it is the record of this very
    block when no further [worktree] line follows. *)
Theorem discovery_files_worktrees_under_their_agent
    (listing : Listing) (w : World) :
  exists w',
    discoverExistingWorktrees listing w = (Js.Normal tt, w') /\
    calls w' = calls w /\ events w' = events w /\
    (forall k wt,
       In (k, wt) (JsMap.entries (worktrees w')) ->
       In (k, wt) (JsMap.entries (worktrees w)) \/ Discovered (clock w') k wt) /\
    (forall k wt,
       JsMap.get (worktrees w) k = Some wt ->
       exists wt',
         JsMap.get (worktrees w') k = Some wt' /\
         (wt' = wt \/ Discovered (clock w') k wt')) /\
    (forall text before path middle branch after id,
       importSimpleGit (host w) = None ->
       listing = Prints text ->
       splitLines text
         = (before ++ ("worktree " ++ path)%string
              :: middle ++ ("branch " ++ branch)%string :: after)%list ->
       dirNameOf path = ("agent-" ++ id)%string ->
       id <> EmptyString -> branch <> EmptyString ->
       Forall (fun line => startsWith line "worktree " = false /\
                           startsWith line "branch " = false) middle ->
       exists wt,
         JsMap.get (worktrees w') id = Some wt /\
         Discovered (clock w') id wt /\
         (Forall (fun line => startsWith line "worktree " = false) after ->
          wt = discovered id path branch (clock w'))).
Proof.
  unfold discoverExistingWorktrees, loadGitClient, gitWorktreeList,
    withWorktrees, now.
  unfold_effects.
  destruct (importSimpleGit (host w)) eqn:Himport; cbn.
  { exists w. repeat split; eauto. discriminate. }
  destruct listing as [text|e]; cbn.
  2:{ eexists. split; [reflexivity|]. cbn. repeat split; eauto.
      discriminate. }
  eexists. split; [reflexivity|]. cbn.
  split; [reflexivity|]. split; [reflexivity|].
  unfold discoverLines, JsMap.entries. split; [|split].
  - intros k wt Hin.
    now apply (@discoverLines_in _ _ _ Blank I) in Hin.
  - intros k wt Hget.
    now apply (@discoverLines_keep _ _ _ Blank I).
  - intros text' before path middle branch after id _ [= <-].
    apply discoverLines_records.
Qed.

(** The listing of a repository with its main worktree and the worktree
    of agent a1: the second block is recorded. *)
Lemma discovery_files_worktrees_under_their_agent_witness :
  exists w',
    discoverExistingWorktrees (Prints WorktreeExamples.twoWorktrees)
      WorktreeExamples.newManager = (Js.Normal tt, w') /\
    JsMap.get (worktrees w') "a1"
    = Some (discovered "a1" "/repo/worktrees/agent-a1"
              "refs/heads/agent-a1-1" (clock w')).
Proof.
  destruct (discovery_files_worktrees_under_their_agent
              (Prints WorktreeExamples.twoWorktrees)
              WorktreeExamples.newManager)
    as (w' & Hrun & _ & _ & _ & _ & Hblock).
  exists w'. split; [exact Hrun|].
  destruct (Hblock WorktreeExamples.twoWorktrees
              ["worktree /repo"; "HEAD 1f2e3d"; "branch refs/heads/main"; ""]%string
              "/repo/worktrees/agent-a1"%string
              ["HEAD 4a5b6c"%string]
              "refs/heads/agent-a1-1"%string
              [""%string] "a1"%string)
    as (wt & Hget & _ & Hlast);
    try reflexivity; try discriminate.
  - repeat constructor.
  - rewrite Hget, Hlast; [reflexivity|]. repeat constructor.
Defined.

(** X24.  On a manager that holds no worktree yet, [initialize] is the
    discovery alone: the clean-up that follows it finds nothing stale,
    removes nothing and sends no command, and [initialize] does not
    throw. *)
Theorem initialize_keeps_what_it_discovers (listing : Listing) (w : World) :
  worktrees w = JsMap.empty WorktreeInfo ->
  initialize listing w = discoverExistingWorktrees listing w.
Proof.
  intros Hempty.
  destruct (discoverExistingWorktrees_returns listing w)
    as (w' & Hrun & _ & _ & Hin).
  unfold initialize, Js.tryCatch, Js.bind. rewrite Hrun.
  unfold cleanupStaleWorktrees, Js.bind, now, Js.gets.
  rewrite cleanup_of_recent_worktrees; [reflexivity|].
  intros k v Hkv. apply Hin in Hkv as [Hold|Hnew].
  - rewrite Hempty in Hold. destruct Hold.
  - destruct Hnew as (_ & _ & _ & _ & -> & _).
    unfold staleThreshold. lia.
Qed.

Lemma initialize_keeps_what_it_discovers_witness :
  JsMap.keys
    (worktrees
       (snd (initialize (Prints WorktreeExamples.twoWorktrees)
               WorktreeExamples.newManager)))
  = ["a1"%string].
Proof.
  rewrite (@initialize_keeps_what_it_discovers
             (Prints WorktreeExamples.twoWorktrees)
             WorktreeExamples.newManager).
  - reflexivity.
  - reflexivity.
Defined.

End DiscoveryFacts.

(** ** The conflict resolver: what the parser hands to the strategies *)

Section ParserFacts.
Import JsString ConflictResolver ConflictStrategies.
Local Open Scope Z_scope.

Lemma parsedShape_later (n m : Z) (s : ConflictSection) :
  n <= m -> parsedShape n s -> parsedShape m s.
Proof.
  intros Hle (Ht & Hb & first & last & text & Hf & Hl & Ho & H1 & H2 & H3).
  repeat split; try assumption.
  exists first, last, text. repeat split; try assumption. lia.
Qed.

Lemma sorted_snoc (A : Type) (R : A -> A -> Prop) (l : list A) (x : A) :
  StronglySorted R l -> Forall (fun y => R y x) l ->
  StronglySorted R (l ++ [x]).
Proof.
  induction 1 as [|a l Hsorted IH Hall]; intros Hx; cbn.
  - constructor; constructor.
  - inversion Hx; subst. constructor; [auto|].
    apply Forall_app. split; [assumption|]. now constructor.
Qed.

Lemma scanLine_keeps_scanning (st : Scan) (line : string) :
  scanning st -> scanning (scanLine st line).
Proof.
  intros (Hn & Hfound & Hsorted & Hcur).
  assert (Hlater : Forall (parsedShape (lineNumber st + 1)) (found st)).
  { eapply Forall_impl; [|exact Hfound].
    intros s. apply parsedShape_later. lia. }
  assert (Hbefore : forall c first,
             startLine c = Some first -> first = lineNumber st + 1 ->
             Forall (fun s => precedes s c) (found st)).
  { intros c first Hc ->. eapply Forall_impl; [|exact Hfound].
    intros s (_ & _ & f & l & t & _ & Hl & _ & _ & _ & Hle).
    exists l, (lineNumber st + 1). repeat split; try assumption. lia. }
  unfold scanLine.
  destruct (startsWith line "<<<<<<<").
  { repeat split; cbn; try assumption; try lia.
    - now apply (Hbefore _ (lineNumber st + 1)).
    - exists (lineNumber st + 1), ""%string. repeat split; lia. }
  destruct (currentConflict st) as [c|] eqn:Hc; cbn [isSome option_map].
  2:{ rewrite !Bool.andb_false_r. repeat split; cbn; try assumption; lia. }
  destruct Hcur as (Ht & Hb & Hprev & first & text & Hf & Ho & H1 & H2).
  rewrite !Bool.andb_true_r.
  destruct (startsWith line "=======").
  { repeat split; cbn; try assumption; try lia.
    exists first, text. rewrite Ho. cbn. repeat split; try assumption; lia. }
  destruct (startsWith line ">>>>>>>").
  { repeat split; cbn; try lia.
    - apply Forall_app. split; [assumption|]. constructor; [|constructor].
      repeat split; cbn; try assumption.
      exists first, (lineNumber st + 1), text.
      repeat split; try assumption; lia.
    - apply sorted_snoc; [assumption|].
      eapply Forall_impl; [|exact Hprev].
      intros s (l & f & Hl & Hs & Hlt). exists l, f. now repeat split. }
  rewrite Ho, Ht. cbn [isSome negb andb absent].
  repeat split; cbn; try assumption; try lia.
  exists first, (text ++ line ++ String LF EmptyString)%string.
  repeat split; try assumption; lia.
Qed.

Lemma scan_keeps_scanning (lines : list string) :
  forall st,
    scanning st ->
    scanning (List.fold_left scanLine lines st) /\
    lineNumber (List.fold_left scanLine lines st) = lineNumber st + count lines.
Proof.
  unfold count.
  induction lines as [|line lines IH]; intros st Hst; cbn [List.fold_left].
  - split; [assumption|]. cbn. lia.
  - destruct (IH (scanLine st line) (scanLine_keeps_scanning line Hst))
      as [Hscan Hn].
    split; [assumption|]. rewrite Hn.
    replace (lineNumber (scanLine st line)) with (lineNumber st + 1).
    + cbn [List.length]. lia.
    + unfold scanLine.
      destruct (startsWith line "<<<<<<<"); [reflexivity|].
      destruct (startsWith line "=======" && isSome (currentConflict st))%bool;
        [reflexivity|].
      destruct (startsWith line ">>>>>>>" && isSome (currentConflict st))%bool.
      * now destruct (currentConflict st).
      * destruct (currentConflict st) as [c|]; [|reflexivity].
        destruct (isSome (ours c) && negb (startsWith line "======="))%bool;
          [now destruct (absent (theirs c))|].
        now destruct (startsWith line "=======").
Qed.

Lemma scanLines_shape (lines : list string) :
  Forall (parsedShape (count lines)) (scanLines lines) /\
  StronglySorted precedes (scanLines lines).
Proof.
  unfold scanLines.
  destruct (@scan_keeps_scanning lines
              {| found := []; currentConflict := None; lineNumber := 0 |})
    as [(_ & Hfound & Hsorted & _) Hn].
  - repeat split; cbn; try constructor. lia.
  - cbn in Hn. rewrite Hn in Hfound. split; assumption.
Qed.

(** X25.  Whatever the file holds, every section the parser returns has
    its text in [ours] and no [theirs], starts at a line from 1 on and
    ends at a later line of the file; the sections come in file order and
    do not overlap. *)
Theorem parsed_sections_never_carry_theirs
    (strategies : list ConflictResolutionStrategy) (filePath content : string) :
  Forall (parsedShape (count (splitLines content)))
    (sections (parseConflictFile strategies filePath content)) /\
  StronglySorted precedes
    (sections (parseConflictFile strategies filePath content)).
Proof.
  exact (scanLines_shape (splitLines content)).
Qed.

End ParserFacts.

Section StrategyFacts.
Import JsString ConflictResolver ConflictStrategies.
Local Open Scope Z_scope.

Lemma simpleAddition_accepts_parsed (conflict : ConflictInfo) (n : Z) :
  Forall (parsedShape n) (sections conflict) ->
  simpleAdditionCanResolve conflict = true.
Proof.
  unfold simpleAdditionCanResolve. intros Hall.
  apply List.forallb_forall. intros s Hin.
  rewrite Forall_forall in Hall. destruct (Hall s Hin) as (Ht & _).
  unfold theirsTrimmed. rewrite Ht. apply Bool.orb_true_r.
Qed.

Lemma every_parsed_file_is_flagged
    (sortedImports readFile : ConflictInfo -> Js.Eff Z string)
    (filePath content : string) :
  autoResolvable
    (parse (defaultStrategies sortedImports readFile) filePath content) = true /\
  simpleAdditionCanResolve
    (parse (defaultStrategies sortedImports readFile) filePath content) = true.
Proof.
  destruct (scanLines_shape (splitLines content)) as [Hshape _].
  split.
  - unfold parse, parseConflictFile, isAutoResolvable, defaultStrategies.
    cbn [autoResolvable List.map List.existsb strategy canResolve
         whitespaceStrategy importOrderStrategy simpleAdditionStrategy
         packageJsonStrategy].
    rewrite (@simpleAddition_accepts_parsed _ (count (splitLines content)))
      by exact Hshape.
    now rewrite !Bool.orb_true_r.
  - now apply (@simpleAddition_accepts_parsed _ (count (splitLines content))).
Qed.

(** X26.  With the default strategies, the parser flags every file as
    auto-resolvable, whatever it holds: the simple-addition strategy
    accepts any conflict whose sections have no [theirs].  So the strategy
    used is one of the first three; the package.json strategy, registered
    after it, is never the one chosen for a parsed file. *)
Theorem every_parsed_file_counts_as_auto_resolvable
    (sortedImports readFile : ConflictInfo -> Js.Eff Z string)
    (filePath content : string) :
  autoResolvable
    (parse (defaultStrategies sortedImports readFile) filePath content) = true /\
  (findBestStrategy (defaultStrategies sortedImports readFile)
     (parse (defaultStrategies sortedImports readFile) filePath content)
     = Some whitespaceStrategy \/
   findBestStrategy (defaultStrategies sortedImports readFile)
     (parse (defaultStrategies sortedImports readFile) filePath content)
     = Some (importOrderStrategy sortedImports) \/
   findBestStrategy (defaultStrategies sortedImports readFile)
     (parse (defaultStrategies sortedImports readFile) filePath content)
     = Some simpleAdditionStrategy).
Proof.
  destruct (every_parsed_file_is_flagged sortedImports readFile filePath content)
    as [Hauto Hsimple].
  split; [exact Hauto|].
  set (conflict := parse (defaultStrategies sortedImports readFile)
                     filePath content) in *.
  unfold findBestStrategy, defaultStrategies.
  cbn [List.filter strategy canResolve whitespaceStrategy
       importOrderStrategy simpleAdditionStrategy packageJsonStrategy].
  destruct (whitespaceCanResolve conflict); [now left|].
  destruct (importOrderCanResolve conflict); [right; now left|].
  rewrite Hsimple. right. now right.
Qed.

End StrategyFacts.

(** ** The conflict resolver: [resolveConflicts] *)

Section ResolutionFacts.
Import JsString ConflictResolver ConflictStrategies.
Import WorktreeManager(success).
Local Open Scope Z_scope.

Lemma resolveConflict_cases (strategies : list Resolver) (conflict : ConflictInfo)
    (r : Repo) :
  exists result r',
    resolveConflict strategies conflict r = (Js.Normal result, r') /\
    refused r' = refused r /\
    ((success result = false /\ written r' = written r
      /\ notified r' = notified r) \/
     (success result = true /\
      exists s content t,
        findBestStrategy strategies conflict = Some s /\
        autoResolvable conflict = true /\
        resolve s conflict (clock r) = (Js.Normal content, t) /\
        refused r (file conflict) = None /\
        written r' = (written r ++ [(file conflict, content)])%list /\
        notified r'
          = (notified r ++ [(file conflict, strategyName (strategy s))])%list)).
Proof.
  unfold resolveConflict, callResolve, writeResolvedContent, emit, now, failure.
  unfold_effects. unfold Js.ret.
  destruct (findBestStrategy strategies conflict) as [s|];
    [|eexists; eexists; split; [reflexivity|]; cbn; split; [reflexivity|];
      left; repeat split].
  destruct (autoResolvable conflict);
    [|eexists; eexists; split; [reflexivity|]; cbn; split; [reflexivity|];
      left; repeat split].
  cbn.
  destruct (resolve s conflict (clock r)) as [[content|e] t] eqn:Hresolve; cbn;
    [|eexists; eexists; split; [reflexivity|]; cbn; split; [reflexivity|];
      left; repeat split].
  destruct (refused r (file conflict)) eqn:Hwrite; cbn;
    [eexists; eexists; split; [reflexivity|]; cbn; split; [reflexivity|];
     left; repeat split|].
  eexists; eexists; split; [reflexivity|]. cbn. split; [reflexivity|].
  right. split; [reflexivity|]. exists s, content, t. repeat split.
  assumption.
Qed.

Lemma resolveConflictsFrom_run (strategies : list Resolver)
    (conflicts : list ConflictInfo) :
  forall earlier r,
  exists results r',
    resolveConflictsFrom strategies conflicts earlier r
      = (Js.Normal (earlier ++ results)%list, r') /\
    List.length results = List.length conflicts /\
    List.map fst (written r')
      = (List.map fst (written r)
         ++ List.map (fun p => file (fst p))
              (List.filter (fun p => success (snd p))
                 (List.combine conflicts results)))%list /\
    (forall c result,
       In (c, result) (List.combine conflicts results) ->
       success result = true ->
       autoResolvable c = true /\ findBestStrategy strategies c <> None).
Proof.
  induction conflicts as [|conflict rest IH]; intros earlier r;
    cbn [resolveConflictsFrom].
  - exists [], r. rewrite !app_nil_r. cbn.
    split; [reflexivity|]. split; [reflexivity|]. split; [reflexivity|].
    intros c result [].
  - destruct (resolveConflict_cases strategies conflict r)
      as (result & r1 & Hrun & Hrefused & Hcase).
    unfold Js.bind. rewrite Hrun.
    destruct (IH (earlier ++ [result])%list r1)
      as (results & r' & Hrest & Hlen & Hwritten & Hsound).
    exists (result :: results), r'.
    rewrite Hrest, <- app_assoc. cbn [app List.length List.combine].
    split; [reflexivity|]. split; [now rewrite Hlen|].
    cbn [List.filter fst snd].
    destruct Hcase as [(Hs & Hw & _)|(Hs & s & content & t & Hbest & Hauto
                                      & _ & _ & Hw & _)];
      rewrite Hs, Hwritten, Hw.
    + split; [reflexivity|].
      intros c res [Heq|Hin] Hok; [|now apply (Hsound c res)].
      injection Heq as <- <-. congruence.
    + rewrite List.map_app, <- app_assoc. split; [reflexivity|].
      intros c res [Heq|Hin] Hok; [|now apply (Hsound c res)].
      injection Heq as <- <-. split; [assumption|congruence].
Qed.

(** X27.  [resolveConflicts] never throws and answers every conflict, in
    order: there are as many results as conflicts, a file is written
    exactly for the conflicts whose result is a success, and a success
    needs the auto-resolvable flag and a strategy that accepts the
    conflict. *)
Theorem resolveConflicts_answers_every_conflict
    (strategies : list Resolver) (conflicts : list ConflictInfo) (r : Repo) :
  exists results r',
    resolveConflicts strategies conflicts r = (Js.Normal results, r') /\
    List.length results = List.length conflicts /\
    List.map fst (written r')
      = (List.map fst (written r)
         ++ List.map (fun p => file (fst p))
              (List.filter (fun p => success (snd p))
                 (List.combine conflicts results)))%list /\
    (forall c result,
       In (c, result) (List.combine conflicts results) ->
       success result = true ->
       autoResolvable c = true /\ findBestStrategy strategies c <> None).
Proof.
  exact (resolveConflictsFrom_run strategies conflicts [] r).
Qed.

Lemma fold_left_append (A : Type) (h : A -> string) (l : list A) :
  forall acc,
    List.fold_left (fun resolved s => (resolved ++ h s)%string) l acc
    = (acc ++ List.fold_right (fun s rest => h s ++ rest) "" l)%string.
Proof.
  induction l as [|x l IH]; intros acc; cbn [List.fold_left List.fold_right].
  - now rewrite append_empty_r.
  - now rewrite IH, append_assoc.
Qed.

Lemma simpleAddition_on_scanned (regions : list Region) :
  forall n,
    List.fold_right
      (fun s rest =>
         ((if negb (String.eqb (trim (oursOf s)) "") then oursOf s
           else theirsOf s) ++ rest)%string)
      ""%string (scannedSections n regions)
    = resolvedText regions.
Proof.
  induction regions as [|region regions IH]; intros n; [reflexivity|].
  cbn [scannedSections List.fold_right resolvedText].
  unfold resolvedText in IH. rewrite IH.
  unfold oursOf, theirsOf, keptText. cbn [ours theirs orEmpty].
  now destruct (String.eqb (trim (joinLines (oursLines region ++ theirsLines region)))
                  "").
Qed.

(** X28.  What auto-resolution writes.  For a well-formed file that the
    first two strategies leave to the simple-addition strategy, the file
    is overwritten with the text of its conflict regions alone, both
    sides of each one after the other: the markers are gone, and so is
    every line outside the regions. *)
Theorem auto_resolution_keeps_only_the_conflict_text
    (sortedImports readFile : ConflictInfo -> Js.Eff Z string)
    (filePath content : string) (leading : list string)
    (regions : list Region) (r : Repo) :
  splitLines content = fileLines leading regions ->
  List.forallb plain leading = true ->
  List.forallb wellFormed regions = true ->
  whitespaceCanResolve
    (parse (defaultStrategies sortedImports readFile) filePath content) = false ->
  importOrderCanResolve
    (parse (defaultStrategies sortedImports readFile) filePath content) = false ->
  refused r filePath = None ->
  exists result r',
    resolveConflicts (defaultStrategies sortedImports readFile)
      [parse (defaultStrategies sortedImports readFile) filePath content] r
      = (Js.Normal [result], r') /\
    success result = true /\
    written r' = (written r ++ [(filePath, resolvedText regions)])%list.
Proof.
  intros Hlines Hlead Hwf Hwhite Himport Hwrite.
  destruct (every_parsed_file_is_flagged sortedImports readFile filePath content)
    as [Hauto Hsimple].
  assert (Hbest :
    findBestStrategy (defaultStrategies sortedImports readFile)
      (parse (defaultStrategies sortedImports readFile) filePath content)
    = Some simpleAdditionStrategy).
  { set (conflict := parse (defaultStrategies sortedImports readFile)
                       filePath content) in *.
    unfold findBestStrategy, defaultStrategies.
    cbn [List.filter strategy canResolve whitespaceStrategy
         importOrderStrategy simpleAdditionStrategy packageJsonStrategy].
    now rewrite Hwhite, Himport, Hsimple. }
  unfold resolveConflicts. cbn [resolveConflictsFrom].
  unfold resolveConflict, callResolve, writeResolvedContent, emit, now.
  unfold_effects. unfold Js.ret.
  rewrite Hbest, Hauto. cbn.
  change (file (parse (defaultStrategies sortedImports readFile) filePath content))
    with filePath.
  rewrite Hwrite. cbn.
  eexists; eexists; split; [reflexivity|]. split; [reflexivity|].
  cbn. f_equal. f_equal. f_equal.
  unfold simpleAdditionResolve, parse, parseConflictFile. cbn [sections].
  rewrite Hlines.
  destruct (scanLines_well_formed leading regions Hlead Hwf) as [-> _].
  rewrite fold_left_append. apply simpleAddition_on_scanned.
Qed.

(** A read-me with a title, one conflict and a last line: what is
    written back is the two sides of the conflict. *)
Lemma auto_resolution_keeps_only_the_conflict_text_witness :
  exists result r',
    resolveConflicts ConflictExamples.strategies
      [parse ConflictExamples.strategies "README.md" ConflictExamples.readme]
      ConflictExamples.healthyRepo
      = (Js.Normal [result], r') /\
    success result = true /\
    written r'
      = [("README.md"%string,
          ("a" ++ Examples.nl ++ "b" ++ Examples.nl)%string)].
Proof.
  apply (@auto_resolution_keeps_only_the_conflict_text
           ConflictExamples.hostPart ConflictExamples.hostPart
           "README.md" ConflictExamples.readme ["# Title"%string]
           [ConflictExamples.readmeLayout] ConflictExamples.healthyRepo);
    reflexivity.
Defined.

End ResolutionFacts.

(** ** The event bus *)

Section BusFacts.
Import JsString EventBus.
Local Open Scope Z_scope.

Lemma slice_last (A : Type) (n : Z) (xs : list A) :
  0 < n -> slice (- n) xs = lastOf (Z.to_nat n) xs.
Proof.
  intros Hn. unfold slice, lastOf, size.
  destruct (Z.ltb_spec (- n) 0) as [_|H]; [|lia].
  f_equal. lia.
Qed.

Lemma lastOf_snoc (A : Type) (n : nat) (xs : list A) (x : A) :
  lastOf n (lastOf n xs ++ [x]) = lastOf n (xs ++ [x]).
Proof.
  unfold lastOf.
  rewrite !List.length_app, List.length_skipn. cbn [List.length].
  rewrite !List.skipn_app, List.skipn_skipn, List.length_skipn.
  destruct (Nat.le_gt_cases (List.length xs) n) as [Hle|Hgt].
  - replace (List.length xs - n)%nat with 0%nat by lia.
    rewrite Nat.sub_0_r, Nat.add_0_r. reflexivity.
  - f_equal; f_equal; lia.
Qed.

Lemma lastOf_short (A : Type) (n : nat) (xs : list A) :
  (List.length xs <= n)%nat -> lastOf n xs = xs.
Proof.
  intros Hle. unfold lastOf.
  now replace (List.length xs - n)%nat with 0%nat by lia.
Qed.

Lemma lastOf_length (A : Type) (n : nat) (xs : list A) :
  (List.length (lastOf n xs) <= n)%nat.
Proof.
  unfold lastOf. rewrite List.length_skipn. lia.
Qed.


Lemma emit_run (event : MADOEvent) (b : Bus) :
  emit event b =
  (Js.Normal tt,
   {| eventHistory := lastOf 1000 (eventHistory b ++ [event]);
      heard := heard b |}).
Proof.
  unfold emit, addToHistory, deliver, withHistory. unfold_effects.
  unfold Js.ret. cbn.
  destruct (Z.gtb_spec (size (eventHistory b ++ [event])) maxHistorySize)
    as [Hover|Hfits]; cbn.
  - change (slice (-1000) (eventHistory b ++ [event])%list)
      with (slice (- (1000)) (eventHistory b ++ [event])%list).
    rewrite (@slice_last _ 1000) by lia.
    now destruct (heard b event).
  - rewrite lastOf_short
      by (unfold size, maxHistorySize in Hfits; lia).
    now destruct (heard b event).
Qed.

Lemma emitAll_run (events : list MADOEvent) :
  forall b,
    (List.length (eventHistory b) <= 1000)%nat ->
    emitAll events b =
    (Js.Normal tt,
     {| eventHistory := lastOf 1000 (eventHistory b ++ events);
        heard := heard b |}).
Proof.
  unfold emitAll.
  induction events as [|event events IH]; intros b Hfits; cbn [Js.forOf].
  - rewrite app_nil_r, lastOf_short by assumption. now destruct b.
  - unfold Js.bind. rewrite emit_run, IH by apply lastOf_length.
    cbn [eventHistory heard]. do 2 f_equal.
    clear. revert event. induction events as [|e events IH]; intros event.
    + rewrite app_nil_r. apply lastOf_short, lastOf_length.
    + replace (eventHistory b ++ event :: e :: events)%list
        with ((eventHistory b ++ [event]) ++ e :: events)%list
        by now rewrite <- app_assoc.
      set (h := (eventHistory b ++ [event])%list).
      unfold lastOf at 1 3.
      rewrite !List.length_app, !List.skipn_app.
      unfold lastOf. rewrite List.skipn_skipn, !List.length_skipn.
      destruct (Nat.le_gt_cases (List.length h) 1000) as [Hle|Hgt].
      * replace (List.length h - 1000)%nat with 0%nat by lia.
        rewrite Nat.sub_0_r, Nat.add_0_r. reflexivity.
      * f_equal; f_equal; lia.
Qed.

(** X29.  The history of the bus holds the last 1000 events emitted, in
    the order of their emission, and [emit] returns normally and records
    the event even when a listener throws. *)
Theorem history_holds_the_last_thousand (events : list MADOEvent) (b : Bus) :
  size (eventHistory b) <= maxHistorySize ->
  exists b',
    emitAll events b = (Js.Normal tt, b') /\
    eventHistory b' = lastOf 1000 (eventHistory b ++ events) /\
    size (eventHistory b') <= maxHistorySize.
Proof.
  intros Hfits. eexists. split; [|split].
  - apply emitAll_run. unfold size, maxHistorySize in Hfits. lia.
  - reflexivity.
  - cbn [eventHistory]. unfold size, maxHistorySize.
    pose proof (lastOf_length 1000 (eventHistory b ++ events)). lia.
Qed.

(** Five events on a bus one of whose listeners throws at two of them:
    all five are in the history. *)
Lemma history_holds_the_last_thousand_witness :
  exists b',
    emitAll BusExamples.fiveEvents BusExamples.touchyBus = (Js.Normal tt, b') /\
    eventHistory b' = BusExamples.fiveEvents /\
    size (eventHistory b') <= maxHistorySize.
Proof.
  apply (@history_holds_the_last_thousand BusExamples.fiveEvents
           BusExamples.touchyBus).
  vm_compute. discriminate.
Defined.


End BusFacts.
